(** * causal-trainer: report statistics and dataset loading

    A shallow embedding of the two Python scripts of the repository,

    - [scripts/generate_report_stats.py] (module [generate_report_stats])
    - [notebooks/dataset_analysis.py]    (module [dataset_analysis])

    and the properties of their record normalisation, aggregation and
    loading code.

    Conventions of the embedding.

    - A Python value read from JSON or from a SQLite row is a [pyval].
      Numbers (Python [int] and finite [float]) are exact rationals [Q];
      Python compares and hashes [1], [1.0] and [True] alike, and so does
      the embedding.  NaN and infinities are outside the model, and a
      percentage is the exact quotient, before any rounding.
    - Text is ASCII: a Python [str] is a [string], and [lower], [strip],
      [in], [split] and slicing act on its characters one by one.
    - A Python exception is the [Raise] case of [result]; code that can
      raise is written in the [result] monad.
    - A [dict] read from JSON is an association list with distinct keys
      (lookup takes the first binding); a [defaultdict(int)] or [Counter]
      is a [gmap] from hashable keys to [nat]. *)

From Stdlib Require Import QArith Ascii String Sorted.
From stdpp Require Import gmap strings list fin_maps.

Local Open Scope string_scope.
Local Open Scope list_scope.

(** ** Python values, exceptions and built-ins *)

Module Py.

Inductive pyerr :=
| TypeError | KeyError | AttributeError | ZeroDivisionError | JSONDecodeError.

Inductive result (A : Type) :=
| Ok (a : A)
| Raise (e : pyerr).
Arguments Ok {A} a.
Arguments Raise {A} e.

#[global] Instance result_ret : MRet result := fun A a => Ok a.
#[global] Instance result_bind : MBind result := fun A B f m =>
  match m with Ok a => f a | Raise e => Raise e end.

(** A [for] loop whose body may raise: the state is threaded from left
    to right and the first exception ends the loop. *)
Fixpoint for_each {S A : Type} (body : S -> A -> result S) (l : list A) (s : S)
  : result S :=
  match l with
  | [] => Ok s
  | x :: l' => s' ← body s x; for_each body l' s'
  end.

#[warnings="-register-all"]
Inductive pyval :=
| PNone
| PBool (b : bool)
| PNum  (q : Q)
| PStr  (s : string)
| PList (l : list pyval)
| PDict (d : list (string * pyval)).

(** [bool(v)]. *)
Definition truthy (v : pyval) : bool :=
  match v with
  | PNone => false
  | PBool b => b
  | PNum q => negb (Qeq_bool q 0)
  | PStr s => negb (String.eqb s "")
  | PList l => match l with [] => false | _ => true end
  | PDict d => match d with [] => false | _ => true end
  end.

(** [a or b]; both operands are plain lookups wherever the scripts use it. *)
Definition py_or (a b : pyval) : pyval := if truthy a then a else b.

(** [d.get(k, default)] on a dict. *)
Fixpoint dict_get (d : list (string * pyval)) (k : string) (default : pyval) : pyval :=
  match d with
  | [] => default
  | (k', v) :: d' => if String.eqb k' k then v else dict_get d' k default
  end.

(** [k in d]. *)
Fixpoint dict_has (d : list (string * pyval)) (k : string) : bool :=
  match d with
  | [] => false
  | (k', _) :: d' => String.eqb k' k || dict_has d' k
  end.

(** [v == s] for a string literal [s]. *)
Definition eq_str (v : pyval) (s : string) : bool :=
  match v with PStr t => String.eqb t s | _ => false end.

(** The numeric value of an [int], [float] or [bool]. *)
Definition as_number (v : pyval) : option Q :=
  match v with
  | PNum q => Some q
  | PBool b => Some (if b then 1 else 0)%Q
  | _ => None
  end.

(** [v == c] for a numeric literal [c]: never raises. *)
Definition eq_num (v : pyval) (c : Q) : bool :=
  match as_number v with Some q => Qeq_bool q c | None => false end.

(** [v >= c] for a numeric literal [c]: [TypeError] on a non-number. *)
Definition ge_num (v : pyval) (c : Q) : result bool :=
  match as_number v with Some q => Ok (Qle_bool c q) | None => Raise TypeError end.

(** Hashable values as dictionary keys.  Numbers are kept in lowest
    terms, so that equal numbers are the same key. *)
Inductive pkey :=
| KNone
| KStr (s : string)
| KNum (n : Z) (d : positive).

#[global] Instance pkey_eq_dec : EqDecision pkey.
Proof. solve_decision. Defined.

#[global] Instance pkey_countable : Countable pkey.
Proof.
  refine (inj_countable'
    (fun k => match k with
              | KNone => inl ()
              | KStr s => inr (inl s)
              | KNum n d => inr (inr (n, d))
              end)
    (fun x => match x with
              | inl _ => KNone
              | inr (inl s) => KStr s
              | inr (inr (n, d)) => KNum n d
              end) _).
  by intros [].
Defined.

Definition key_of_Q (q : Q) : pkey :=
  let r := Qred q in KNum (Qnum r) (Qden r).

(** [hash(v)]: lists and dicts are unhashable. *)
Definition hash_key (v : pyval) : result pkey :=
  match v with
  | PNone => Ok KNone
  | PBool b => Ok (key_of_Q (if b then 1 else 0))
  | PNum q => Ok (key_of_Q q)
  | PStr s => Ok (KStr s)
  | PList _ | PDict _ => Raise TypeError
  end.

(** The elements a [for] loop or [list.extend] draws from a value. *)
Definition iterate (v : pyval) : result (list pyval) :=
  match v with
  | PList l => Ok l
  | PDict d => Ok (map (fun kv => PStr (fst kv)) d)
  | PStr s => Ok (map (fun c => PStr (String c "")) (list_ascii_of_string s))
  | PNone | PBool _ | PNum _ => Raise TypeError
  end.

(** *** Strings *)

Definition lower_ascii (c : ascii) : ascii :=
  let n := nat_of_ascii c in
  if (65 <=? n)%nat && (n <=? 90)%nat then ascii_of_nat (n + 32) else c.

(** [s.lower()]. *)
Fixpoint lower (s : string) : string :=
  match s with
  | "" => ""
  | String c s' => String (lower_ascii c) (lower s')
  end.

(** [c.isspace()]: tab, line feed, vertical tab, form feed, carriage
    return, the separators 0x1c-0x1f and the space. *)
Definition is_space (c : ascii) : bool :=
  let n := nat_of_ascii c in
  ((9 <=? n)%nat && (n <=? 13)%nat) || ((28 <=? n)%nat && (n <=? 32)%nat).

Fixpoint lstrip (s : string) : string :=
  match s with
  | "" => ""
  | String c s' => if is_space c then lstrip s' else s
  end.

Fixpoint rstrip (s : string) : string :=
  match s with
  | "" => ""
  | String c s' =>
      match rstrip s' with
      | "" => if is_space c then "" else String c ""
      | r => String c r
      end
  end.

(** [s.strip()]. *)
Definition strip (s : string) : string := rstrip (lstrip s).

(** [sub in s]. *)
Fixpoint contains (sub s : string) : bool :=
  String.prefix sub s ||
  match s with
  | "" => false
  | String _ s' => contains sub s'
  end.

(** [s.split(sep)[0]] for a one-character separator. *)
Fixpoint split_head (sep : ascii) (s : string) : string :=
  match s with
  | "" => ""
  | String c s' => if Ascii.eqb c sep then "" else String c (split_head sep s')
  end.

(** [s[:n]]. *)
Definition take_str (n : nat) (s : string) : string := String.substring 0 n s.

(** [s.split()] on ASCII text: the maximal runs of characters that are not
    white space; [word] is the run read so far. *)
Fixpoint split_from (word s : string) : list string :=
  match s with
  | "" => match word with "" => [] | _ => [word] end
  | String c s' =>
      if is_space c then
        match word with
        | "" => split_from "" s'
        | _ => word :: split_from "" s'
        end
      else split_from (word ++ String c "") s'
  end.

Definition split (s : string) : list string := split_from "" s.

(** [sep.join(words)]. *)
Definition join (sep : string) (words : list string) : string := String.concat sep words.

(** [c.upper()] for one character. *)
Definition upper_ascii (c : ascii) : ascii :=
  let n := nat_of_ascii c in
  if (97 <=? n)%nat && (n <=? 122)%nat then ascii_of_nat (n - 32) else c.

(** A cased character: a letter. *)
Definition is_cased (c : ascii) : bool :=
  let n := nat_of_ascii c in
  ((65 <=? n)%nat && (n <=? 90)%nat) || ((97 <=? n)%nat && (n <=? 122)%nat).

(** [s.title()] on ASCII text: a letter is put in upper case after a
    character that is not a letter (and at the start), in lower case after
    a letter. *)
Fixpoint title_from (previous_is_cased : bool) (s : string) : string :=
  match s with
  | "" => ""
  | String c s' =>
      String (if previous_is_cased then lower_ascii c else upper_ascii c)
             (title_from (is_cased c) s')
  end.

Definition title (s : string) : string := title_from false s.

#[global] Instance pyerr_eq_dec : EqDecision pyerr.
Proof. solve_decision. Defined.

#[global] Instance result_eq_dec {A : Type} `{EqDecision A} : EqDecision (result A).
Proof. solve_decision. Defined.

(** [v == k] for a value [k] that is the key of a dict or [Counter]: equal
    values are the same key, and a list or a dict equals no key. *)
Definition eq_key (v : pyval) (k : pkey) : bool := bool_decide (hash_key v = Ok k).

(** [v in keys] for a list of such values. *)
Definition in_keys (v : pyval) (keys : list pkey) : bool := existsb (eq_key v) keys.

(** *** Counters *)

Section counters.
Context {K : Type} `{Countable K}.

(** The value a [defaultdict(int)] or a [Counter.get(k, 0)] reads at [k]. *)
Definition count_at (k : K) (m : gmap K nat) : nat := default 0 (m !! k).

(** [m[k] += 1]. *)
Definition incr (k : K) (m : gmap K nat) : gmap K nat :=
  <[k := S (count_at k m)]> m.

(** Reading [m[k]] from a [defaultdict(int)] stores the default under a
    missing key. *)
Definition touch (k : K) (m : gmap K nat) : gmap K nat :=
  match m !! k with Some _ => m | None => <[k := 0]> m end.

(** [sum(m.values())]. *)
Definition sum_values (m : gmap K nat) : nat :=
  map_fold (fun _ v acc => v + acc) 0 m.
End counters.

End Py.

(** ** scripts/generate_report_stats.py *)

Module generate_report_stats.
Import Py.

(** A row of the [Question] table, with the columns that the query of
    [get_db_stats] selects; a [sqlite3.Row] is read by column name. *)
Record row := {
  col_id : pyval;
  col_pearlLevel : pyval;
  col_groundTruth : pyval;
  col_difficulty : pyval;
  col_trapType : pyval;
  col_finalScore : pyval;
  col_validationStatus : pyval;
  col_isLLMGenerated : pyval;
  col_initialAuthor : pyval
}.

(** A case is an element of the exported dataset's [cases] array (any
    JSON value, normally an object) or a row of the store. *)
Inductive case :=
| JsonCase (v : pyval)
| RowCase (r : row).

(** [stats['difficulty_by_level']]: a plain dict with exactly the keys
    ['L1'], ['L2'] and ['L3']. *)
Record by_level := {
  level_L1 : gmap string nat;
  level_L2 : gmap string nat;
  level_L3 : gmap string nat
}.

(** The [stats] dict of [calculate_stats]. *)
Record stats := {
  total : nat;
  pearl_level : gmap pkey nat;
  difficulty : gmap string nat;
  label : gmap pkey nat;
  trap_prefix : gmap string nat;
  l1_labels : gmap pkey nat;
  l2_labels : gmap pkey nat;
  l3_labels : gmap pkey nat;
  score_ranges : gmap string nat;
  difficulty_by_level : by_level
}.

Definition empty_stats (n : nat) : stats :=
  {| total := n; pearl_level := ∅; difficulty := ∅; label := ∅;
     trap_prefix := ∅; l1_labels := ∅; l2_labels := ∅; l3_labels := ∅;
     score_ranges := ∅;
     difficulty_by_level := {| level_L1 := ∅; level_L2 := ∅; level_L3 := ∅ |} |}.

(** Lines 63-76: the five fields [(pearl, diff, label, trap, score)] of a
    case.  A JSON value that is neither a dict nor a row takes the
    row branch, where [case['pearlLevel']] raises [TypeError]. *)
Definition case_fields (c : case) : result (pyval * pyval * pyval * pyval * pyval) :=
  match c with
  | JsonCase (PDict d) =>
      let pearl := py_or (dict_get d "pearlLevel" PNone) (dict_get d "pearl_level" PNone) in
      let diff := dict_get d "difficulty" PNone in
      let label := py_or (dict_get d "groundTruth" PNone) (dict_get d "label" PNone) in
      let trap_obj := dict_get d "trap" (PDict []) in
      let trap :=
        py_or (dict_get d "trapType" PNone)
              (match trap_obj with
               | PDict t => dict_get t "type" (PStr "")
               | _ => PStr ""
               end) in
      let score := py_or (dict_get d "finalScore" PNone) (dict_get d "final_score" PNone) in
      Ok (pearl, diff, label, trap, score)
  | JsonCase _ => Raise TypeError
  | RowCase r =>
      Ok (col_pearlLevel r, col_difficulty r, col_groundTruth r,
          py_or (col_trapType r) (PStr ""), col_finalScore r)
  end.

(** Line 82: [diff if diff in ['Easy', 'Medium', 'Hard'] else 'Unknown']. *)
Definition diff_normalized (diff : pyval) : string :=
  match diff with
  | PStr s =>
      if String.eqb s "Easy" || String.eqb s "Medium" || String.eqb s "Hard"
      then s else "Unknown"
  | _ => "Unknown"
  end.

(** Line 84: [stats['difficulty_by_level'][pearl][diff_normalized] += 1];
    a [pearl] other than the three keys raises [KeyError]. *)
Definition incr_by_level (pearl : pkey) (d : string) (b : by_level) : result by_level :=
  match pearl with
  | KStr "L1" =>
      Ok {| level_L1 := incr d (level_L1 b); level_L2 := level_L2 b;
            level_L3 := level_L3 b |}
  | KStr "L2" =>
      Ok {| level_L1 := level_L1 b; level_L2 := incr d (level_L2 b);
            level_L3 := level_L3 b |}
  | KStr "L3" =>
      Ok {| level_L1 := level_L1 b; level_L2 := level_L2 b;
            level_L3 := incr d (level_L3 b) |}
  | _ => Raise KeyError
  end.

(** Lines 102-111: the score range of a score that is not [None]. *)
Definition score_range (score : pyval) : result string :=
  if eq_num score 10 then Ok "10.0" else
  ge9 ← ge_num score 9;
  if ge9 : bool then Ok "9.0-9.9" else
  ge8 ← ge_num score 8;
  if ge8 : bool then Ok "8.0-8.9" else
  ge6 ← ge_num score 6;
  if ge6 : bool then Ok "6.0-7.9" else Ok "<6.0".

(** Lines 101-111. *)
Definition count_score (score : pyval) (m : gmap string nat) : result (gmap string nat) :=
  match score with
  | PNone => Ok m
  | _ => r ← score_range score; Ok (incr r m)
  end.

Section with_repr.

(** [str(v)] of a value that is not a string (number formatting, the
    [repr] of a list or dict) is Python's own and is a parameter here. *)
Variable py_repr : pyval -> string.

Definition py_str (v : pyval) : string :=
  match v with PStr s => s | _ => py_repr v end.

(** Line 97: [trap.split(':')[0] if ':' in str(trap) else str(trap)[:2]];
    only a string has [split]. *)
Definition trap_prefix_of (trap : pyval) : result string :=
  if contains ":" (py_str trap) then
    match trap with
    | PStr s => Ok (split_head ":" s)
    | _ => Raise AttributeError
    end
  else Ok (take_str 2 (py_str trap)).

(** Lines 96-98. *)
Definition count_trap (m : gmap string nat) (trap : pyval) : result (gmap string nat) :=
  if truthy trap then prefix ← trap_prefix_of trap; Ok (incr prefix m) else Ok m.

(** Lines 61-111: the body of the loop over [cases]. *)
Definition count_case (st : stats) (c : case) : result stats :=
  '(pearl, diff, lbl, trap, score) ← case_fields c;
  kp ← hash_key pearl;
  let pearl_level' := incr kp (pearl_level st) in
  let dn := diff_normalized diff in
  let difficulty' := incr dn (difficulty st) in
  by_level' ← incr_by_level kp dn (difficulty_by_level st);
  kl ← hash_key lbl;
  let label' := incr kl (label st) in
  let l1' := if eq_str pearl "L1" then incr kl (l1_labels st) else l1_labels st in
  let l2' := if eq_str pearl "L1" then l2_labels st
             else if eq_str pearl "L2" then incr kl (l2_labels st) else l2_labels st in
  let l3' := if eq_str pearl "L1" then l3_labels st
             else if eq_str pearl "L2" then l3_labels st
             else if eq_str pearl "L3" then incr kl (l3_labels st) else l3_labels st in
  trap_prefix' ← count_trap (trap_prefix st) trap;
  score_ranges' ← count_score score (score_ranges st);
  Ok {| total := total st; pearl_level := pearl_level'; difficulty := difficulty';
        label := label'; trap_prefix := trap_prefix';
        l1_labels := l1'; l2_labels := l2'; l3_labels := l3';
        score_ranges := score_ranges'; difficulty_by_level := by_level' |}.

Definition calculate_stats (cases : list case) (source_name : string) : result stats :=
  for_each count_case cases (empty_stats (length cases)).

End with_repr.

(** *** Reporting *)

(** What [print_stats] prints: a count, or a count with its percentage
    (the text formatting of the numbers is not modelled). *)
Inductive line :=
| Heading (title : string)
| Total (n : nat)
| Level (name : string)
| Count (key : string) (count : nat)
| CountPct (key : string) (count : nat) (pct : Q).

Definition Qnat (n : nat) : Q := inject_Z (Z.of_nat n).

(** [count / total * 100 if total > 0 else 0]. *)
Definition guarded_pct (count total : nat) : Q :=
  if (0 <? total)%nat then (Qnat count / Qnat total * 100)%Q else 0%Q.

(** [count / total * 100]: true division by zero raises. *)
Definition unguarded_pct (count total : nat) : result Q :=
  if (total =? 0)%nat then Raise ZeroDivisionError
  else Ok (Qnat count / Qnat total * 100)%Q.

Definition levels : list string := ["L1"; "L2"; "L3"].
Definition difficulties : list string := ["Easy"; "Medium"; "Hard"].
Definition range_names : list string := ["10.0"; "9.0-9.9"; "8.0-8.9"; "6.0-7.9"; "<6.0"].

Definition level_counts (b : by_level) (level : string) : gmap string nat :=
  if String.eqb level "L1" then level_L1 b
  else if String.eqb level "L2" then level_L2 b else level_L3 b.

(** Lines 116-166: the lines printed for one stage. *)
Definition print_stats_lines (st : stats) (name : string) : list line :=
  [Heading name; Total (total st)]
  ++ Heading "Pearl Level Distribution"
  :: map (fun level =>
            let count := count_at (KStr level) (pearl_level st) in
            CountPct level count (guarded_pct count (total st))) levels
  ++ Heading "Difficulty Distribution"
  :: map (fun diff =>
            let count := count_at diff (difficulty st) in
            CountPct diff count (guarded_pct count (total st))) difficulties
  ++ Heading "Difficulty by Pearl Level"
  :: concat (map (fun level =>
            let level_total := count_at (KStr level) (pearl_level st) in
            Level level ::
            map (fun diff =>
                   let count := count_at diff (level_counts (difficulty_by_level st) level) in
                   CountPct diff count (guarded_pct count level_total)) difficulties) levels)
  ++ Heading "L1 Label Distribution"
  :: map (fun l => Count l (count_at (KStr l) (l1_labels st))) ["YES"; "NO"; "AMBIGUOUS"]
  ++ Heading "L2 Label Distribution"
  :: concat (map (fun l =>
            let count := count_at (KStr l) (l2_labels st) in
            if (0 <? count)%nat then [Count l count] else []) ["NO"; "YES"])
  ++ Heading "L3 Label Distribution"
  :: map (fun l => Count l (count_at (KStr l) (l3_labels st))) ["VALID"; "INVALID"; "CONDITIONAL"]
  ++ (if decide (score_ranges st = ∅) then []
      else Heading "Score Distribution"
           :: map (fun range_name =>
                     let count := count_at range_name (score_ranges st) in
                     CountPct range_name count (guarded_pct count (total st))) range_names).

Definition touch_all {K : Type} `{Countable K} (ks : list K) (m : gmap K nat) : gmap K nat :=
  foldr touch m ks.

(** The [stats] dict after [print_stats]: every counter is a
    [defaultdict(int)], so each key read above is now stored (with 0 when
    it was missing); no count changes. *)
Definition print_stats_reads (st : stats) : stats :=
  {| total := total st;
     pearl_level := touch_all (map KStr levels) (pearl_level st);
     difficulty := touch_all difficulties (difficulty st);
     label := label st;
     trap_prefix := trap_prefix st;
     l1_labels := touch_all (map KStr ["YES"; "NO"; "AMBIGUOUS"]) (l1_labels st);
     l2_labels := touch_all (map KStr ["NO"; "YES"]) (l2_labels st);
     l3_labels := touch_all (map KStr ["VALID"; "INVALID"; "CONDITIONAL"]) (l3_labels st);
     score_ranges := if decide (score_ranges st = ∅) then score_ranges st
                     else touch_all range_names (score_ranges st);
     difficulty_by_level :=
       {| level_L1 := touch_all difficulties (level_L1 (difficulty_by_level st));
          level_L2 := touch_all difficulties (level_L2 (difficulty_by_level st));
          level_L3 := touch_all difficulties (level_L3 (difficulty_by_level st)) |} |}.

Definition print_stats (st : stats) (name : string) : list line * stats :=
  (print_stats_lines st name, print_stats_reads st).

(** A row of a LaTeX table: the key, then count and percentage for the
    unvalidated and validated stages, the final count and then the final
    percentage (first table) or the target percentage (second table). *)
Record latex_row := {
  row_key : string;
  unval_count : nat; unval_pct : Q;
  val_count : nat; val_pct : Q;
  final_count : nat; final_pct : option Q;
  target : option nat
}.

(** Lines 178-185: one row of the pearl-level table. *)
Definition pearl_level_row (unval_stats val_stats final_stats : stats) (level : string)
  : result latex_row :=
  let u := count_at (KStr level) (pearl_level unval_stats) in
  u_pct ← unguarded_pct u (total unval_stats);
  let v := count_at (KStr level) (pearl_level val_stats) in
  v_pct ← unguarded_pct v (total val_stats);
  let f := count_at (KStr level) (pearl_level final_stats) in
  f_pct ← unguarded_pct f (total final_stats);
  Ok {| row_key := level; unval_count := u; unval_pct := u_pct;
        val_count := v; val_pct := v_pct; final_count := f; final_pct := Some f_pct;
        target := None |}.

(** Lines 191-198: one row of the difficulty table. *)
Definition difficulty_row (unval_stats val_stats final_stats : stats) (diff : string)
  : result latex_row :=
  let u := count_at diff (difficulty unval_stats) in
  u_pct ← unguarded_pct u (total unval_stats);
  let v := count_at diff (difficulty val_stats) in
  v_pct ← unguarded_pct v (total val_stats);
  let f := count_at diff (difficulty final_stats) in
  let target := if String.eqb diff "Medium" then 50 else 25 in
  Ok {| row_key := diff; unval_count := u; unval_pct := u_pct;
        val_count := v; val_pct := v_pct; final_count := f; final_pct := None;
        target := Some target |}.

(** [[body(x) for x in l]] where [body] may raise. *)
Fixpoint map_result {A B : Type} (body : A -> result B) (l : list A) : result (list B) :=
  match l with
  | [] => Ok []
  | x :: l' => y ← body x; ys ← map_result body l'; Ok (y :: ys)
  end.

(** Lines 169-199: the rows of the two tables. *)
Definition generate_latex_tables (unval_stats val_stats final_stats : stats)
  : result (list latex_row * list latex_row) :=
  t1 ← map_result (pearl_level_row unval_stats val_stats final_stats) levels;
  t2 ← map_result (difficulty_row unval_stats val_stats final_stats) difficulties;
  Ok (t1, t2).

(** The keys [generate_latex_tables] reads from each [stats]. *)
Definition latex_reads (st : stats) : stats :=
  {| total := total st;
     pearl_level := touch_all (map KStr levels) (pearl_level st);
     difficulty := touch_all difficulties (difficulty st);
     label := label st; trap_prefix := trap_prefix st;
     l1_labels := l1_labels st; l2_labels := l2_labels st; l3_labels := l3_labels st;
     score_ranges := score_ranges st; difficulty_by_level := difficulty_by_level st |}.

(** Lines 236-239: which of the two verdicts is printed. *)
Inductive verdict := Consistent | Inconsistent.

Definition verification (unval_stats : stats) : verdict :=
  if (total unval_stats =? sum_values (pearl_level unval_stats))%nat
     && (sum_values (pearl_level unval_stats) =? sum_values (difficulty unval_stats))%nat
  then Consistent else Inconsistent.

Section main_program.

Variable py_repr : pyval -> string.

(** Line 214:
    [[c for c in db_cases if c['finalScore'] is not None and c['finalScore'] >= 8]]. *)
Fixpoint validated_cases (db_cases : list row) : result (list row) :=
  match db_cases with
  | [] => Ok []
  | c :: rest =>
      keep ← match col_finalScore c with
             | PNone => Ok false
             | s => ge_num s 8
             end;
      rest' ← validated_cases rest;
      Ok (if keep : bool then c :: rest' else rest')
  end.

(** What a run of [main] prints. *)
Record report := {
  stage_tables : list line;
  latex_tables : list latex_row * list latex_row;
  unval_total : nat;
  verified : verdict
}.

(** Lines 202-239, on the rows of the store and the cases of the export. *)
Definition main (db_cases : list row) (export_cases : list pyval) : result report :=
  unval_stats ← calculate_stats py_repr (map RowCase db_cases) "Unvalidated";
  validated ← validated_cases db_cases;
  val_stats ← calculate_stats py_repr (map RowCase validated) "Validated (score >= 8)";
  final_stats ← calculate_stats py_repr (map JsonCase export_cases) "Final Export";
  let '(out1, unval_stats) := print_stats unval_stats "UNVALIDATED POOL (Database)" in
  let '(out2, val_stats) := print_stats val_stats "VALIDATED (Score >= 8)" in
  let '(out3, final_stats) := print_stats final_stats "FINAL EXPORT (360 cases)" in
  tables ← generate_latex_tables unval_stats val_stats final_stats;
  let unval_stats := latex_reads unval_stats in
  Ok {| stage_tables := out1 ++ out2 ++ out3;
        latex_tables := tables;
        unval_total := total unval_stats;
        verified := verification unval_stats |}.

End main_program.

End generate_report_stats.

(** ** notebooks/dataset_analysis.py *)

Module dataset_analysis.
Import Py.

(** An entry of the data directory: its name and what [json.load] makes of
    its content ([None] when the content is not JSON). *)
Record file := {
  name : string;
  content : option pyval
}.

Definition json_load (f : file) : result pyval :=
  match content f with
  | Some data => Ok data
  | None => Raise JSONDecodeError
  end.

Definition ends_with (suffix s : string) : bool :=
  (String.length suffix <=? String.length s)%nat
  && String.eqb (String.substring (String.length s - String.length suffix)
                                  (String.length suffix) s) suffix.

(** [data_dir.glob("*.json")], in the order of the directory listing. *)
Definition glob_json (data_dir : list file) : list file :=
  filter (fun f => ends_with ".json" (name f) = true) data_dir.

(** [data_dir.glob("combined*.json")]. *)
Definition glob_combined (data_dir : list file) : list file :=
  filter (fun f => String.prefix "combined" (name f) && ends_with ".json" (name f) = true)
         data_dir.

(** [sorted(...)] on paths of one directory: a stable sort on the names. *)
Fixpoint insert_sorted (f : file) (l : list file) : list file :=
  match l with
  | [] => [f]
  | g :: l' => if String.leb (name f) (name g) then f :: g :: l' else g :: insert_sorted f l'
  end.

Definition sorted (l : list file) : list file := foldr insert_sorted [] l.

Definition author_map : list (string * string) :=
  [("deveen", "Deveen"); ("theodore-wu", "Theodore"); ("tony", "Tony"); ("juli", "Juli")].

Definition email_to_name : list (string * string) :=
  [("deveen@stanford.edu", "Deveen"); ("wutheodo@stanford.edu", "Theodore");
   ("lgren007@stanford.edu", "Tony"); ("julih@stanford.edu", "Juli")].

(** [by_author[k].extend(qs)] on a [defaultdict(list)]. *)
Definition extend_at (k : pkey) (qs : list pyval) (by_author : gmap pkey (list pyval))
  : gmap pkey (list pyval) :=
  <[k := default [] (by_author !! k) ++ qs]> by_author.

(** Lines 46-47: the test that skips a file in the primary pass. *)
Definition is_combined (f : file) : bool := contains "combined" (lower (name f)).

(** Lines 55-62: the author bucket of a per-author file. *)
Definition author_key (f : file) : string :=
  match find (fun kv => contains (fst kv) (lower (name f))) author_map with
  | Some kv => snd kv
  | None => name f
  end.

(** Lines 45-62: the body of the primary loop. *)
Definition load_file (st : list pyval * gmap pkey (list pyval)) (f : file)
  : result (list pyval * gmap pkey (list pyval)) :=
  let '(all_questions, by_author) := st in
  if is_combined f then Ok st else
  data ← json_load f;
  questions ← match data with
              | PList _ => Ok data
              | PDict d => Ok (dict_get d "questions" (PList []))
              | _ => Raise AttributeError
              end;
  qs ← iterate questions;
  Ok (all_questions ++ qs, extend_at (KStr (author_key f)) qs by_author).

(** Lines 74-76: the bucket of one record of the combined file.
    [email_to_name.get] hashes the identifier, which is itself the bucket
    when the table does not have it. *)
Definition group_by_author (by_author : gmap pkey (list pyval)) (q : pyval)
  : result (gmap pkey (list pyval)) :=
  match q with
  | PDict d =>
      let author_email := dict_get d "author" (PStr "Unknown") in
      k ← hash_key author_email;
      let author_name :=
        match author_email with
        | PStr e =>
            match find (fun kv => String.eqb (fst kv) e) email_to_name with
            | Some kv => KStr (snd kv)
            | None => k
            end
        | _ => k
        end in
      Ok (extend_at author_name [q] by_author)
  | _ => Raise AttributeError
  end.

(** Lines 65-76: the fallback on the first combined file. *)
Definition load_combined (data_dir : list file) (st : list pyval * gmap pkey (list pyval))
  : result (list pyval * gmap pkey (list pyval)) :=
  let '(all_questions, by_author) := st in
  match all_questions with
  | _ :: _ => Ok st
  | [] =>
      match glob_combined data_dir with
      | [] => Ok st
      | f :: _ =>
          data ← json_load f;
          questions ← match data with
                      | PDict d => Ok (dict_get d "questions" (PList []))
                      | _ => Raise AttributeError
                      end;
          qs ← iterate questions;
          by_author' ← for_each group_by_author qs by_author;
          Ok (all_questions ++ qs, by_author')
      end
  end.

(** Lines 23-78. *)
Definition _load_questions (data_dir : list file)
  : result (list pyval * gmap pkey (list pyval)) :=
  st ← for_each load_file (sorted (glob_json data_dir)) ([], ∅);
  load_combined data_dir st.

(** Lines 81-87. *)
Fixpoint _get (q : pyval) (path : list string) (default : pyval) : pyval :=
  match path with
  | [] => q
  | key :: path' =>
      match q with
      | PDict d => if dict_has d key then _get (dict_get d key PNone) path' default
                   else default
      | _ => default
      end
  end.

(** Line 176: [[q for q in all_questions if q.get("groundTruth") == "NO"]];
    only a dict has [get]. *)
Fixpoint no_cases (all_questions : list pyval) : result (list pyval) :=
  match all_questions with
  | [] => Ok []
  | q :: rest =>
      match q with
      | PDict d =>
          rest' ← no_cases rest;
          Ok (if eq_str (dict_get d "groundTruth" PNone) "NO" then q :: rest' else rest')
      | _ => Raise AttributeError
      end
  end.

(** [Counter(values)]: every value is hashed. *)
Definition Counter (values : list pyval) : result (gmap pkey nat) :=
  for_each (fun m v => k ← hash_key v; Ok (incr k m)) values ∅.

(** Lines 176-177. *)
Definition trap_counts (all_questions : list pyval) : result (gmap pkey nat) :=
  cases ← no_cases all_questions;
  Counter (map (fun q => _get q ["annotations"; "trapType"] (PStr "UNKNOWN")) cases).

Section with_repr.

Variable py_repr : pyval -> string.

(** Lines 102-105. *)
Definition _norm_str (x : pyval) : string :=
  match x with
  | PNone => ""
  | PStr s => strip s
  | _ => strip (py_repr x)
  end.

(** Lines 108-116. *)
Definition _norm_difficulty (x : pyval) : string :=
  let s := lower (_norm_str x) in
  if String.eqb s "easy" || String.eqb s "e" then "EASY"
  else if String.eqb s "medium" || String.eqb s "med" || String.eqb s "m" then "MEDIUM"
  else if String.eqb s "hard" || String.eqb s "h" then "HARD"
  else "UNKNOWN".

(** Line 189: the difficulty counts of [main]. *)
Definition diff_counts (all_questions : list pyval) : gmap string nat :=
  foldl (fun m q => incr (_norm_difficulty (_get q ["annotations"; "difficulty"] PNone)) m)
        ∅ all_questions.

(** Lines 119-124. *)
Definition _norm_subdomain (x : pyval) : string :=
  let s := _norm_str x in
  if String.eqb s "" then "UNKNOWN" else title (join " " (split s)).

(** Line 259. *)
Definition subdomains (all_questions : list pyval) : list string :=
  map (fun q => _norm_subdomain (_get q ["annotations"; "subdomain"] PNone)) all_questions.

End with_repr.

(** Lines 90-91: [len((text or "").split())]; only a string has [split]. *)
Definition _word_count (text : pyval) : result nat :=
  match py_or text (PStr "") with
  | PStr s => Ok (length (split s))
  | _ => Raise AttributeError
  end.

(** Line 230: [[q.get("groundTruth") or "UNKNOWN" for q in all_questions]]. *)
Fixpoint gts (all_questions : list pyval) : result (list pyval) :=
  match all_questions with
  | [] => Ok []
  | q :: rest =>
      gt ← match q with
           | PDict d => Ok (py_or (dict_get d "groundTruth" PNone) (PStr "UNKNOWN"))
           | _ => Raise AttributeError
           end;
      rest' ← gts rest;
      Ok (gt :: rest')
  end.

(** [counter[v] += 1] on a [Counter], which keeps its keys in the order in
    which they were first counted. *)
Fixpoint count_item (v : string) (items : list (string * nat)) : list (string * nat) :=
  match items with
  | [] => [(v, 1)]
  | (k, n) :: items' =>
      if String.eqb k v then (k, S n) :: items' else (k, n) :: count_item v items'
  end.

(** [Counter(values).items()] for string values. *)
Definition Counter_items (values : list string) : list (string * nat) :=
  foldl (fun items v => count_item v items) [] values.

(** [sorted(items, key=itemgetter(1), reverse=True)], a stable sort: among
    equal counts the item counted first stays first. *)
Fixpoint insert_by_count (x : string * nat) (l : list (string * nat))
  : list (string * nat) :=
  match l with
  | [] => [x]
  | y :: l' => if (snd x <? snd y)%nat then y :: insert_by_count x l' else x :: y :: l'
  end.

(** [counter.most_common(n)]: the first [n] items of that order. *)
Definition most_common (n : nat) (items : list (string * nat)) : list (string * nat) :=
  take n (foldr insert_by_count [] items).

(** Line 261. *)
Definition top_subs (subdomains : list string) : list string :=
  map fst (most_common 10 (Counter_items subdomains)).

(** Line 262. *)
Definition sub_display (subdomains : list string) : list string :=
  map (fun s => if bool_decide (s ∈ top_subs subdomains) then s else "OTHER") subdomains.

(** Line 264. *)
Definition subs_order (subdomains : list string) : list string :=
  top_subs subdomains
  ++ (if existsb (fun s => String.eqb s "OTHER") (sub_display subdomains)
      then ["OTHER"] else []).

(** Line 270: [counts[s][gt] += 1]; [counts] is a plain dict. *)
Definition count_cell (counts : gmap string (gmap pkey nat)) (cell : string * pyval)
  : result (gmap string (gmap pkey nat)) :=
  match counts !! fst cell with
  | None => Raise KeyError
  | Some c => k ← hash_key (snd cell); Ok (<[fst cell := incr k c]> counts)
  end.

(** Lines 268-270: the counts of the ground truths per displayed subdomain. *)
Definition subdomain_counts (subdomains : list string) (gts : list pyval)
  : result (gmap string (gmap pkey nat)) :=
  for_each count_cell (zip (sub_display subdomains) gts)
           (list_to_map (map (fun s => (s, ∅)) (subs_order subdomains))).

(** Line 275: [[counts[s].get(gt, 0) for s in subs_order]]. *)
Definition vals (subdomains : list string) (counts : gmap string (gmap pkey nat))
    (gt : pkey) : list nat :=
  map (fun s => count_at gt (default ∅ (counts !! s))) (subs_order subdomains).

(** Lines 336-345: the height of the bar of trap type [tt] over the [NO]
    records [qs] of an annotator. *)
Definition trap_type_val (top_trap_types : list pkey) (qs : list pyval) (tt : pkey) : nat :=
  if eq_key (PStr "OTHER") tt then
    length (filter (fun q => in_keys (_get q ["annotations"; "trapType"] (PStr "UNKNOWN"))
                                     top_trap_types = false) qs)
  else
    length (filter (fun q => eq_key (_get q ["annotations"; "trapType"] PNone) tt = true) qs).

(** Lines 332-346 for one annotator: the bars of the top trap types and of
    [OTHER], over the annotator's records. *)
Definition trap_type_vals (top_trap_types : list pkey) (bucket : list pyval)
  : result (list nat) :=
  qs ← no_cases bucket;
  Ok (map (trap_type_val top_trap_types qs) (top_trap_types ++ [KStr "OTHER"])).

End dataset_analysis.

(** ** Vocabulary of the properties *)

Import Py.

(** The records held by the author buckets, bucket after bucket. *)
Definition bucket_records (by_author : gmap pkey (list pyval)) : list pyval :=
  concat (map snd (map_to_list by_author)).

(** The record count of every author bucket (the values of
    [author_counts] in [main], line 214 of dataset_analysis.py). *)
Definition author_counts (by_author : gmap pkey (list pyval)) : gmap pkey nat :=
  length <$> by_author.

(** The order in which [sorted] leaves the files. *)
Definition name_le (f g : dataset_analysis.file) : Prop :=
  String.leb (dataset_analysis.name f) (dataset_analysis.name g) = true.

(** The directory without the files that the primary pass skips. *)
Definition per_author_files (data_dir : list dataset_analysis.file)
  : list dataset_analysis.file :=
  filter (fun f => dataset_analysis.is_combined f = false) data_dir.

(** The trap value that [calculate_stats] reads from a case. *)
Definition case_trap (c : generate_report_stats.case) : pyval :=
  match generate_report_stats.case_fields c with
  | Ok (_, _, _, trap, _) => trap
  | Raise _ => PNone
  end.

(** The usual values of the five fields of a case: a pearl level among
    L1, L2 and L3, a hashable label, a trap that is a string unless it is
    falsy, a score that is [None] or a number. *)
Definition usual_fields (f : pyval * pyval * pyval * pyval * pyval) : Prop :=
  let '(pearl, diff, lbl, trap, score) := f in
  (pearl = PStr "L1" \/ pearl = PStr "L2" \/ pearl = PStr "L3")
  /\ (exists k, hash_key lbl = Ok k)
  /\ (truthy trap = true -> exists s, trap = PStr s)
  /\ (score = PNone \/ exists q, as_number score = Some q).

Definition usual_case (c : generate_report_stats.case) : Prop :=
  exists f, generate_report_stats.case_fields c = Ok f /\ usual_fields f.

(** The records of a file in one of the two shapes: a bare array, or an
    object whose [questions] (an empty array when the key is missing) is
    an array. *)
Definition file_records (f : dataset_analysis.file) (records : list pyval) : Prop :=
  dataset_analysis.content f = Some (PList records)
  \/ (exists d, dataset_analysis.content f = Some (PDict d)
                 /\ dict_get d "questions" (PList []) = PList records).

(** The same for the object shape alone. *)
Definition object_records (f : dataset_analysis.file) (records : list pyval) : Prop :=
  exists d, dataset_analysis.content f = Some (PDict d)
            /\ dict_get d "questions" (PList []) = PList records.

(** A record object whose author identifier, if any, is hashable. *)
Definition usual_record (q : pyval) : Prop :=
  exists d k, q = PDict d /\ hash_key (dict_get d "author" (PStr "Unknown")) = Ok k.

(** ** Vocabulary of the further properties *)

Section further_vocabulary.
Import generate_report_stats dataset_analysis.

(** [m[k] += 1] when the case has a key [k] for the counter, nothing otherwise. *)
Definition incr_if {K : Type} `{Countable K} (o : option K) (m : gmap K nat) : gmap K nat :=
  match o with Some k => incr k m | None => m end.

(** What one case adds to the counters of [calculate_stats]: its pearl
    level, normalised difficulty and label, the prefix of its trap (when
    it has one) and the range of its score (when it has one). *)
Record effect := {
  e_level : string;
  e_diff : string;
  e_label : pkey;
  e_trap : option string;
  e_range : option string
}.

(** The pearl level as a key of [stats['difficulty_by_level']]. *)
Definition level_key (kp : pkey) : result string :=
  match kp with
  | KStr s => if bool_decide (s ∈ levels) then Ok s else Raise KeyError
  | _ => Raise KeyError
  end.

(** Lines 63-111 without the counters: what the body of the loop reads
    from a case, and the exceptions it raises on it. *)
Definition case_effect (py_repr : pyval -> string) (c : case) : result effect :=
  '(pearl, diff, lbl, trap, score) ← case_fields c;
  kp ← hash_key pearl;
  lvl ← level_key kp;
  kl ← hash_key lbl;
  tp ← (if truthy trap then p ← trap_prefix_of py_repr trap; Ok (Some p) else Ok None);
  rg ← match score with
       | PNone => Ok None
       | _ => r ← score_range score; Ok (Some r)
       end;
  Ok {| e_level := lvl; e_diff := diff_normalized diff; e_label := kl;
        e_trap := tp; e_range := rg |}.

Definition at_level (level : string) {K : Type} (e : effect) (k : K) : option K :=
  if String.eqb (e_level e) level then Some k else None.

(** The counters after one more case. *)
Definition apply_effect (st : stats) (e : effect) : stats :=
  {| total := total st;
     pearl_level := incr_if (Some (KStr (e_level e))) (pearl_level st);
     difficulty := incr_if (Some (e_diff e)) (difficulty st);
     label := incr_if (Some (e_label e)) (label st);
     trap_prefix := incr_if (e_trap e) (trap_prefix st);
     l1_labels := incr_if (at_level "L1" e (e_label e)) (l1_labels st);
     l2_labels := incr_if (at_level "L2" e (e_label e)) (l2_labels st);
     l3_labels := incr_if (at_level "L3" e (e_label e)) (l3_labels st);
     score_ranges := incr_if (e_range e) (score_ranges st);
     difficulty_by_level :=
       {| level_L1 := incr_if (at_level "L1" e (e_diff e)) (level_L1 (difficulty_by_level st));
          level_L2 := incr_if (at_level "L2" e (e_diff e)) (level_L2 (difficulty_by_level st));
          level_L3 := incr_if (at_level "L3" e (e_diff e)) (level_L3 (difficulty_by_level st)) |} |}.

(** [v is None]. *)
Definition is_None (v : pyval) : bool :=
  match v with PNone => true | _ => false end.

(** The pearl level, difficulty, label and score that [calculate_stats]
    reads from a case. *)
Definition case_pearl (c : case) : pyval :=
  match case_fields c with Ok (pearl, _, _, _, _) => pearl | Raise _ => PNone end.

Definition case_difficulty (c : case) : pyval :=
  match case_fields c with Ok (_, diff, _, _, _) => diff | Raise _ => PNone end.

Definition case_label (c : case) : pyval :=
  match case_fields c with Ok (_, _, lbl, _, _) => lbl | Raise _ => PNone end.

Definition case_score (c : case) : pyval :=
  match case_fields c with Ok (_, _, _, _, score) => score | Raise _ => PNone end.

(** A row whose score is a number that is at least 8. *)
Definition scored_at_least_8 (r : row) : Prop :=
  exists q, as_number (col_finalScore r) = Some q /\ (8 <= q)%Q.

(** [dict(row)]: the columns of a row under their names. *)
Definition row_as_dict (r : row) : pyval :=
  PDict [("id", col_id r); ("pearlLevel", col_pearlLevel r);
         ("groundTruth", col_groundTruth r); ("difficulty", col_difficulty r);
         ("trapType", col_trapType r); ("finalScore", col_finalScore r);
         ("validationStatus", col_validationStatus r);
         ("isLLMGenerated", col_isLLMGenerated r);
         ("initialAuthor", col_initialAuthor r)].

(** A value that [or] leaves alone, or [None]. *)
Definition truthy_or_None (v : pyval) : Prop := truthy v = true \/ v = PNone.

(** Whether every key of [path] is found on the way down from [q]. *)
Fixpoint has_path (q : pyval) (path : list string) : bool :=
  match path with
  | [] => true
  | key :: path' =>
      match q with
      | PDict d => dict_has d key && has_path (dict_get d key PNone) path'
      | _ => false
      end
  end.

(** A string of white space only. *)
Fixpoint blank (s : string) : bool :=
  match s with
  | "" => true
  | String c s' => is_space c && blank s'
  end.

Fixpoint no_space (s : string) : bool :=
  match s with
  | "" => true
  | String c s' => negb (is_space c) && no_space s'
  end.

(** A word: at least one character, none of them white space. *)
Definition word (w : string) : Prop := w <> "" /\ no_space w = true.

(** A capital letter. *)
Definition is_upper (c : ascii) : bool :=
  let n := nat_of_ascii c in (65 <=? n)%nat && (n <=? 90)%nat.

(** The entries of the directory that one of the two passes can open: a
    [*.json] file that the primary pass does not skip, or one that
    [glob("combined*.json")] finds. *)
Definition read_by_loader (f : file) : bool :=
  ends_with ".json" (name f)
  && (negb (is_combined f) || String.prefix "combined" (name f)).

(** The records of a file in one of the two shapes (no record otherwise). *)
Definition records_of (f : file) : list pyval :=
  match content f with
  | Some (PList records) => records
  | Some (PDict d) =>
      match dict_get d "questions" (PList []) with PList records => records | _ => [] end
  | _ => []
  end.

(** Lines 74-75: the bucket of a record of the combined file. *)
Definition author_name (q : pyval) : result pkey :=
  match q with
  | PDict d =>
      let author_email := dict_get d "author" (PStr "Unknown") in
      k ← hash_key author_email;
      Ok (match author_email with
          | PStr e =>
              match find (fun kv => String.eqb (fst kv) e) email_to_name with
              | Some kv => KStr (snd kv)
              | None => k
              end
          | _ => k
          end)
  | _ => Raise AttributeError
  end.

(** [by_author[k].extend(qs)] for every [(k, qs)] of a list, in order. *)
Definition extend_all (kvs : list (pkey * list pyval)) (by_author : gmap pkey (list pyval))
  : gmap pkey (list pyval) :=
  foldl (fun m kv => extend_at (fst kv) (snd kv) m) by_author kvs.

(** The sum of the bars of ground truth [k] over the subdomains [order]
    (line 275, summed). *)
Definition column_sum (order : list string) (counts : gmap string (gmap pkey nat))
    (k : pkey) : nat :=
  sum_list (map (fun s => count_at k (default ∅ (counts !! s))) order).

End further_vocabulary.

(** ** Example inputs *)

(** The examples pass only strings to [str()]; this stands for Python's
    [str()] on the other values, which they never reach. *)
Definition repr_unused : pyval -> string := fun _ => "".

Definition store_row (id pearl gt diff trap score : pyval) : generate_report_stats.row :=
  {| generate_report_stats.col_id := id;
     generate_report_stats.col_pearlLevel := pearl;
     generate_report_stats.col_groundTruth := gt;
     generate_report_stats.col_difficulty := diff;
     generate_report_stats.col_trapType := trap;
     generate_report_stats.col_finalScore := score;
     generate_report_stats.col_validationStatus := PStr "scored";
     generate_report_stats.col_isLLMGenerated := PBool true;
     generate_report_stats.col_initialAuthor := PStr "tony" |}.

(** Two rows of the store: a NO case scored 9.5 and a YES case scored 7.5
    whose trap type is the string NONE. *)
Definition row_no : generate_report_stats.row :=
  store_row (PStr "q1") (PStr "L1") (PStr "NO") (PStr "Easy") (PStr "T1:CONFOUNDING")
            (PNum 9.5).
Definition row_yes : generate_report_stats.row :=
  store_row (PStr "q2") (PStr "L2") (PStr "YES") (PStr "Hard") (PStr "NONE") (PNum 7.5).

(** A row whose pearl level is NULL. *)
Definition row_null_pearl : generate_report_stats.row :=
  store_row (PStr "q3") PNone (PStr "NO") (PStr "Easy") (PStr "T1:CONFOUNDING") (PNum 9).

(** A row scored 0. *)
Definition row_zero : generate_report_stats.row :=
  store_row (PStr "q4") (PStr "L1") (PStr "NO") (PStr "Easy") PNone (PNum 0).

(** Cases of the export: one with the export's key names, one without a
    pearl level, one scored 0, and one that carries the score under both
    key names. *)
Definition case_export : pyval :=
  PDict [("pearl_level", PStr "L3"); ("label", PStr "NO"); ("difficulty", PStr "Medium");
         ("trap", PDict [("type", PStr "T7:COLLIDER")]); ("final_score", PNum 8)].
Definition case_no_pearl : pyval :=
  PDict [("groundTruth", PStr "NO"); ("difficulty", PStr "Easy")].
Definition case_zero : pyval :=
  PDict [("pearlLevel", PStr "L1"); ("groundTruth", PStr "NO"); ("finalScore", PNum 0)].
Definition case_both_scores : pyval :=
  PDict [("pearlLevel", PStr "L1"); ("groundTruth", PStr "NO");
         ("finalScore", PNum 0); ("final_score", PNum 7.5)].

Definition example_db : list generate_report_stats.row := [row_no; row_yes].

Definition example_unval_stats : generate_report_stats.stats :=
  match generate_report_stats.calculate_stats repr_unused
          (map generate_report_stats.RowCase example_db) "Unvalidated" with
  | Ok st => st
  | Raise _ => generate_report_stats.empty_stats 0
  end.

(** Records of the annotation files. *)
Definition question_no : pyval :=
  PDict [("id", PStr "a1"); ("author", PStr "lgren007@stanford.edu");
         ("groundTruth", PStr "NO");
         ("annotations", PDict [("trapType", PStr "COLLIDER"); ("difficulty", PStr "Med")])].
Definition question_yes : pyval :=
  PDict [("id", PStr "a2"); ("author", PStr "someone@example.org");
         ("groundTruth", PStr "YES");
         ("annotations", PDict [("trapType", PStr "NONE"); ("difficulty", PStr "easy")])].

Definition file_tony : dataset_analysis.file :=
  {| dataset_analysis.name := "tony_questions.json";
     dataset_analysis.content := Some (PList [question_no]) |}.
Definition file_other : dataset_analysis.file :=
  {| dataset_analysis.name := "batch2.json";
     dataset_analysis.content := Some (PDict [("questions", PList [question_yes])]) |}.
Definition file_combined_object : dataset_analysis.file :=
  {| dataset_analysis.name := "combined_questions.json";
     dataset_analysis.content :=
       Some (PDict [("questions", PList [question_no; question_yes])]) |}.
Definition file_combined_array : dataset_analysis.file :=
  {| dataset_analysis.name := "combined_questions.json";
     dataset_analysis.content := Some (PList [question_no; question_yes]) |}.

Definition dir_both : list dataset_analysis.file :=
  [file_tony; file_combined_object; file_other].
Definition dir_only_combined : list dataset_analysis.file := [file_combined_object].

(** What [_load_questions] returns on the two directories. *)
Definition loaded_primary : list pyval * gmap pkey (list pyval) :=
  match dataset_analysis._load_questions dir_both with Ok r => r | Raise _ => ([], ∅) end.
Definition loaded_fallback : list pyval * gmap pkey (list pyval) :=
  match dataset_analysis._load_questions dir_only_combined with
  | Ok r => r
  | Raise _ => ([], ∅)
  end.

(** A row whose difficulty is spelled in lower case. *)
Definition row_easy_lower : generate_report_stats.row :=
  store_row (PStr "q5") (PStr "L1") (PStr "NO") (PStr "easy") (PStr "T1:CONFOUNDING")
            (PNum 9).

(** Records with a subdomain. *)
Definition question_equities : pyval :=
  PDict [("id", PStr "b1"); ("groundTruth", PStr "NO");
         ("annotations", PDict [("subdomain", PStr "equity  markets");
                                ("trapType", PStr "COLLIDER")])].
Definition question_rates : pyval :=
  PDict [("id", PStr "b2"); ("groundTruth", PStr "YES");
         ("annotations", PDict [("subdomain", PStr " Equity Markets")])].
Definition example_questions : list pyval := [question_equities; question_rates].

(** The directory [dir_both], listed in another order. *)
Definition dir_permuted : list dataset_analysis.file :=
  [file_other; file_combined_object; file_tony].

(** A per-author file and a combined file that hold no record, both bare
    arrays. *)
Definition file_tony_empty : dataset_analysis.file :=
  {| dataset_analysis.name := "tony_questions.json";
     dataset_analysis.content := Some (PList []) |}.
Definition file_combined_empty_array : dataset_analysis.file :=
  {| dataset_analysis.name := "combined_questions.json";
     dataset_analysis.content := Some (PList []) |}.
Definition dir_empty_both : list dataset_analysis.file :=
  [file_tony_empty; file_combined_empty_array].

(** * Properties *)

(** ** Counters *)

Section counter_facts.
Context {K : Type} `{Countable K}.
Implicit Types (k : K) (m : gmap K nat).

Lemma sum_values_empty : sum_values (∅ : gmap K nat) = 0.
Proof. unfold sum_values. apply map_fold_empty. Qed.

Lemma sum_values_insert_fresh k v m :
  m !! k = None -> sum_values (<[k := v]> m) = v + sum_values m.
Proof.
  intros Hk. unfold sum_values.
  rewrite map_fold_insert_L; [done | intros; lia | done].
Qed.

Lemma sum_values_delete k v m :
  m !! k = Some v -> sum_values m = v + sum_values (delete k m).
Proof.
  intros Hk. rewrite <- (insert_delete_id m k v Hk) at 1.
  apply sum_values_insert_fresh, lookup_delete_eq.
Qed.

(** Overwriting a key replaces its old count in the sum. *)
Lemma sum_values_insert k v m :
  sum_values (<[k := v]> m) + count_at k m = v + sum_values m.
Proof.
  unfold count_at. destruct (m !! k) as [x|] eqn:Hk; simpl.
  - rewrite (sum_values_delete k x m Hk), <- insert_delete_eq.
    rewrite sum_values_insert_fresh by apply lookup_delete_eq. lia.
  - rewrite sum_values_insert_fresh by done. lia.
Qed.

Lemma sum_values_incr k m : sum_values (incr k m) = S (sum_values m).
Proof. unfold incr. pose proof (sum_values_insert k (S (count_at k m)) m). lia. Qed.

Lemma sum_values_touch k m : sum_values (touch k m) = sum_values m.
Proof.
  unfold touch. destruct (m !! k) eqn:Hk; [done |].
  by rewrite sum_values_insert_fresh.
Qed.

Lemma count_at_touch k k' m : count_at k' (touch k m) = count_at k' m.
Proof.
  unfold touch, count_at. destruct (m !! k) eqn:Hk; [done |].
  destruct (decide (k = k')) as [->|Hne].
  - by rewrite lookup_insert_eq, Hk.
  - by rewrite lookup_insert_ne.
Qed.

Lemma count_at_incr k k' m :
  count_at k' (incr k m) = if decide (k = k') then S (count_at k' m) else count_at k' m.
Proof.
  unfold incr, count_at. destruct (decide (k = k')) as [->|Hne].
  - by rewrite lookup_insert_eq.
  - by rewrite lookup_insert_ne.
Qed.

Lemma lookup_incr_is_Some k k' m :
  is_Some (incr k m !! k') -> k' = k \/ is_Some (m !! k').
Proof.
  unfold incr. destruct (decide (k = k')) as [->|Hne]; [by left |].
  rewrite lookup_insert_ne by done. by right.
Qed.

End counter_facts.

Lemma sum_values_touch_all {K : Type} `{Countable K} (ks : list K) (m : gmap K nat) :
  sum_values (generate_report_stats.touch_all ks m) = sum_values m.
Proof.
  induction ks as [|k ks IH]; simpl; [done |].
  by rewrite sum_values_touch.
Qed.

(** ** The [result] monad *)

Lemma bind_Ok_inv {A B : Type} (m : result A) (f : A -> result B) (b : B) :
  (x ← m; f x) = Ok b -> exists a, m = Ok a /\ f a = Ok b.
Proof. destruct m as [a|e]; simpl; [eauto | discriminate]. Qed.

(** Splits every bind of a hypothesis [H : ... = Ok _] into its steps. *)
Ltac bind_inv H :=
  repeat
    (let a := fresh "a" in
     let Ha := fresh "Ha" in
     apply bind_Ok_inv in H as (a & Ha & H)).

(** An invariant step of the loop body is an invariant of the loop. *)
Lemma for_each_invariant {S A : Type} (body : S -> A -> result S) (P : nat -> S -> S -> Prop) :
  (forall s, P 0 s s) ->
  (forall n s x s' s'', body s x = Ok s' -> P n s' s'' -> P (Datatypes.S n) s s'') ->
  forall l s s', for_each body l s = Ok s' -> P (length l) s s'.
Proof.
  intros H0 HS l. induction l as [|x l IH]; simpl; intros s s' Hrun.
  - injection Hrun as <-. apply H0.
  - apply bind_Ok_inv in Hrun as (s1 & Hx & Hrun). eauto.
Qed.

(** ** generate_report_stats.py: aggregation *)

Section report_stats_facts.
Import generate_report_stats.
Variable py_repr : pyval -> string.

(** One pass of the loop body counts the case once under its pearl level
    and once under its difficulty. *)
Lemma count_case_sums (st st' : stats) (c : case) :
  count_case py_repr st c = Ok st' ->
  total st' = total st
  /\ sum_values (pearl_level st') = S (sum_values (pearl_level st))
  /\ sum_values (difficulty st') = S (sum_values (difficulty st)).
Proof.
  unfold count_case. intros Hc.
  apply bind_Ok_inv in Hc as ([[[[pearl diff] lbl] trap] score] & _ & Hc).
  bind_inv Hc. injection Hc as <-. simpl.
  by rewrite !sum_values_incr.
Qed.

Lemma for_each_count_case_sums (cases : list case) (st st' : stats) :
  for_each (count_case py_repr) cases st = Ok st' ->
  total st' = total st
  /\ sum_values (pearl_level st') = length cases + sum_values (pearl_level st)
  /\ sum_values (difficulty st') = length cases + sum_values (difficulty st).
Proof.
  revert st st'.
  apply (for_each_invariant (count_case py_repr)
           (fun n s s' =>
              total s' = total s
              /\ sum_values (pearl_level s') = n + sum_values (pearl_level s)
              /\ sum_values (difficulty s') = n + sum_values (difficulty s))).
  - done.
  - intros n s x s' s'' Hx (Ht & Hp & Hd).
    apply count_case_sums in Hx as (Ht' & Hp' & Hd'). lia.
Qed.

Lemma calculate_stats_sums (cases : list case) (source_name : string) (st : stats) :
  calculate_stats py_repr cases source_name = Ok st ->
  total st = length cases
  /\ sum_values (pearl_level st) = total st
  /\ sum_values (difficulty st) = total st.
Proof.
  unfold calculate_stats. intros Hrun.
  apply for_each_count_case_sums in Hrun as (Ht & Hp & Hd).
  simpl in *. rewrite !sum_values_empty in *. lia.
Qed.

(** The verdict of the verification is [Consistent] exactly when the
    three numbers agree. *)
Lemma verification_spec (st : stats) :
  verification st = Consistent
  <-> total st = sum_values (pearl_level st)
      /\ sum_values (pearl_level st) = sum_values (difficulty st).
Proof.
  unfold verification.
  destruct (Nat.eqb_spec (total st) (sum_values (pearl_level st)));
    destruct (Nat.eqb_spec (sum_values (pearl_level st)) (sum_values (difficulty st)));
    simpl; split; intros; try discriminate; try done; tauto.
Qed.

(** The reads of [print_stats] and [generate_latex_tables] change no sum. *)
Lemma reads_keep_sums (st : stats) (name : string) :
  let st' := latex_reads (snd (print_stats st name)) in
  total st' = total st
  /\ sum_values (pearl_level st') = sum_values (pearl_level st)
  /\ sum_values (difficulty st') = sum_values (difficulty st).
Proof.
  unfold latex_reads, print_stats, print_stats_reads.
  cbn [snd total pearl_level difficulty].
  by rewrite !sum_values_touch_all.
Qed.

End report_stats_facts.

(** ** dataset_analysis.py: author buckets *)

Section author_bucket_facts.
Import dataset_analysis.
Implicit Types (by_author : gmap pkey (list pyval)) (qs : list pyval).

Lemma concat_snd_Permutation (l l' : list (pkey * list pyval)) :
  l ≡ₚ l' -> concat (map snd l) ≡ₚ concat (map snd l').
Proof.
  induction 1 as [|x l l' _ IH|x y l|l l' l'' _ IH1 _ IH2]; simpl.
  - done.
  - by rewrite IH.
  - rewrite !app_assoc. f_equiv. apply Permutation_app_comm.
  - by rewrite IH1.
Qed.

Lemma bucket_records_empty : bucket_records ∅ = [].
Proof. unfold bucket_records. by rewrite map_to_list_empty. Qed.

Lemma bucket_records_insert_fresh k qs by_author :
  by_author !! k = None ->
  bucket_records (<[k := qs]> by_author) ≡ₚ qs ++ bucket_records by_author.
Proof.
  intros Hk. unfold bucket_records.
  by rewrite (concat_snd_Permutation _ _ (map_to_list_insert by_author k qs Hk)).
Qed.

(** Extending a bucket adds the new records, once, to the bucketed records. *)
Lemma bucket_records_extend_at k qs by_author :
  bucket_records (extend_at k qs by_author) ≡ₚ bucket_records by_author ++ qs.
Proof.
  unfold extend_at. destruct (by_author !! k) as [old|] eqn:Hk; simpl.
  - rewrite <- insert_delete_eq.
    rewrite bucket_records_insert_fresh by apply lookup_delete_eq.
    unfold bucket_records at 2.
    rewrite <- (concat_snd_Permutation _ _ (map_to_list_delete by_author k old Hk)).
    simpl. fold (bucket_records (delete k by_author)).
    rewrite <- !app_assoc. f_equiv. apply Permutation_app_comm.
  - rewrite bucket_records_insert_fresh by done. apply Permutation_app_comm.
Qed.

(** The author counts add up to the number of bucketed records. *)
Lemma sum_author_counts by_author :
  sum_values (author_counts by_author) = length (bucket_records by_author).
Proof.
  unfold author_counts.
  induction by_author as [|k qs m Hk IH] using map_ind.
  - by rewrite fmap_empty, sum_values_empty, bucket_records_empty.
  - rewrite fmap_insert, sum_values_insert_fresh by (by rewrite lookup_fmap, Hk).
    rewrite (Permutation_length (bucket_records_insert_fresh k qs m Hk)).
    rewrite length_app. by rewrite IH.
Qed.

Lemma load_file_buckets all_questions by_author f all' by' :
  load_file (all_questions, by_author) f = Ok (all', by') ->
  bucket_records by_author ≡ₚ all_questions ->
  bucket_records by' ≡ₚ all'.
Proof.
  unfold load_file. intros Hf Hinv.
  destruct (is_combined f).
  - by injection Hf as <- <-.
  - bind_inv Hf. injection Hf as <- <-.
    rewrite bucket_records_extend_at. by rewrite Hinv.
Qed.

Lemma primary_pass_buckets files st st' :
  for_each load_file files st = Ok st' ->
  bucket_records (snd st) ≡ₚ fst st ->
  bucket_records (snd st') ≡ₚ fst st'.
Proof.
  revert st. induction files as [|f files IH]; simpl; intros st Hrun Hinv.
  - by injection Hrun as <-.
  - apply bind_Ok_inv in Hrun as ([all1 by1] & Hf & Hrun).
    destruct st as [all0 by0].
    apply (IH _ Hrun). simpl. eapply load_file_buckets; eauto.
Qed.

Lemma group_by_author_buckets qs by_author by' :
  for_each group_by_author qs by_author = Ok by' ->
  bucket_records by' ≡ₚ bucket_records by_author ++ qs.
Proof.
  revert by_author. induction qs as [|q qs IH]; simpl; intros by_author Hrun.
  - injection Hrun as <-. by rewrite app_nil_r.
  - apply bind_Ok_inv in Hrun as (by1 & Hq & Hrun).
    rewrite (IH _ Hrun).
    unfold group_by_author in Hq. destruct q; try discriminate.
    bind_inv Hq. injection Hq as <-.
    rewrite bucket_records_extend_at. by rewrite <- app_assoc.
Qed.

Lemma load_combined_buckets data_dir st st' :
  load_combined data_dir st = Ok st' ->
  bucket_records (snd st) ≡ₚ fst st ->
  bucket_records (snd st') ≡ₚ fst st'.
Proof.
  unfold load_combined. destruct st as [all0 by0]. intros Hrun Hinv.
  destruct all0 as [|q0 all0]; [| by injection Hrun as <-].
  destruct (glob_combined data_dir) as [|f fs]; [by injection Hrun as <- |].
  apply bind_Ok_inv in Hrun as (data & _ & Hrun).
  apply bind_Ok_inv in Hrun as (questions & _ & Hrun).
  apply bind_Ok_inv in Hrun as (qs & _ & Hrun).
  apply bind_Ok_inv in Hrun as (by1 & Hgroup & Hrun).
  injection Hrun as <-. simpl in *.
  rewrite (group_by_author_buckets _ _ _ Hgroup). by rewrite Hinv.
Qed.

End author_bucket_facts.

(** ** dataset_analysis.py: the order of the files and the primary pass *)

Section string_order.

Lemma ascii_compare_Lt (a b : ascii) :
  Ascii.compare a b = Lt <-> (N_of_ascii a < N_of_ascii b)%N.
Proof. unfold Ascii.compare. by rewrite N.compare_lt_iff. Qed.

Lemma ascii_compare_refl (a : ascii) : Ascii.compare a a = Eq.
Proof. unfold Ascii.compare. apply N.compare_refl. Qed.

Lemma string_compare_refl (s : string) : String.compare s s = Eq.
Proof. induction s as [|a s IH]; simpl; [done |]. by rewrite ascii_compare_refl. Qed.

Lemma string_compare_Lt_trans (s1 s2 s3 : string) :
  String.compare s1 s2 = Lt -> String.compare s2 s3 = Lt -> String.compare s1 s3 = Lt.
Proof.
  revert s2 s3. induction s1 as [|a s1 IH]; intros [|b s2] [|c s3]; simpl; try done.
  destruct (Ascii.compare a b) eqn:Hab; try done;
    destruct (Ascii.compare b c) eqn:Hbc; try done; intros H12 H23.
  - apply Ascii.compare_eq_iff in Hab as ->. rewrite Hbc. eauto.
  - apply Ascii.compare_eq_iff in Hab as ->. by rewrite Hbc.
  - apply Ascii.compare_eq_iff in Hbc as <-. by rewrite Hab.
  - pose proof (proj1 (ascii_compare_Lt _ _) Hab).
    pose proof (proj1 (ascii_compare_Lt _ _) Hbc).
    assert (Ascii.compare a c = Lt) as Hac by (apply ascii_compare_Lt; lia).
    by rewrite Hac.
Qed.

Lemma string_leb_iff (s1 s2 : string) :
  String.leb s1 s2 = true <-> String.compare s1 s2 = Lt \/ s1 = s2.
Proof.
  unfold String.leb. destruct (String.compare s1 s2) eqn:Hc.
  - apply String.compare_eq_iff in Hc. tauto.
  - tauto.
  - split; [done |]. intros [? | ->]; [done |]. by rewrite string_compare_refl in Hc.
Qed.

Lemma string_leb_trans (s1 s2 s3 : string) :
  String.leb s1 s2 = true -> String.leb s2 s3 = true -> String.leb s1 s3 = true.
Proof.
  rewrite !string_leb_iff. intros [H12 | ->] [H23 | ->]; eauto using string_compare_Lt_trans.
Qed.

End string_order.

Section primary_pass_facts.
Import dataset_analysis.
Implicit Types (f g : file) (l : list file).

Lemma Forall_filter_keep (Q P : file -> Prop) `{!forall f, Decision (P f)} l :
  Forall Q l -> Forall Q (filter P l).
Proof.
  rewrite !Forall_forall. intros HQ f Hf.
  apply list_elem_of_filter in Hf as [_ Hf]. auto.
Qed.

Lemma insert_sorted_least f l :
  Forall (name_le f) l -> insert_sorted f l = f :: l.
Proof. destruct 1 as [|g l Hg _]; simpl; [done |]. unfold name_le in Hg. by rewrite Hg. Qed.

Lemma insert_sorted_Forall (P : file -> Prop) f l :
  P f -> Forall P l -> Forall P (insert_sorted f l).
Proof.
  intros Hf. induction 1 as [|g l Hg Hl IH]; simpl; [by repeat constructor |].
  destruct (String.leb (name f) (name g)); by repeat constructor.
Qed.

Lemma sorted_Forall (P : file -> Prop) l : Forall P l -> Forall P (sorted l).
Proof.
  induction 1 as [|f l Hf _ IH]; simpl; [constructor |].
  by apply insert_sorted_Forall.
Qed.

Lemma insert_sorted_StronglySorted f l :
  StronglySorted name_le l -> StronglySorted name_le (insert_sorted f l).
Proof.
  induction 1 as [|g l Hl IH Hg]; simpl; [by repeat constructor |].
  destruct (String.leb (name f) (name g)) eqn:Hfg.
  - constructor; [by constructor |]. constructor; [done |].
    eapply Forall_impl; [exact Hg |]. intros h Hh. unfold name_le in *.
    eauto using string_leb_trans.
  - constructor; [done |]. apply insert_sorted_Forall; [| done].
    unfold name_le. destruct (String.leb_total (name f) (name g)); congruence.
Qed.

Lemma sorted_StronglySorted l : StronglySorted name_le (sorted l).
Proof.
  induction l as [|f l IH]; simpl; [constructor |].
  by apply insert_sorted_StronglySorted.
Qed.

(** Filtering commutes with the insertion into a sorted list. *)
Lemma filter_insert_sorted (P : file -> Prop) `{!forall f, Decision (P f)} f l :
  StronglySorted name_le l ->
  filter P (insert_sorted f l)
  = if decide (P f) then insert_sorted f (filter P l) else filter P l.
Proof.
  induction 1 as [|g l Hl IH Hg]; simpl.
  - rewrite filter_cons, filter_nil. by destruct (decide (P f)).
  - destruct (String.leb (name f) (name g)) eqn:Hfg.
    + rewrite (filter_cons _ f). destruct (decide (P f)); [| done].
      rewrite insert_sorted_least; [done |].
      apply Forall_filter_keep. constructor; [done |].
      eapply Forall_impl; [exact Hg |]. intros h Hh. unfold name_le in *.
      eauto using string_leb_trans.
    + rewrite !(filter_cons _ g). destruct (decide (P g)).
      * rewrite IH. destruct (decide (P f)); [| done]. simpl. by rewrite Hfg.
      * done.
Qed.

(** Sorting, being stable, commutes with filtering. *)
Lemma filter_sorted (P : file -> Prop) `{!forall f, Decision (P f)} l :
  filter P (sorted l) = sorted (filter P l).
Proof.
  induction l as [|f l IH]; simpl; [done |].
  rewrite filter_insert_sorted by apply sorted_StronglySorted.
  rewrite filter_cons. destruct (decide (P f)); simpl; by rewrite IH.
Qed.

End primary_pass_facts.

Section dedup_facts.
Import dataset_analysis.
Implicit Types (f : file) (data_dir files : list file).

Lemma load_file_combined f st : is_combined f = true -> load_file st f = Ok st.
Proof. intros Hf. unfold load_file. destruct st. by rewrite Hf. Qed.

(** The primary loop passes over the combined files. *)
Lemma primary_pass_skips_combined files st :
  for_each load_file files st = for_each load_file (per_author_files files) st.
Proof.
  unfold per_author_files.
  revert st. induction files as [|f files IH]; intros st; [done |].
  rewrite filter_cons. destruct (decide (is_combined f = false)) as [Hf|Hf];
    cbn [for_each].
  - destruct (load_file st f); simpl; [apply IH | done].
  - apply not_false_is_true in Hf. rewrite (load_file_combined f st Hf). apply IH.
Qed.

Lemma prefix_lower (p s : string) :
  lower p = p -> String.prefix p s = true -> String.prefix p (lower s) = true.
Proof.
  revert s. induction p as [|a p IH]; intros [|b s]; simpl; try done.
  intros Hp. injection Hp as Ha Hp.
  destruct (ascii_dec a b) as [<-|]; [| done].
  rewrite Ha. destruct (ascii_dec a a); [| done]. by apply IH.
Qed.

Lemma prefix_contains (p s : string) : String.prefix p s = true -> contains p s = true.
Proof. destruct s; simpl; intros ->; done. Qed.

(** A file that [glob("combined*.json")] finds is one the primary pass skips. *)
Lemma glob_combined_is_combined f :
  String.prefix "combined" (name f) && ends_with ".json" (name f) = true ->
  is_combined f = true.
Proof.
  intros [Hp _]%andb_prop. unfold is_combined.
  by apply prefix_contains, prefix_lower.
Qed.

Lemma glob_combined_per_author data_dir : glob_combined (per_author_files data_dir) = [].
Proof.
  unfold glob_combined, per_author_files.
  induction data_dir as [|f data_dir IH]; [done |].
  rewrite (filter_cons _ f). destruct (decide (is_combined f = false)) as [Hf|Hf]; [| done].
  rewrite filter_cons. destruct (decide _) as [Hg|Hg]; [| done].
  apply glob_combined_is_combined in Hg. congruence.
Qed.

Lemma glob_json_per_author data_dir :
  glob_json (per_author_files data_dir) = per_author_files (glob_json data_dir).
Proof.
  unfold glob_json, per_author_files. rewrite !list_filter_filter.
  apply list_filter_iff. tauto.
Qed.

(** The primary pass reads the same files, in the same order, with or
    without the combined files in the directory. *)
Lemma primary_pass_per_author data_dir st :
  for_each load_file (sorted (glob_json (per_author_files data_dir))) st
  = for_each load_file (sorted (glob_json data_dir)) st.
Proof.
  rewrite glob_json_per_author.
  rewrite (primary_pass_skips_combined (sorted (glob_json data_dir))).
  unfold per_author_files. by rewrite filter_sorted.
Qed.

End dedup_facts.

(** ** generate_report_stats.py: fields, scores, traps and percentages *)

Section report_fields_facts.
Import generate_report_stats.
Variable py_repr : pyval -> string.

(** [a or b] is [a] exactly when [a] is truthy. *)
Lemma py_or_truthy (a b : pyval) : truthy a = true -> py_or a b = a.
Proof. unfold py_or. by intros ->. Qed.

Lemma py_or_falsy (a b : pyval) : truthy a = false -> py_or a b = b.
Proof. unfold py_or. by intros ->. Qed.

(** A number that is not [None] has one score range, found by the chain
    of comparisons in its order. *)
Lemma score_range_number (q : Q) :
  score_range (PNum q) =
  Ok (if Qeq_bool q 10 then "10.0"
      else if Qle_bool 9 q then "9.0-9.9"
      else if Qle_bool 8 q then "8.0-8.9"
      else if Qle_bool 6 q then "6.0-7.9"
      else "<6.0").
Proof.
  unfold score_range, eq_num, ge_num. simpl.
  destruct (Qeq_bool q 10); [done |].
  destruct (Qle_bool 9 q); simpl; [done |].
  destruct (Qle_bool 8 q); simpl; [done |].
  by destruct (Qle_bool 6 q).
Qed.

Lemma score_range_in_range_names (q : Q) :
  exists r, score_range (PNum q) = Ok r /\ r ∈ range_names.
Proof.
  rewrite score_range_number. eexists; split; [done |].
  unfold range_names.
  destruct (Qeq_bool q 10); [set_solver |].
  destruct (Qle_bool 9 q); [set_solver |].
  destruct (Qle_bool 8 q); [set_solver |].
  destruct (Qle_bool 6 q); set_solver.
Qed.

(** The bounds of the five ranges, for a score of at most 10. *)
Lemma score_range_bounds (q : Q) (r : string) :
  (q <= 10)%Q ->
  score_range (PNum q) = Ok r ->
  (r = "10.0" /\ q == 10)%Q
  \/ (r = "9.0-9.9" /\ 9 <= q /\ q < 10)%Q
  \/ (r = "8.0-8.9" /\ 8 <= q /\ q < 9)%Q
  \/ (r = "6.0-7.9" /\ 6 <= q /\ q < 8)%Q
  \/ (r = "<6.0" /\ q < 6)%Q.
Proof.
  intros Hle. rewrite score_range_number. intros Hr. injection Hr as <-.
  destruct (Qeq_bool q 10) eqn:H10.
  { left. split; [done |]. by apply Qeq_bool_iff. }
  assert (~ q == 10)%Q as Hne by (intros Heq%Qeq_bool_iff; congruence).
  assert (q < 10)%Q as Hlt by (apply Qle_lteq in Hle as [|]; tauto).
  right. destruct (Qle_bool 9 q) eqn:H9.
  { left. apply Qle_bool_iff in H9. done. }
  assert (q < 9)%Q by (apply Qnot_le_lt; intros ?%Qle_bool_iff; congruence).
  right. destruct (Qle_bool 8 q) eqn:H8.
  { left. apply Qle_bool_iff in H8. done. }
  assert (q < 8)%Q by (apply Qnot_le_lt; intros ?%Qle_bool_iff; congruence).
  right. destruct (Qle_bool 6 q) eqn:H6.
  { left. apply Qle_bool_iff in H6. done. }
  right. split; [done |]. apply Qnot_le_lt; intros ?%Qle_bool_iff; congruence.
Qed.

(** The trap tally of one pass of the loop body is a function of the
    trap value alone. *)
Lemma count_case_trap (st st' : stats) (c : case) :
  count_case py_repr st c = Ok st' ->
  count_trap py_repr (trap_prefix st) (case_trap c) = Ok (trap_prefix st').
Proof.
  unfold count_case, case_trap. intros Hc.
  apply bind_Ok_inv in Hc as ([[[[pearl diff] lbl] trap] score] & -> & Hc).
  apply bind_Ok_inv in Hc as (kp & _ & Hc).
  apply bind_Ok_inv in Hc as (bl & _ & Hc).
  apply bind_Ok_inv in Hc as (kl & _ & Hc).
  apply bind_Ok_inv in Hc as (tp & Htrap & Hc).
  apply bind_Ok_inv in Hc as (sr & _ & Hc).
  injection Hc as <-. by simpl.
Qed.

Lemma for_each_count_case_trap (cases : list case) (st st' : stats) :
  for_each (count_case py_repr) cases st = Ok st' ->
  for_each (count_trap py_repr) (map case_trap cases) (trap_prefix st)
  = Ok (trap_prefix st').
Proof.
  revert st. induction cases as [|c cases IH]; simpl; intros st Hrun.
  - by injection Hrun as <-.
  - apply bind_Ok_inv in Hrun as (st1 & Hc & Hrun).
    rewrite (count_case_trap _ _ _ Hc). simpl. by apply IH.
Qed.

(** The guarded percentage. *)
Lemma guarded_pct_zero (count : nat) : guarded_pct count 0 = 0%Q.
Proof. done. Qed.

Lemma guarded_pct_pos (count total : nat) :
  total <> 0 -> guarded_pct count total = (Qnat count / Qnat total * 100)%Q.
Proof. unfold guarded_pct. destruct total; [done | by intros _]. Qed.

Lemma pearl_level_row_zero_total (unval_stats val_stats final_stats : stats) (level : string) :
  total unval_stats = 0 \/ total val_stats = 0 \/ total final_stats = 0 ->
  pearl_level_row unval_stats val_stats final_stats level = Raise ZeroDivisionError.
Proof.
  intros Hz. unfold pearl_level_row, unguarded_pct.
  destruct (total unval_stats) as [|u]; [reflexivity |].
  destruct (total val_stats) as [|v]; [reflexivity |].
  destruct (total final_stats) as [|f]; [reflexivity |].
  lia.
Qed.

(** A stage without a case makes the LaTeX tables divide by zero. *)
Lemma generate_latex_tables_zero_total (unval_stats val_stats final_stats : stats) :
  total unval_stats = 0 \/ total val_stats = 0 \/ total final_stats = 0 ->
  generate_latex_tables unval_stats val_stats final_stats = Raise ZeroDivisionError.
Proof.
  intros Hz. unfold generate_latex_tables, levels. cbn [map_result].
  by rewrite (pearl_level_row_zero_total _ _ _ "L1" Hz).
Qed.

End report_fields_facts.

(** ** generate_report_stats.py: runs that return *)

Section report_returns_facts.
Import generate_report_stats.
Variable py_repr : pyval -> string.

Lemma score_range_returns (score : pyval) (q : Q) :
  as_number score = Some q -> exists r, score_range score = Ok r.
Proof.
  intros Hq. unfold score_range, eq_num, ge_num. rewrite Hq. simpl.
  destruct (Qeq_bool q 10); [eauto |].
  destruct (Qle_bool 9 q); [eauto |].
  destruct (Qle_bool 8 q); [eauto |].
  destruct (Qle_bool 6 q); eauto.
Qed.

Lemma count_score_returns (score : pyval) (m : gmap string nat) :
  score = PNone \/ (exists q, as_number score = Some q) ->
  exists m', count_score score m = Ok m'.
Proof.
  intros [-> | (q & Hq)]; simpl; [eauto |].
  destruct (score_range_returns score q Hq) as (r & Hr).
  unfold count_score. destruct score; try done; rewrite Hr; simpl; eauto.
Qed.

Lemma count_trap_returns (trap : pyval) (m : gmap string nat) :
  (truthy trap = true -> exists s, trap = PStr s) ->
  exists m', count_trap py_repr m trap = Ok m'.
Proof.
  intros Htrap. unfold count_trap. destruct (truthy trap); [| eauto].
  destruct Htrap as (s & ->); [done |].
  unfold trap_prefix_of. destruct (contains ":" _); simpl; eauto.
Qed.

(** The loop body returns on a usual case. *)
Lemma count_case_returns (st : stats) (c : case) :
  usual_case c -> exists st', count_case py_repr st c = Ok st'.
Proof.
  intros ([[[[pearl diff] lbl] trap] score] & Hf & Hpearl & (kl & Hkl) & Htrap & Hscore).
  unfold count_case. rewrite Hf. simpl.
  destruct (count_trap_returns trap (trap_prefix st) Htrap) as (tp & ->).
  destruct (count_score_returns score (score_ranges st) Hscore) as (sr & ->).
  rewrite Hkl.
  destruct Hpearl as [-> | [-> | ->]]; simpl; eauto.
Qed.

Lemma for_each_count_case_returns (cases : list case) (st : stats) :
  Forall usual_case cases -> exists st', for_each (count_case py_repr) cases st = Ok st'.
Proof.
  intros Hcases. revert st. induction Hcases as [|c cases Hc _ IH]; intros st; simpl.
  - eauto.
  - destruct (count_case_returns st c Hc) as (st1 & ->). apply IH.
Qed.

(** [calculate_stats] returns on usual cases. *)
Lemma calculate_stats_returns (cases : list case) (source_name : string) :
  Forall usual_case cases -> exists st, calculate_stats py_repr cases source_name = Ok st.
Proof. apply for_each_count_case_returns. Qed.

Lemma validated_cases_returns (db_cases : list row) :
  Forall (fun r => usual_case (RowCase r)) db_cases ->
  exists validated,
    validated_cases db_cases = Ok validated
    /\ Forall (fun r => usual_case (RowCase r)) validated.
Proof.
  induction 1 as [|c rest Hc _ (validated & Hv & Hu)]; simpl; [eauto |].
  rewrite Hv.
  assert (exists keep : bool,
            match col_finalScore c with PNone => Ok false | s => ge_num s 8 end = Ok keep)
    as (keep & ->).
  { destruct Hc as (f & [= <-] & _ & _ & _ & [Hs | (q & Hq)]).
    - rewrite Hs. eauto.
    - unfold ge_num. destruct (col_finalScore c); try done; simpl; eauto. }
  simpl. destruct keep; eauto.
Qed.

Lemma unguarded_pct_pos (count total : nat) :
  total <> 0 -> unguarded_pct count total = Ok (Qnat count / Qnat total * 100)%Q.
Proof. unfold unguarded_pct. destruct total; [done | by intros _]. Qed.

Lemma map_result_returns {A B : Type} (body : A -> result B) (l : list A) :
  (forall x, exists y, body x = Ok y) -> exists ys, map_result body l = Ok ys.
Proof.
  intros Hbody. induction l as [|x l (ys & IH)]; simpl; [eauto |].
  destruct (Hbody x) as (y & ->). rewrite IH. simpl. eauto.
Qed.

(** With a case in every stage a LaTeX row holds [count / total * 100]. *)
Lemma pearl_level_row_pos (unval_stats val_stats final_stats : stats) (level : string) :
  total unval_stats <> 0 -> total val_stats <> 0 -> total final_stats <> 0 ->
  exists r,
    pearl_level_row unval_stats val_stats final_stats level = Ok r
    /\ unval_pct r = (Qnat (unval_count r) / Qnat (total unval_stats) * 100)%Q
    /\ val_pct r = (Qnat (val_count r) / Qnat (total val_stats) * 100)%Q
    /\ final_pct r = Some (Qnat (final_count r) / Qnat (total final_stats) * 100)%Q.
Proof.
  intros Hu Hv Hf. unfold pearl_level_row.
  rewrite !unguarded_pct_pos by done. simpl. eauto.
Qed.

Lemma difficulty_row_pos (unval_stats val_stats final_stats : stats) (diff : string) :
  total unval_stats <> 0 -> total val_stats <> 0 ->
  exists r,
    difficulty_row unval_stats val_stats final_stats diff = Ok r
    /\ unval_pct r = (Qnat (unval_count r) / Qnat (total unval_stats) * 100)%Q
    /\ val_pct r = (Qnat (val_count r) / Qnat (total val_stats) * 100)%Q.
Proof.
  intros Hu Hv. unfold difficulty_row.
  rewrite !unguarded_pct_pos by done. simpl. eauto.
Qed.

(** With a case in every stage the LaTeX tables are produced. *)
Lemma generate_latex_tables_returns (unval_stats val_stats final_stats : stats) :
  total unval_stats <> 0 -> total val_stats <> 0 -> total final_stats <> 0 ->
  exists tables, generate_latex_tables unval_stats val_stats final_stats = Ok tables.
Proof.
  intros Hu Hv Hf. unfold generate_latex_tables.
  destruct (map_result_returns (pearl_level_row unval_stats val_stats final_stats) levels)
    as (t1 & ->).
  { intros level.
    destruct (pearl_level_row_pos unval_stats val_stats final_stats level) as (r & -> & _);
      eauto. }
  destruct (map_result_returns (difficulty_row unval_stats val_stats final_stats) difficulties)
    as (t2 & ->).
  { intros diff.
    destruct (difficulty_row_pos unval_stats val_stats final_stats diff) as (r & -> & _);
      eauto. }
  simpl. eauto.
Qed.

(** Whenever [main] returns, its verification has found the totals
    consistent. *)
Lemma main_verified (db_cases : list row) (export_cases : list pyval) (rep : report) :
  main py_repr db_cases export_cases = Ok rep ->
  verified rep = Consistent /\ unval_total rep = length db_cases.
Proof.
  unfold main. intros Hrun.
  apply bind_Ok_inv in Hrun as (unval_stats & Hunval & Hrun).
  apply bind_Ok_inv in Hrun as (validated & _ & Hrun).
  apply bind_Ok_inv in Hrun as (val_stats & _ & Hrun).
  apply bind_Ok_inv in Hrun as (final_stats & _ & Hrun).
  unfold print_stats in Hrun.
  apply bind_Ok_inv in Hrun as (tables & _ & Hrun).
  injection Hrun as <-. cbn [verified unval_total].
  apply (calculate_stats_sums py_repr) in Hunval as (Ht & Hp & Hd).
  rewrite length_map in Ht.
  pose proof (reads_keep_sums unval_stats "UNVALIDATED POOL (Database)") as Hreads.
  unfold print_stats in Hreads. cbn [snd] in Hreads. destruct Hreads as (Ht' & Hp' & Hd').
  split; [| congruence].
  apply verification_spec. split; congruence.
Qed.

(** [main] returns on usual cases when no stage is empty. *)
Lemma main_returns (db_cases validated : list row) (export_cases : list pyval) :
  Forall (fun r => usual_case (RowCase r)) db_cases ->
  Forall (fun v => usual_case (JsonCase v)) export_cases ->
  validated_cases db_cases = Ok validated ->
  db_cases <> [] -> validated <> [] -> export_cases <> [] ->
  exists rep, main py_repr db_cases export_cases = Ok rep.
Proof.
  intros Hdb Hexport Hval Hdb0 Hval0 Hexport0. unfold main.
  destruct (validated_cases_returns db_cases Hdb) as (validated' & Hval' & Hvalidated).
  assert (validated' = validated) as -> by congruence.
  destruct (calculate_stats_returns (map RowCase db_cases) "Unvalidated") as (st_u & Hu).
  { by apply Forall_fmap. }
  destruct (calculate_stats_returns (map RowCase validated) "Validated (score >= 8)")
    as (st_v & Hv).
  { by apply Forall_fmap. }
  destruct (calculate_stats_returns (map JsonCase export_cases) "Final Export")
    as (st_f & Hf).
  { by apply Forall_fmap. }
  rewrite Hu, Hval. simpl. rewrite Hv. simpl. rewrite Hf. simpl.
  apply (calculate_stats_sums py_repr) in Hu as (Htu & _).
  apply (calculate_stats_sums py_repr) in Hv as (Htv & _).
  apply (calculate_stats_sums py_repr) in Hf as (Htf & _).
  rewrite length_map in Htu, Htv, Htf.
  destruct (generate_latex_tables_returns (print_stats_reads st_u) (print_stats_reads st_v)
              (print_stats_reads st_f)) as (tables & ->).
  - cbn [print_stats_reads total]. rewrite Htu. by destruct db_cases.
  - cbn [print_stats_reads total]. rewrite Htv. by destruct validated.
  - cbn [print_stats_reads total]. rewrite Htf. by destruct export_cases.
  - simpl. eauto.
Qed.

End report_returns_facts.

(** ** dataset_analysis.py: normalisation *)

Section normalisation_facts.
Import dataset_analysis.
Variable py_repr : pyval -> string.

Lemma is_space_lower_ascii (c : ascii) : is_space (lower_ascii c) = is_space c.
Proof. by destruct c as [[] [] [] [] [] [] [] []]. Qed.

Lemma lower_empty_iff (s : string) : lower s = "" <-> s = "".
Proof. by destruct s. Qed.

Lemma lower_lstrip (s : string) : lower (lstrip s) = lstrip (lower s).
Proof.
  induction s as [|c s IH]; simpl; [done |].
  rewrite is_space_lower_ascii. by destruct (is_space c).
Qed.

Lemma lower_rstrip (s : string) : lower (rstrip s) = rstrip (lower s).
Proof.
  induction s as [|c s IH]; simpl; [done |].
  rewrite <- IH, is_space_lower_ascii.
  destruct (rstrip s) as [|d r]; simpl; [by destruct (is_space c) | done].
Qed.

(** Stripping and lower-casing commute. *)
Lemma lower_strip (s : string) : lower (strip s) = strip (lower s).
Proof. unfold strip. by rewrite lower_rstrip, lower_lstrip. Qed.

(** The four values of [_norm_difficulty]. *)
Lemma _norm_difficulty_range (x : pyval) :
  _norm_difficulty py_repr x ∈ ["EASY"; "MEDIUM"; "HARD"; "UNKNOWN"].
Proof.
  unfold _norm_difficulty.
  repeat match goal with |- context [if ?b then _ else _] => destruct b end;
    set_solver.
Qed.

(** [_norm_difficulty] decides on the stripped, lower-cased text. *)
Lemma _norm_difficulty_table (x : pyval) :
  let s := lower (_norm_str py_repr x) in
  (s ∈ ["easy"; "e"] -> _norm_difficulty py_repr x = "EASY")
  /\ (s ∈ ["medium"; "med"; "m"] -> _norm_difficulty py_repr x = "MEDIUM")
  /\ (s ∈ ["hard"; "h"] -> _norm_difficulty py_repr x = "HARD")
  /\ (s ∉ ["easy"; "e"; "medium"; "med"; "m"; "hard"; "h"] ->
      _norm_difficulty py_repr x = "UNKNOWN").
Proof.
  intros s. unfold _norm_difficulty. fold s. clearbody s.
  repeat split.
  - rewrite !elem_of_cons, elem_of_nil. by intros [-> | [-> | []]].
  - rewrite !elem_of_cons, elem_of_nil. by intros [-> | [-> | [-> | []]]].
  - rewrite !elem_of_cons, elem_of_nil. by intros [-> | [-> | []]].
  - rewrite !not_elem_of_cons. intros (? & ? & ? & ? & ? & ? & ? & _).
    repeat match goal with
           | |- context [String.eqb s ?t] => destruct (String.eqb_spec s t); [done |]
           end.
    done.
Qed.

Lemma _norm_difficulty_case_insensitive (s t : string) :
  lower s = lower t ->
  _norm_difficulty py_repr (PStr s) = _norm_difficulty py_repr (PStr t).
Proof.
  intros Hst. unfold _norm_difficulty, _norm_str.
  by rewrite !lower_strip, Hst.
Qed.

Lemma _norm_difficulty_idempotent (x : pyval) :
  _norm_difficulty py_repr (PStr (_norm_difficulty py_repr x))
  = _norm_difficulty py_repr x.
Proof.
  pose proof (_norm_difficulty_range x) as Hr.
  repeat (apply elem_of_cons in Hr as [-> | Hr]; [reflexivity |]).
  by apply elem_of_nil in Hr.
Qed.

(** The difficulty counts of dataset_analysis count every record once,
    under one of the four normalised values. *)
Lemma diff_counts_keys (all_questions : list pyval) (k : string) :
  is_Some (diff_counts py_repr all_questions !! k) ->
  k ∈ ["EASY"; "MEDIUM"; "HARD"; "UNKNOWN"].
Proof.
  unfold diff_counts.
  assert (forall m : gmap string nat,
            (forall k, is_Some (m !! k) -> k ∈ ["EASY"; "MEDIUM"; "HARD"; "UNKNOWN"]) ->
            is_Some (foldl (fun m q =>
                              incr (_norm_difficulty py_repr
                                      (_get q ["annotations"; "difficulty"] PNone)) m)
                           m all_questions !! k) ->
            k ∈ ["EASY"; "MEDIUM"; "HARD"; "UNKNOWN"]) as Hgen.
  { induction all_questions as [|q qs IH]; simpl; intros m Hm; [apply Hm |].
    apply IH. intros k' [-> | Hk']%lookup_incr_is_Some; [| by apply Hm].
    apply _norm_difficulty_range. }
  apply Hgen. intros k' Hk'. rewrite lookup_empty in Hk'. by destruct Hk'.
Qed.

Lemma diff_counts_sum (all_questions : list pyval) :
  sum_values (diff_counts py_repr all_questions) = length all_questions.
Proof.
  unfold diff_counts.
  assert (forall m : gmap string nat,
            sum_values (foldl (fun m q =>
                                 incr (_norm_difficulty py_repr
                                         (_get q ["annotations"; "difficulty"] PNone)) m)
                              m all_questions)
            = length all_questions + sum_values m) as Hgen.
  { induction all_questions as [|q qs IH]; simpl; intros m; [done |].
    rewrite IH, sum_values_incr. lia. }
  rewrite Hgen, sum_values_empty. lia.
Qed.

End normalisation_facts.

Section report_difficulty_facts.
Import generate_report_stats.

Lemma diff_normalized_range (diff : pyval) :
  diff_normalized diff ∈ ["Easy"; "Medium"; "Hard"; "Unknown"].
Proof.
  destruct diff as [| | |s| |]; simpl; try set_solver.
  destruct (String.eqb_spec s "Easy") as [->|]; [set_solver |].
  destruct (String.eqb_spec s "Medium") as [->|]; [set_solver |].
  destruct (String.eqb_spec s "Hard") as [->|]; set_solver.
Qed.

(** The difficulty of [calculate_stats] is kept only when it is exactly
    one of the three spellings. *)
Lemma diff_normalized_exact (diff : pyval) (d : string) :
  d ∈ ["Easy"; "Medium"; "Hard"] ->
  diff_normalized diff = d <-> diff = PStr d.
Proof.
  rewrite !elem_of_cons, elem_of_nil.
  intros [-> | [-> | [-> | []]]]; (split; [| by intros ->]);
    destruct diff as [| | |s| |]; simpl; try done;
    destruct (String.eqb_spec s "Easy") as [->|]; simpl; try done;
    destruct (String.eqb_spec s "Medium") as [->|]; simpl; try done;
    destruct (String.eqb_spec s "Hard") as [->|]; simpl; try done;
    by intros ->.
Qed.

Lemma diff_normalized_idempotent (diff : pyval) :
  diff_normalized (PStr (diff_normalized diff)) = diff_normalized diff.
Proof.
  pose proof (diff_normalized_range diff) as Hr.
  repeat (apply elem_of_cons in Hr as [-> | Hr]; [reflexivity |]).
  by apply elem_of_nil in Hr.
Qed.

(** [calculate_stats] counts difficulties under the four values of its
    normalisation. *)
Lemma calculate_stats_difficulty_keys
    (py_repr : pyval -> string) (cases : list case) (source_name : string)
    (st : stats) (k : string) :
  calculate_stats py_repr cases source_name = Ok st ->
  is_Some (difficulty st !! k) ->
  k ∈ ["Easy"; "Medium"; "Hard"; "Unknown"].
Proof.
  unfold calculate_stats.
  assert (forall st0 : stats,
            (forall k, is_Some (difficulty st0 !! k) ->
                       k ∈ ["Easy"; "Medium"; "Hard"; "Unknown"]) ->
            for_each (count_case py_repr) cases st0 = Ok st ->
            is_Some (difficulty st !! k) ->
            k ∈ ["Easy"; "Medium"; "Hard"; "Unknown"]) as Hgen.
  { induction cases as [|c cases IH]; simpl; intros st0 Hst0 Hrun.
    - injection Hrun as <-. apply Hst0.
    - apply bind_Ok_inv in Hrun as (st1 & Hc & Hrun).
      apply (IH st1); [| done].
      unfold count_case in Hc.
      apply bind_Ok_inv in Hc as ([[[[pearl diff] lbl] trap] score] & _ & Hc).
      bind_inv Hc. injection Hc as <-. simpl.
      intros k' [-> | Hk']%lookup_incr_is_Some; [| by apply Hst0].
      apply diff_normalized_range. }
  apply Hgen. intros k' Hk'. simpl in Hk'. rewrite lookup_empty in Hk'. by destruct Hk'.
Qed.

End report_difficulty_facts.

(** ** dataset_analysis.py: shapes of the files and the NO cases *)

Section loader_shape_facts.
Import dataset_analysis.
Implicit Types (f : file) (data_dir : list file) (records : list pyval).

(** The primary pass takes a bare array and an object with a [questions]
    array alike. *)
Lemma load_file_both_shapes f st records :
  is_combined f = false ->
  file_records f records ->
  load_file st f
  = Ok (fst st ++ records, extend_at (KStr (author_key f)) records (snd st)).
Proof.
  intros Hf Hshape. unfold load_file, json_load. destruct st as [all_questions by_author].
  rewrite Hf. destruct Hshape as [-> | (d & -> & Hq)]; simpl; [done |].
  by rewrite Hq.
Qed.

Lemma primary_pass_returns (files : list file) st :
  Forall (fun f => is_combined f = false -> exists records, file_records f records) files ->
  exists st', for_each load_file files st = Ok st'.
Proof.
  intros Hfiles. revert st. induction Hfiles as [|f files Hf _ IH]; intros st; simpl.
  - eauto.
  - destruct (is_combined f) eqn:Hc.
    + rewrite (load_file_combined f st Hc). apply IH.
    + destruct Hf as (records & Hrecords); [done |].
      rewrite (load_file_both_shapes f st records Hc Hrecords). apply IH.
Qed.

Lemma group_by_author_returns records by_author :
  Forall usual_record records ->
  exists by_author', for_each group_by_author records by_author = Ok by_author'.
Proof.
  intros Hrecords. revert by_author.
  induction Hrecords as [|q records (d & k & -> & Hk) _ IH]; intros by_author; simpl.
  - eauto.
  - rewrite Hk. simpl. apply IH.
Qed.

(** The fallback pass takes a combined file in the object shape. *)
Lemma load_combined_object_returns data_dir f rest records by_author :
  glob_combined data_dir = f :: rest ->
  object_records f records ->
  Forall usual_record records ->
  exists by_author',
    load_combined data_dir ([], by_author) = Ok (records, by_author').
Proof.
  intros Hg (d & Hc & Hq) Hrecords. unfold load_combined, json_load.
  rewrite Hg, Hc. simpl. rewrite Hq. simpl.
  destruct (group_by_author_returns records by_author Hrecords) as (by' & ->).
  simpl. eauto.
Qed.

(** [_load_questions] returns on a directory whose per-author files have
    one of the two shapes and whose first combined file, should the
    fallback need it, has the object shape. *)
Lemma _load_questions_returns data_dir :
  Forall (fun f => is_combined f = false -> exists records, file_records f records)
         data_dir ->
  (forall f rest, glob_combined data_dir = f :: rest ->
                  exists records, object_records f records /\ Forall usual_record records) ->
  exists r, _load_questions data_dir = Ok r.
Proof.
  intros Hfiles Hcombined. unfold _load_questions.
  destruct (primary_pass_returns (sorted (glob_json data_dir)) ([], ∅)) as ([all0 by0] & ->).
  { apply sorted_Forall. unfold glob_json. by apply Forall_filter_keep. }
  simpl. destruct all0 as [|q all0]; [| eauto].
  destruct (glob_combined data_dir) as [|f rest] eqn:Hg; [eauto |].
  destruct (Hcombined f rest eq_refl) as (records & Hobj & Hrecords).
  destruct (load_combined_object_returns data_dir f rest records by0 Hg Hobj Hrecords)
    as (by' & Hrun).
  unfold load_combined in Hrun. rewrite Hg in Hrun. rewrite Hrun. eauto.
Qed.

(** The fallback pass asks the content of the combined file for
    [.get("questions")], which a bare array does not have. *)
Lemma load_combined_array_raises data_dir f rest records by_author :
  glob_combined data_dir = f :: rest ->
  content f = Some (PList records) ->
  load_combined data_dir ([], by_author) = Raise AttributeError.
Proof. intros Hg Hc. unfold load_combined, json_load. by rewrite Hg, Hc. Qed.

(** Without any per-author record the fallback pass runs; a combined file
    in the object shape that holds no record either leaves the result of
    the per-author files as it is. *)
Lemma combined_file_without_records data_dir by_author :
  _load_questions (per_author_files data_dir) = Ok ([], by_author) ->
  glob_combined data_dir = []
  \/ (exists f rest, glob_combined data_dir = f :: rest /\ object_records f []) ->
  _load_questions data_dir = Ok ([], by_author).
Proof.
  unfold _load_questions. intros Hrun Hcombined.
  apply bind_Ok_inv in Hrun as ([all0 by0] & Hprimary & Hfallback).
  rewrite primary_pass_per_author in Hprimary. rewrite Hprimary. simpl.
  unfold load_combined in Hfallback.
  rewrite glob_combined_per_author in Hfallback.
  destruct all0 as [|q all0]; [| discriminate].
  injection Hfallback as <-.
  destruct Hcombined as [-> | (f & rest & -> & d & Hc & Hq)]; [done |].
  unfold json_load. rewrite Hc. simpl. by rewrite Hq.
Qed.

(** A record whose ground truth is not NO is not among the NO cases. *)
Lemma no_cases_skip (l1 l2 : list pyval) (d : list (string * pyval)) :
  eq_str (dict_get d "groundTruth" PNone) "NO" = false ->
  no_cases (l1 ++ PDict d :: l2) = no_cases (l1 ++ l2).
Proof.
  intros Hgt. induction l1 as [|q l1 IH]; simpl.
  - rewrite Hgt. by destruct (no_cases l2).
  - destruct q; try done. by rewrite IH.
Qed.

End loader_shape_facts.

Section canonical_key_facts.
Import generate_report_stats.

(** In a case of the export, a truthy value under the canonical key is
    the value of the field. *)
Lemma canonical_key_first (d : list (string * pyval)) (pearl diff lbl trap score : pyval) :
  case_fields (JsonCase (PDict d)) = Ok (pearl, diff, lbl, trap, score) ->
  (truthy (dict_get d "pearlLevel" PNone) = true -> pearl = dict_get d "pearlLevel" PNone)
  /\ (truthy (dict_get d "groundTruth" PNone) = true -> lbl = dict_get d "groundTruth" PNone)
  /\ (truthy (dict_get d "trapType" PNone) = true -> trap = dict_get d "trapType" PNone)
  /\ (truthy (dict_get d "finalScore" PNone) = true -> score = dict_get d "finalScore" PNone).
Proof.
  simpl. intros [= <- <- <- <- <-].
  repeat split; intros Ht; by rewrite py_or_truthy.
Qed.

(** Without a truthy value under the canonical key, the alternate key is
    read, and for the trap the nested [trap.type]. *)
Lemma alternate_key_second (d : list (string * pyval)) (pearl diff lbl trap score : pyval) :
  case_fields (JsonCase (PDict d)) = Ok (pearl, diff, lbl, trap, score) ->
  (truthy (dict_get d "pearlLevel" PNone) = false -> pearl = dict_get d "pearl_level" PNone)
  /\ (truthy (dict_get d "groundTruth" PNone) = false -> lbl = dict_get d "label" PNone)
  /\ (truthy (dict_get d "trapType" PNone) = false ->
      trap = match dict_get d "trap" (PDict []) with
             | PDict t => dict_get t "type" (PStr "")
             | _ => PStr ""
             end)
  /\ (truthy (dict_get d "finalScore" PNone) = false -> score = dict_get d "final_score" PNone).
Proof.
  simpl. intros [= <- <- <- <- <-].
  repeat split; intros Ht; by rewrite py_or_falsy.
Qed.

End canonical_key_facts.

(** * The claims *)

Import generate_report_stats dataset_analysis.

(** C1: the LaTeX rows divide by the stage totals without the guard of
    the stage tables.  On a store whose only row is scored below 8 the
    validated stage is empty, its stage table shows the guarded 0, and
    [generate_latex_tables], hence [main], raises [ZeroDivisionError]; so
    does [main] on the empty store and export. *)
Theorem latex_rows_divide_by_zero (py_repr : pyval -> string) :
  validated_cases [row_yes] = Ok []
  /\ guarded_pct 0 0 = 0%Q
  /\ unguarded_pct 0 0 = Raise ZeroDivisionError
  /\ main py_repr [row_yes] [case_export] = Raise ZeroDivisionError
  /\ main py_repr [] [] = Raise ZeroDivisionError.
Proof. repeat split; reflexivity. Qed.

(** C2, as stated, fails: in [calculate_stats] a row whose ground truth
    is YES and whose trap type is the string NONE is counted in the trap
    tally, under the prefix "NO". *)
Lemma yes_record_counted_in_trap_prefix :
  col_groundTruth row_yes = PStr "YES"
  /\ exists st : stats,
       calculate_stats repr_unused [RowCase row_yes] "Unvalidated" = Ok st
       /\ trap_prefix st = {["NO" := 1]}.
Proof.
  split; [reflexivity |].
  eexists. split; reflexivity.
Qed.

(** C2, amended: the trap-type counts of dataset_analysis are taken over
    the records whose ground truth is NO alone, so that a record with any
    other ground truth (YES and AMBIGUOUS among them) changes none of
    them; the trap tally of [calculate_stats] is taken over the trap
    values of all the cases, whatever their ground truth. *)
Theorem trap_counts_only_NO_records
    (py_repr : pyval -> string)
    (l1 l2 : list pyval) (d : list (string * pyval))
    (cases : list case) (source_name : string) (st : stats) :
  eq_str (dict_get d "groundTruth" PNone) "NO" = false ->
  calculate_stats py_repr cases source_name = Ok st ->
  trap_counts (l1 ++ PDict d :: l2) = trap_counts (l1 ++ l2)
  /\ for_each (count_trap py_repr) (map case_trap cases) ∅ = Ok (trap_prefix st).
Proof.
  intros Hgt Hrun. split.
  - unfold trap_counts. by rewrite no_cases_skip.
  - by apply for_each_count_case_trap in Hrun.
Qed.

Lemma trap_counts_only_NO_records_witness :
  trap_counts ([question_no] ++ question_yes :: [question_no])
  = trap_counts ([question_no] ++ [question_no]).
Proof.
  refine (proj1 (trap_counts_only_NO_records repr_unused [question_no] [question_no]
                   _ (map RowCase example_db) "Unvalidated" example_unval_stats _ _)).
  - reflexivity.
  - reflexivity.
Defined.

(** C3: a case without a pearl level makes [calculate_stats] raise
    [KeyError] at [stats['difficulty_by_level'][pearl]], from the export
    (key missing) as from the store (column NULL). *)
Theorem missing_pearl_level_raises (py_repr : pyval -> string) :
  calculate_stats py_repr [JsonCase case_no_pearl] "Final Export" = Raise KeyError
  /\ calculate_stats py_repr [RowCase row_null_pearl] "Unvalidated" = Raise KeyError.
Proof. split; reflexivity. Qed.

(** C4: the scores 8 and 10 have the ranges "8.0-8.9" and "10.0"; but a
    case of the export whose [finalScore] is 0 is put in no score range,
    while the same score in a row of the store is counted under "<6.0". *)
Theorem zero_score_not_bucketed (py_repr : pyval -> string) :
  score_range (PNum 8) = Ok "8.0-8.9"
  /\ score_range (PNum 10) = Ok "10.0"
  /\ exists st_export st_store : stats,
    calculate_stats py_repr [JsonCase case_zero] "Final Export" = Ok st_export
    /\ score_ranges st_export = ∅
    /\ calculate_stats py_repr [RowCase row_zero] "Unvalidated" = Ok st_store
    /\ count_at "<6.0" (score_ranges st_store) = 1
    /\ sum_values (score_ranges st_store) = 1.
Proof.
  split; [reflexivity |]. split; [reflexivity |].
  eexists _, _. split; [reflexivity |].
  split; [reflexivity |].
  split; [reflexivity |].
  split; reflexivity.
Qed.

(** C5: a combined file that is a bare array makes the fallback pass
    raise [AttributeError]; the very content under a per-author name is
    loaded by the primary pass. *)
Theorem combined_array_fallback_raises :
  _load_questions [file_combined_array] = Raise AttributeError
  /\ exists by_author,
       _load_questions [{| name := "tony_questions.json";
                           content := content file_combined_array |}]
       = Ok ([question_no; question_yes], by_author).
Proof.
  split; [reflexivity |].
  eexists. reflexivity.
Qed.

(** C6, as stated, fails: the normalisation of [calculate_stats] maps the
    lower-case spellings and the short synonyms to "Unknown", and counts a
    row whose difficulty is "easy" under "Unknown", where
    [_norm_difficulty] gives "EASY". *)
Lemma diff_normalized_not_case_insensitive :
  diff_normalized (PStr "easy") = "Unknown"
  /\ diff_normalized (PStr "e") = "Unknown"
  /\ _norm_difficulty repr_unused (PStr "easy") = "EASY"
  /\ exists st : stats,
       calculate_stats repr_unused [RowCase row_easy_lower] "Unvalidated" = Ok st
       /\ difficulty st = {["Unknown" := 1]}.
Proof.
  repeat split; try reflexivity.
  eexists. split; reflexivity.
Qed.

(** C6, amended: both normalisations are functions defined on every
    value, absence included, and idempotent.  [_norm_difficulty] decides on
    the stripped, lower-cased text: easy/e give EASY, medium/med/m give
    MEDIUM, hard/h give HARD, everything else (absence too) gives UNKNOWN,
    and two spellings that differ in case alone give the same result.  The
    normalisation of [calculate_stats] keeps exactly the three spellings
    Easy, Medium and Hard and gives Unknown on everything else. *)
Theorem difficulty_normalisations (py_repr : pyval -> string) (x : pyval) (s t : string) :
  _norm_difficulty py_repr (PStr (_norm_difficulty py_repr x)) = _norm_difficulty py_repr x
  /\ _norm_difficulty py_repr PNone = "UNKNOWN"
  /\ (let n := lower (_norm_str py_repr x) in
      (n ∈ ["easy"; "e"] -> _norm_difficulty py_repr x = "EASY")
      /\ (n ∈ ["medium"; "med"; "m"] -> _norm_difficulty py_repr x = "MEDIUM")
      /\ (n ∈ ["hard"; "h"] -> _norm_difficulty py_repr x = "HARD")
      /\ (n ∉ ["easy"; "e"; "medium"; "med"; "m"; "hard"; "h"] ->
          _norm_difficulty py_repr x = "UNKNOWN"))
  /\ (lower s = lower t ->
      _norm_difficulty py_repr (PStr s) = _norm_difficulty py_repr (PStr t))
  /\ diff_normalized (PStr (diff_normalized x)) = diff_normalized x
  /\ (diff_normalized x = "Easy" <-> x = PStr "Easy")
  /\ (diff_normalized x = "Medium" <-> x = PStr "Medium")
  /\ (diff_normalized x = "Hard" <-> x = PStr "Hard")
  /\ (x <> PStr "Easy" -> x <> PStr "Medium" -> x <> PStr "Hard" ->
      diff_normalized x = "Unknown").
Proof.
  split; [apply _norm_difficulty_idempotent |].
  split; [reflexivity |].
  split; [apply _norm_difficulty_table |].
  split; [apply _norm_difficulty_case_insensitive |].
  split; [apply diff_normalized_idempotent |].
  assert (forall d, d ∈ ["Easy"; "Medium"; "Hard"] ->
                    diff_normalized x = d <-> x = PStr d) as Hexact
    by (intros d Hd; by apply diff_normalized_exact).
  assert (forall d, d = "Easy" \/ d = "Medium" \/ d = "Hard" ->
                    d ∈ ["Easy"; "Medium"; "Hard"]) as Hin
    by (intros d Hd; rewrite !elem_of_cons; tauto).
  split; [apply Hexact, Hin; auto |].
  split; [apply Hexact, Hin; auto |].
  split; [apply Hexact, Hin; auto |].
  intros He Hm Hh. pose proof (diff_normalized_range x) as Hr.
  rewrite !elem_of_cons, elem_of_nil in Hr.
  destruct Hr as [Hr | [Hr | [Hr | [Hr | []]]]]; [| | | done];
    apply Hexact in Hr; try done; apply Hin; auto.
Qed.

Lemma difficulty_normalisations_witness :
  _norm_difficulty repr_unused (PStr " Med ") = "MEDIUM"
  /\ _norm_difficulty repr_unused (PStr "EASY") = _norm_difficulty repr_unused (PStr "easy")
  /\ diff_normalized (PStr "hard") = "Unknown".
Proof.
  pose proof (difficulty_normalisations repr_unused (PStr " Med ") "EASY" "easy")
    as (_ & _ & (_ & Hmed & _) & Hcase & _).
  pose proof (difficulty_normalisations repr_unused (PStr "hard") "" "")
    as (_ & _ & _ & _ & _ & _ & _ & _ & Hunknown).
  split; [apply Hmed; apply list_elem_of_further, list_elem_of_here |].
  split; [apply Hcase; reflexivity |].
  apply Hunknown; discriminate.
Defined.

(** C7: on a directory whose per-author file holds no record and whose
    combined file is an empty bare array, the per-author files alone are
    loaded (no record, one empty bucket), but loading the directory raises
    [AttributeError]: without a record from the primary pass the loader
    opens the combined file and calls [data.get] on the array (line 70).
    Loading the directory does not yield the record count of its
    per-author files. *)
Theorem combined_array_breaks_empty_load :
  _load_questions (per_author_files dir_empty_both) = Ok ([], <[KStr "Tony" := []]> ∅)
  /\ _load_questions dir_empty_both = Raise AttributeError.
Proof. split; reflexivity. Qed.

(** C8: when [calculate_stats] returns the aggregates of the unvalidated
    stage, the per-pearl-level counts and the per-difficulty counts each
    add up to the total record count, also at the time of the
    verification, after [print_stats] and [generate_latex_tables] have read
    the counters; the verification then reports [Consistent].  On any
    aggregates at all the verification yields one of its two verdicts,
    [Inconsistent] exactly when the sums disagree: it has no failing case. *)
Theorem unvalidated_partition_sums
    (py_repr : pyval -> string) (db_cases : list row) (unval_stats : stats) :
  calculate_stats py_repr (map RowCase db_cases) "Unvalidated" = Ok unval_stats ->
  let checked := latex_reads (snd (print_stats unval_stats "UNVALIDATED POOL (Database)")) in
  total unval_stats = length db_cases
  /\ sum_values (pearl_level unval_stats) = total unval_stats
  /\ sum_values (difficulty unval_stats) = total unval_stats
  /\ sum_values (pearl_level checked) = total checked
  /\ sum_values (difficulty checked) = total checked
  /\ verification checked = Consistent
  /\ (forall st : stats,
        verification st = Inconsistent
        <-> ~ (total st = sum_values (pearl_level st)
               /\ sum_values (pearl_level st) = sum_values (difficulty st))).
Proof.
  intros Hrun checked.
  apply calculate_stats_sums in Hrun as (Ht & Hp & Hd).
  rewrite length_map in Ht.
  destruct (reads_keep_sums unval_stats "UNVALIDATED POOL (Database)") as (Ht' & Hp' & Hd').
  fold checked in Ht', Hp', Hd'.
  repeat split; try congruence.
  - apply verification_spec. split; congruence.
  - intros Hv Hc. apply verification_spec in Hc. congruence.
  - intros Hn. destruct (verification st) eqn:Hv; [| done].
    apply verification_spec in Hv. tauto.
Qed.

Lemma unvalidated_partition_sums_witness :
  sum_values (pearl_level example_unval_stats) = total example_unval_stats
  /\ sum_values (difficulty example_unval_stats) = total example_unval_stats.
Proof.
  assert (calculate_stats repr_unused (map RowCase example_db) "Unvalidated"
          = Ok example_unval_stats) as Hrun by (reflexivity).
  pose proof (unvalidated_partition_sums repr_unused example_db example_unval_stats Hrun)
    as (_ & Hp & Hd & _).
  exact (conj Hp Hd).
Defined.

(** C9: a case that carries [finalScore] 0 and [final_score] 7.5 is given
    the score 7.5 of the alternate key, and is counted under "6.0-7.9". *)
Theorem zero_score_overridden_by_alternate_key (py_repr : pyval -> string) :
  dict_get [("finalScore", PNum 0); ("final_score", PNum 7.5)] "finalScore" PNone = PNum 0
  /\ (exists pearl diff lbl trap,
        case_fields (JsonCase case_both_scores) = Ok (pearl, diff, lbl, trap, PNum 7.5))
  /\ exists st : stats,
       calculate_stats py_repr [JsonCase case_both_scores] "Final Export" = Ok st
       /\ count_at "6.0-7.9" (score_ranges st) = 1
       /\ count_at "<6.0" (score_ranges st) = 0.
Proof.
  split; [reflexivity |].
  split; [eexists _, _, _, _; reflexivity |].
  eexists. split; [reflexivity |].
  split; reflexivity.
Qed.

(** C10: the records that [_load_questions] returns are, up to their
    order, the records of its author buckets taken together: every record
    lies in one bucket, once, and the per-author counts add up to the
    number of records, whether the records come from the primary pass or
    from the fallback pass. *)
Theorem author_buckets_partition_records
    (data_dir : list file) (all_questions : list pyval)
    (by_author : gmap pkey (list pyval)) :
  _load_questions data_dir = Ok (all_questions, by_author) ->
  bucket_records by_author ≡ₚ all_questions
  /\ sum_values (author_counts by_author) = length all_questions.
Proof.
  unfold _load_questions. intros Hrun.
  apply bind_Ok_inv in Hrun as (st & Hprimary & Hfallback).
  assert (bucket_records by_author ≡ₚ all_questions) as Hperm.
  { apply (load_combined_buckets _ _ _ Hfallback).
    apply (primary_pass_buckets _ _ _ Hprimary). simpl.
    by rewrite bucket_records_empty. }
  split; [done |].
  by rewrite sum_author_counts, Hperm.
Qed.

Lemma author_buckets_partition_records_witness :
  sum_values (author_counts (snd loaded_primary)) = 2
  /\ sum_values (author_counts (snd loaded_fallback)) = 2.
Proof.
  split.
  - refine (proj2 (author_buckets_partition_records dir_both (fst loaded_primary)
                     (snd loaded_primary) _)).
    reflexivity.
  - refine (proj2 (author_buckets_partition_records dir_only_combined (fst loaded_fallback)
                     (snd loaded_fallback) _)).
    reflexivity.
Defined.

(** * Further properties *)

(** ** generate_report_stats.py: what one case counts for *)

Lemma incr_by_level_eq (kp : pkey) (d : string) (b : by_level) :
  incr_by_level kp d b =
  match kp with
  | KStr s =>
      if String.eqb s "L1" then
        Ok {| level_L1 := incr d (level_L1 b); level_L2 := level_L2 b; level_L3 := level_L3 b |}
      else if String.eqb s "L2" then
        Ok {| level_L1 := level_L1 b; level_L2 := incr d (level_L2 b); level_L3 := level_L3 b |}
      else if String.eqb s "L3" then
        Ok {| level_L1 := level_L1 b; level_L2 := level_L2 b; level_L3 := incr d (level_L3 b) |}
      else Raise KeyError
  | _ => Raise KeyError
  end.
Proof.
  destruct kp as [|s|]; try reflexivity.
  destruct s as [|c1 s]; [reflexivity |].
  destruct c1 as [[] [] [] [] [] [] [] []]; try reflexivity.
  destruct s as [|c2 s]; [reflexivity |].
  destruct c2 as [[] [] [] [] [] [] [] []]; try reflexivity;
    destruct s; reflexivity.
Qed.

Lemma hash_key_KStr (v : pyval) (s : string) : hash_key v = Ok (KStr s) -> v = PStr s.
Proof. destruct v; simpl; unfold key_of_Q; try destruct b; congruence. Qed.

Lemma level_key_Ok (kp : pkey) (lvl : string) :
  level_key kp = Ok lvl <-> kp = KStr lvl /\ lvl ∈ levels.
Proof.
  unfold level_key. destruct kp as [|s|]; try (split; [done | by intros [? _]]).
  case_bool_decide as Hs; split.
  - by intros [= <-].
  - by intros [[= <-] _].
  - done.
  - intros [[= <-] ?]. done.
Qed.

Ltac case_tail py_repr lbl trap score :=
  simpl; destruct (hash_key lbl); simpl; [| reflexivity];
  unfold count_trap; destruct (truthy trap); simpl;
  [ destruct (trap_prefix_of py_repr trap); simpl; [| reflexivity] | ];
  unfold count_score; destruct score; simpl; try reflexivity;
  match goal with |- context [score_range ?x] => destruct (score_range x) end; reflexivity.

Lemma count_case_effect (py_repr : pyval -> string) (st : stats) (c : case) :
  count_case py_repr st c = (e ← case_effect py_repr c; Ok (apply_effect st e)).
Proof.
  unfold count_case, case_effect.
  destruct (case_fields c) as [[[[[pearl diff] lbl] trap] score]|err]; [| reflexivity].
  simpl. destruct (hash_key pearl) as [kp|err] eqn:Hkp; [| reflexivity]. simpl.
  rewrite incr_by_level_eq. unfold level_key.
  destruct kp as [|s|]; try reflexivity.
  apply hash_key_KStr in Hkp as ->. simpl eq_str.
  destruct (String.eqb_spec s "L1") as [->|H1]; [case_tail py_repr lbl trap score |].
  destruct (String.eqb_spec s "L2") as [->|H2]; [case_tail py_repr lbl trap score |].
  destruct (String.eqb_spec s "L3") as [->|H3]; [case_tail py_repr lbl trap score |].
  rewrite bool_decide_eq_false_2; [reflexivity |].
  unfold levels. rewrite !elem_of_cons, elem_of_nil. tauto.
Qed.

Lemma map_result_length {A B : Type} (body : A -> result B) (l : list A) (ys : list B) :
  map_result body l = Ok ys -> length ys = length l.
Proof.
  revert ys. induction l as [|x l IH]; simpl; intros ys Hl.
  - by injection Hl as <-.
  - apply bind_Ok_inv in Hl as (y & _ & Hl).
    apply bind_Ok_inv in Hl as (ys' & Hys & Hl).
    injection Hl as <-. simpl. by rewrite (IH ys').
Qed.

Lemma map_result_Forall2 {A B : Type} (body : A -> result B) (l : list A) (ys : list B) :
  map_result body l = Ok ys <-> Forall2 (fun x y => body x = Ok y) l ys.
Proof.
  revert ys. induction l as [|x l IH]; simpl; intros ys; split.
  - intros [= <-]. constructor.
  - by intros ->%Forall2_nil_inv_l.
  - intros Hl. apply bind_Ok_inv in Hl as (y & Hy & Hl).
    apply bind_Ok_inv in Hl as (ys' & Hys & Hl).
    injection Hl as <-. constructor; [done | by apply IH].
  - intros (y & ys' & Hy & Hys & ->)%Forall2_cons_inv_l.
    rewrite Hy. simpl. apply IH in Hys. by rewrite Hys.
Qed.

Section effects.
Variable py_repr : pyval -> string.

(** The loop of [calculate_stats] resolves the cases one after the other
    and adds what each one counts for. *)
Lemma for_each_count_case_effects (cases : list case) (st : stats) :
  for_each (count_case py_repr) cases st
  = (es ← map_result (case_effect py_repr) cases; Ok (foldl apply_effect st es)).
Proof.
  revert st. induction cases as [|c cases IH]; intros st; simpl; [done |].
  rewrite count_case_effect.
  destruct (case_effect py_repr c) as [e|err]; simpl; [| done].
  rewrite IH. by destruct (map_result (case_effect py_repr) cases).
Qed.

Lemma calculate_stats_effects (cases : list case) (source_name : string) (st : stats) :
  calculate_stats py_repr cases source_name = Ok st <->
  exists es, map_result (case_effect py_repr) cases = Ok es
             /\ st = foldl apply_effect (empty_stats (length cases)) es.
Proof.
  unfold calculate_stats. rewrite for_each_count_case_effects. split.
  - intros (es & Hes & [= <-])%bind_Ok_inv. eauto.
  - intros (es & -> & ->). done.
Qed.

Lemma case_effect_level (c : case) (e : effect) :
  case_effect py_repr c = Ok e -> e_level e ∈ levels.
Proof.
  unfold case_effect. intros He.
  apply bind_Ok_inv in He as ([[[[pearl diff] lbl] trap] score] & _ & He).
  apply bind_Ok_inv in He as (kp & _ & He).
  apply bind_Ok_inv in He as (lvl & Hlvl%level_key_Ok & He).
  apply bind_Ok_inv in He as (kl & _ & He).
  apply bind_Ok_inv in He as (tp & _ & He).
  apply bind_Ok_inv in He as (rg & _ & He).
  injection He as <-. simpl. tauto.
Qed.

Lemma effects_levels (cases : list case) (es : list effect) :
  map_result (case_effect py_repr) cases = Ok es ->
  Forall (fun e => e_level e ∈ levels) es.
Proof.
  intros Hes%map_result_Forall2.
  induction Hes as [|c e cases es He _ IH]; constructor; [| done].
  by eapply case_effect_level.
Qed.

End effects.

Section fold_counters.
Context {A K : Type} `{Countable K}.
Implicit Types (g : A -> option K) (l : list A) (m : gmap K nat).

Lemma count_at_foldl_incr_if g k l m :
  count_at k (foldl (fun m e => incr_if (g e) m) m l)
  = count_at k m + length (filter (fun e => g e = Some k) l).
Proof.
  revert m. induction l as [|e l IH]; intros m; simpl; [lia |].
  rewrite IH, filter_cons. destruct (decide (g e = Some k)) as [Hg|Hg].
  - rewrite Hg. simpl. rewrite count_at_incr, decide_True by done. lia.
  - destruct (g e) as [k'|]; simpl; [| lia].
    rewrite count_at_incr, decide_False by congruence. lia.
Qed.

Lemma sum_values_foldl_incr_if g l m :
  sum_values (foldl (fun m e => incr_if (g e) m) m l)
  = sum_values m + length (filter (fun e => is_Some (g e)) l).
Proof.
  revert m. induction l as [|e l IH]; intros m; simpl; [lia |].
  rewrite IH, filter_cons. destruct (decide (is_Some (g e))) as [[k' Hg]|Hg].
  - rewrite Hg. simpl. rewrite sum_values_incr. lia.
  - destruct (g e) as [k'|]; simpl; [| lia]. destruct Hg. eauto.
Qed.

Lemma lookup_foldl_incr_if_None g k l m :
  m !! k = None -> Forall (fun e => g e <> Some k) l ->
  foldl (fun m e => incr_if (g e) m) m l !! k = None.
Proof.
  intros Hm Hl. revert m Hm. induction Hl as [|e l He _ IH]; intros m Hm; simpl; [done |].
  apply IH. destruct (g e) as [k'|]; simpl; [| done].
  unfold incr. rewrite lookup_insert_ne; [done | congruence].
Qed.

End fold_counters.

(** A field of the stats that every case updates by [incr_if] is the fold
    of these updates. *)
Lemma foldl_apply_effect_field {K : Type} `{Countable K}
    (field : stats -> gmap K nat) (g : effect -> option K) :
  (forall st e, field (apply_effect st e) = incr_if (g e) (field st)) ->
  forall es st,
    field (foldl apply_effect st es) = foldl (fun m e => incr_if (g e) m) (field st) es.
Proof.
  intros Hstep es. induction es as [|e es IH]; intros st; simpl; [done |].
  by rewrite IH, Hstep.
Qed.

Lemma foldl_apply_effect_total (es : list effect) (st : stats) :
  total (foldl apply_effect st es) = total st.
Proof. revert st. induction es as [|e es IH]; intros st; simpl; [done |]. by rewrite IH. Qed.

Section stats_facts.
Variable py_repr : pyval -> string.

Lemma levels_cases (lvl : string) :
  lvl ∈ levels -> lvl = "L1" \/ lvl = "L2" \/ lvl = "L3".
Proof. unfold levels. rewrite !elem_of_cons, elem_of_nil. tauto. Qed.

(** Among effects whose level is one of the three, those that satisfy [P]
    split into the three levels. *)
Lemma filter_levels_split (P : effect -> Prop) `{!forall e, Decision (P e)} (es : list effect) :
  Forall (fun e => e_level e ∈ levels) es ->
  length (filter (fun e => e_level e = "L1" /\ P e) es)
  + length (filter (fun e => e_level e = "L2" /\ P e) es)
  + length (filter (fun e => e_level e = "L3" /\ P e) es)
  = length (filter P es).
Proof.
  induction 1 as [|e es He _ IH]; [done |].
  rewrite !filter_cons. apply levels_cases in He.
  destruct (decide (P e)) as [HP|HP].
  - destruct He as [He | [He | He]]; rewrite He;
      repeat (case_decide; try (exfalso; intuition congruence)); simpl; lia.
  - repeat (case_decide; try (exfalso; tauto)). lia.
Qed.

Lemma length_filter_iff {A : Type} (P Q : A -> Prop)
    `{!forall x, Decision (P x)} `{!forall x, Decision (Q x)} (l : list A) :
  (forall x, P x <-> Q x) -> length (filter P l) = length (filter Q l).
Proof. intros HPQ. by rewrite (list_filter_iff P Q l HPQ). Qed.

Lemma length_filter_Forall2 {A B : Type} (R : A -> B -> Prop) (P : A -> Prop) (Q : B -> Prop)
    `{!forall x, Decision (P x)} `{!forall y, Decision (Q y)} (l : list A) (k : list B) :
  Forall2 R l k -> (forall x y, R x y -> (P x <-> Q y)) ->
  length (filter P l) = length (filter Q k).
Proof.
  intros HR HPQ. induction HR as [|x y l k Hxy _ IH]; [done |].
  rewrite !filter_cons. specialize (HPQ x y Hxy).
  destruct (decide (P x)), (decide (Q y)); simpl; try tauto; by rewrite IH.
Qed.

Lemma at_level_Some {K : Type} (level : string) (e : effect) (k k' : K) :
  at_level level e k = Some k' <-> e_level e = level /\ k = k'.
Proof.
  unfold at_level. destruct (String.eqb_spec (e_level e) level); split.
  - by intros [= <-].
  - by intros [_ ->].
  - done.
  - tauto.
Qed.

Lemma at_level_is_Some {K : Type} (level : string) (e : effect) (k : K) :
  is_Some (at_level level e k) <-> e_level e = level.
Proof.
  unfold at_level. destruct (String.eqb_spec (e_level e) level) as [He|He]; split.
  - done.
  - intros _. eauto.
  - by intros [? ?].
  - done.
Qed.

Lemma score_range_names (score : pyval) (r : string) :
  score_range score = Ok r -> r ∈ range_names.
Proof.
  unfold score_range, range_names, ge_num, eq_num.
  destruct (as_number score) as [q|]; simpl.
  - destruct (Qeq_bool q 10); [intros [= <-]; set_solver |].
    destruct (Qle_bool 9 q); [intros [= <-]; set_solver |].
    destruct (Qle_bool 8 q); [intros [= <-]; set_solver |].
    destruct (Qle_bool 6 q); intros [= <-]; set_solver.
  - done.
Qed.

Lemma case_effect_fields (c : case) (e : effect) :
  case_effect py_repr c = Ok e ->
  (is_Some (e_trap e) <-> truthy (case_trap c) = true)
  /\ (is_Some (e_range e) <-> is_None (case_score c) = false)
  /\ (forall r, e_range e = Some r -> r ∈ range_names).
Proof.
  unfold case_effect, case_trap, case_score. intros He.
  apply bind_Ok_inv in He as ([[[[pearl diff] lbl] trap] score] & -> & He).
  apply bind_Ok_inv in He as (kp & _ & He).
  apply bind_Ok_inv in He as (lvl & _ & He).
  apply bind_Ok_inv in He as (kl & _ & He).
  apply bind_Ok_inv in He as (tp & Htp & He).
  apply bind_Ok_inv in He as (rg & Hrg & He).
  injection He as <-. simpl. repeat split.
  - intros [p ->]. destruct (truthy trap); [done | discriminate].
  - intros Ht. rewrite Ht in Htp. apply bind_Ok_inv in Htp as (p & _ & [= <-]). eauto.
  - intros [r ->]. by destruct score.
  - intros Hs. destruct score; try done;
      apply bind_Ok_inv in Hrg as (r & _ & [= <-]); eauto.
  - intros r ->. destruct score; try discriminate;
      apply bind_Ok_inv in Hrg as (r' & Hr' & [= <-]); by eapply score_range_names.
Qed.

End stats_facts.

Lemma filter_levels_all (es : list effect) :
  Forall (fun e => e_level e ∈ levels) es ->
  length (filter (fun e => e_level e = "L1") es)
  + length (filter (fun e => e_level e = "L2") es)
  + length (filter (fun e => e_level e = "L3") es)
  = length es.
Proof.
  induction 1 as [|e es He _ IH]; [done |].
  rewrite !filter_cons. apply levels_cases in He.
  destruct He as [He | [He | He]]; rewrite He;
    repeat (case_decide; try (exfalso; congruence)); simpl; lia.
Qed.

Lemma length_filter_level_key (lvl : string) (es : list effect) :
  length (filter (fun e => Some (KStr (e_level e)) = Some (KStr lvl)) es)
  = length (filter (fun e => e_level e = lvl) es).
Proof. apply length_filter_iff. intros e. split; congruence. Qed.

Section effect_counting.
Context {K : Type} `{Countable K}.
Implicit Types (f : effect -> K) (es : list effect).

Lemma length_filter_at_level_is_Some lvl f es :
  length (filter (fun e => is_Some (at_level lvl e (f e))) es)
  = length (filter (fun e => e_level e = lvl) es).
Proof. apply length_filter_iff. intros e. apply at_level_is_Some. Qed.

Lemma length_filter_at_level_Some lvl f k es :
  length (filter (fun e => at_level lvl e (f e) = Some k) es)
  = length (filter (fun e => e_level e = lvl /\ f e = k) es).
Proof. apply length_filter_iff. intros e. apply at_level_Some. Qed.

Lemma length_filter_Some f k es :
  length (filter (fun e => Some (f e) = Some k) es)
  = length (filter (fun e => f e = k) es).
Proof. apply length_filter_iff. intros e. split; congruence. Qed.

Lemma length_filter_is_Some_Some f es :
  length (filter (fun e => is_Some (Some (f e))) es) = length es.
Proof.
  induction es as [|e es IH]; [done |].
  rewrite filter_cons, decide_True by eauto. cbn [length]. by f_equal.
Qed.

End effect_counting.

Section stats_theorems.
Variable py_repr : pyval -> string.

Ltac use_effects Hrun es Hes :=
  apply (calculate_stats_effects py_repr) in Hrun as (es & Hes & ->).

Ltac field_fold g :=
  rewrite (foldl_apply_effect_field _ g) by reflexivity.

Ltac count_empty :=
  rewrite ?count_at_foldl_incr_if, ?sum_values_foldl_incr_if; cbn [empty_stats pearl_level
    difficulty label trap_prefix l1_labels l2_labels l3_labels score_ranges
    difficulty_by_level level_L1 level_L2 level_L3];
  unfold count_at; rewrite ?lookup_empty, ?sum_values_empty; cbn [default]; cbv beta.

(** X1: [calculate_stats] counts every case under exactly one of the three
    pearl levels: the counts of L1, L2 and L3 add up to the number of
    cases, and the pearl-level counter holds no other key. *)
Theorem pearl_levels_exhaust_cases
    (cases : list case) (source_name : string) (st : stats) :
  calculate_stats py_repr cases source_name = Ok st ->
  count_at (KStr "L1") (pearl_level st) + count_at (KStr "L2") (pearl_level st)
  + count_at (KStr "L3") (pearl_level st) = length cases
  /\ forall k, k ∉ [KStr "L1"; KStr "L2"; KStr "L3"] -> pearl_level st !! k = None.
Proof.
  intros Hrun. use_effects Hrun es Hes.
  pose proof (effects_levels py_repr _ _ Hes) as Hlv.
  pose proof (map_result_length _ _ _ Hes) as Hlen.
  field_fold (fun e => Some (KStr (e_level e))). split.
  - count_empty. rewrite <- Hlen, <- (filter_levels_all es Hlv).
    rewrite !length_filter_level_key. lia.
  - intros k Hk. apply lookup_foldl_incr_if_None; [apply lookup_empty |].
    eapply Forall_impl; [exact Hlv |]. intros e He [= <-]. apply Hk.
    apply levels_cases in He. rewrite !elem_of_cons.
    destruct He as [-> | [-> | ->]]; tauto.
Qed.

(** X2: the label counters of [calculate_stats] agree with each other: the
    labels add up to the number of cases, the labels of each level add up
    to the count of that level, and for every label the three per-level
    counts add up to its overall count. *)
Theorem labels_by_level_consistent
    (cases : list case) (source_name : string) (st : stats) :
  calculate_stats py_repr cases source_name = Ok st ->
  sum_values (label st) = length cases
  /\ sum_values (l1_labels st) = count_at (KStr "L1") (pearl_level st)
  /\ sum_values (l2_labels st) = count_at (KStr "L2") (pearl_level st)
  /\ sum_values (l3_labels st) = count_at (KStr "L3") (pearl_level st)
  /\ forall k, count_at k (l1_labels st) + count_at k (l2_labels st)
               + count_at k (l3_labels st) = count_at k (label st).
Proof.
  intros Hrun. use_effects Hrun es Hes.
  pose proof (effects_levels py_repr _ _ Hes) as Hlv.
  pose proof (map_result_length _ _ _ Hes) as Hlen.
  rewrite (foldl_apply_effect_field label (fun e => Some (e_label e))) by reflexivity.
  rewrite (foldl_apply_effect_field pearl_level (fun e => Some (KStr (e_level e))))
    by reflexivity.
  rewrite (foldl_apply_effect_field l1_labels (fun e => at_level "L1" e (e_label e)))
    by reflexivity.
  rewrite (foldl_apply_effect_field l2_labels (fun e => at_level "L2" e (e_label e)))
    by reflexivity.
  rewrite (foldl_apply_effect_field l3_labels (fun e => at_level "L3" e (e_label e)))
    by reflexivity.
  repeat split; [.. | intros k]; count_empty;
    rewrite ?length_filter_is_Some_Some, ?length_filter_at_level_is_Some,
      ?length_filter_level_key; try done.
  rewrite !length_filter_at_level_Some, length_filter_Some.
  pose proof (filter_levels_split (fun e => e_label e = k) es Hlv). lia.
Qed.

(** X3: the difficulty counters by pearl level agree with the flat ones:
    the difficulties of each level add up to the count of that level, and
    for every difficulty the three per-level counts add up to its overall
    count. *)
Theorem difficulty_by_level_consistent
    (cases : list case) (source_name : string) (st : stats) :
  calculate_stats py_repr cases source_name = Ok st ->
  sum_values (level_L1 (difficulty_by_level st)) = count_at (KStr "L1") (pearl_level st)
  /\ sum_values (level_L2 (difficulty_by_level st)) = count_at (KStr "L2") (pearl_level st)
  /\ sum_values (level_L3 (difficulty_by_level st)) = count_at (KStr "L3") (pearl_level st)
  /\ forall d, count_at d (level_L1 (difficulty_by_level st))
               + count_at d (level_L2 (difficulty_by_level st))
               + count_at d (level_L3 (difficulty_by_level st))
               = count_at d (difficulty st).
Proof.
  intros Hrun. use_effects Hrun es Hes.
  pose proof (effects_levels py_repr _ _ Hes) as Hlv.
  rewrite (foldl_apply_effect_field difficulty (fun e => Some (e_diff e))) by reflexivity.
  rewrite (foldl_apply_effect_field pearl_level (fun e => Some (KStr (e_level e))))
    by reflexivity.
  rewrite (foldl_apply_effect_field (fun st => level_L1 (difficulty_by_level st))
             (fun e => at_level "L1" e (e_diff e))) by reflexivity.
  rewrite (foldl_apply_effect_field (fun st => level_L2 (difficulty_by_level st))
             (fun e => at_level "L2" e (e_diff e))) by reflexivity.
  rewrite (foldl_apply_effect_field (fun st => level_L3 (difficulty_by_level st))
             (fun e => at_level "L3" e (e_diff e))) by reflexivity.
  repeat split; [.. | intros d]; count_empty;
    rewrite ?length_filter_at_level_is_Some, ?length_filter_level_key; try done.
  rewrite !length_filter_at_level_Some, length_filter_Some.
  pose proof (filter_levels_split (fun e => e_diff e = d) es Hlv). lia.
Qed.

Lemma score_ranges_sum
    (cases : list case) (source_name : string) (st : stats) :
  calculate_stats py_repr cases source_name = Ok st ->
  sum_values (score_ranges st)
  = length (filter (fun c => is_None (case_score c) = false) cases).
Proof.
  intros Hrun. use_effects Hrun es Hes.
  apply map_result_Forall2 in Hes.
  rewrite (foldl_apply_effect_field score_ranges e_range) by reflexivity.
  count_empty. symmetry.
  apply (length_filter_Forall2 (fun c e => case_effect py_repr c = Ok e) _ _ _ _ Hes).
  intros c e He. symmetry. by apply (case_effect_fields py_repr c e He).
Qed.

(** X4: the score ranges count exactly the cases whose score is not [None],
    once each, and only under the five range names. *)
Theorem score_ranges_count_scored_cases
    (cases : list case) (source_name : string) (st : stats) :
  calculate_stats py_repr cases source_name = Ok st ->
  sum_values (score_ranges st) = length (filter (fun c => is_None (case_score c) = false) cases)
  /\ forall r, r ∉ range_names -> score_ranges st !! r = None.
Proof.
  intros Hrun. split; [by eapply score_ranges_sum |].
  use_effects Hrun es Hes. apply map_result_Forall2 in Hes.
  rewrite (foldl_apply_effect_field score_ranges e_range) by reflexivity.
  intros r Hr. apply lookup_foldl_incr_if_None; [apply lookup_empty |].
  clear -Hes Hr. induction Hes as [|c e cases es He _ IH]; constructor; [| done].
  intros Hrange. apply Hr. by apply (case_effect_fields py_repr c e He).
Qed.

(** X5: the trap prefixes count exactly the cases whose trap value is
    truthy, once each. *)
Theorem trap_prefix_counts_trapped_cases
    (cases : list case) (source_name : string) (st : stats) :
  calculate_stats py_repr cases source_name = Ok st ->
  sum_values (trap_prefix st)
  = length (filter (fun c => truthy (case_trap c) = true) cases).
Proof.
  intros Hrun. use_effects Hrun es Hes.
  apply map_result_Forall2 in Hes.
  rewrite (foldl_apply_effect_field trap_prefix e_trap) by reflexivity.
  count_empty. symmetry.
  apply (length_filter_Forall2 (fun c e => case_effect py_repr c = Ok e) _ _ _ _ Hes).
  intros c e He. symmetry. by apply (case_effect_fields py_repr c e He).
Qed.

End stats_theorems.

(** ** generate_report_stats.py: the order of the cases *)

Section incr_comm.
Context {K : Type} `{Countable K}.

Lemma incr_comm (k1 k2 : K) (m : gmap K nat) : incr k1 (incr k2 m) = incr k2 (incr k1 m).
Proof.
  apply map_eq. intros i. unfold incr, count_at.
  destruct (decide (k1 = k2)) as [->|Hne]; [done |].
  rewrite !(lookup_insert_ne _ k1 k2), !(lookup_insert_ne _ k2 k1) by done.
  destruct (decide (i = k1)) as [->|H1].
  - rewrite lookup_insert_eq, lookup_insert_ne, lookup_insert_eq by done. done.
  - destruct (decide (i = k2)) as [->|H2].
    + rewrite lookup_insert_ne, !lookup_insert_eq by done. done.
    + by rewrite !lookup_insert_ne by done.
Qed.

Lemma incr_if_comm (o1 o2 : option K) (m : gmap K nat) :
  incr_if o1 (incr_if o2 m) = incr_if o2 (incr_if o1 m).
Proof. destruct o1, o2; simpl; try done. apply incr_comm. Qed.

End incr_comm.

Lemma apply_effect_comm (st : stats) (e1 e2 : effect) :
  apply_effect (apply_effect st e1) e2 = apply_effect (apply_effect st e2) e1.
Proof.
  unfold apply_effect. cbn [total pearl_level difficulty label trap_prefix l1_labels
    l2_labels l3_labels score_ranges difficulty_by_level level_L1 level_L2 level_L3].
  f_equal; try apply incr_if_comm. f_equal; apply incr_if_comm.
Qed.

Lemma foldl_apply_effect_Permutation (es es' : list effect) (st : stats) :
  es ≡ₚ es' -> foldl apply_effect st es = foldl apply_effect st es'.
Proof.
  intros Hp. revert st. induction Hp as [|e es es' _ IH|e1 e2 es|es es' es'' _ IH1 _ IH2];
    intros st; simpl.
  - done.
  - apply IH.
  - by rewrite apply_effect_comm.
  - by rewrite IH1.
Qed.

Lemma map_result_Permutation {A B : Type} (body : A -> result B) (l l' : list A) (ys : list B) :
  l ≡ₚ l' -> map_result body l = Ok ys ->
  exists ys', map_result body l' = Ok ys' /\ ys ≡ₚ ys'.
Proof.
  intros Hp. revert ys. induction Hp as [|x l l' _ IH|x1 x2 l|l l' l'' _ IH1 _ IH2];
    intros ys; simpl.
  - intros [= <-]. eauto.
  - intros (y & Hy & Hl)%bind_Ok_inv.
    apply bind_Ok_inv in Hl as (ys0 & Hys0 & [= <-]).
    destruct (IH _ Hys0) as (ys' & -> & Hperm). rewrite Hy. simpl.
    eexists. split; [done |]. by constructor.
  - intros (y2 & Hy2 & Hl)%bind_Ok_inv.
    apply bind_Ok_inv in Hl as (ys0 & Hl & [= <-]).
    apply bind_Ok_inv in Hl as (y1 & Hy1 & Hl).
    apply bind_Ok_inv in Hl as (ys1 & Hys1 & [= <-]).
    rewrite Hy1, Hy2, Hys1. simpl. eexists. split; [done |]. apply perm_swap.
  - intros Hl. destruct (IH1 _ Hl) as (ys' & Hl' & Hp1).
    destruct (IH2 _ Hl') as (ys'' & Hl'' & Hp2).
    exists ys''. split; [done |]. by etrans.
Qed.

(** X6: the statistics do not depend on the order of the cases: when
    [calculate_stats] returns on a list of cases, it returns the same
    statistics on every permutation of the list. *)
Theorem calculate_stats_order_independent
    (py_repr : pyval -> string) (cases cases' : list case) (source_name : string)
    (st : stats) :
  cases ≡ₚ cases' ->
  calculate_stats py_repr cases source_name = Ok st ->
  calculate_stats py_repr cases' source_name = Ok st.
Proof.
  intros Hp Hrun. apply calculate_stats_effects in Hrun as (es & Hes & ->).
  destruct (map_result_Permutation _ _ _ _ Hp Hes) as (es' & Hes' & Hperm).
  apply calculate_stats_effects. exists es'. split; [done |].
  rewrite (Permutation_length Hp). by apply foldl_apply_effect_Permutation.
Qed.

(** ** generate_report_stats.py: the validated rows *)

(** The test of line 214 keeps the rows whose score is a number that is
    at least 8. *)
Lemma validated_cases_test (c : row) (keep : bool) :
  match col_finalScore c with PNone => Ok false | s => ge_num s 8 end = Ok keep ->
  keep = true <-> scored_at_least_8 c.
Proof.
  unfold scored_at_least_8, ge_num.
  destruct (col_finalScore c) as [|b|q|s|l|d]; simpl; try discriminate; intros [= <-].
  - split; [done | by intros (q & [=] & _)].
  - rewrite Qle_bool_iff. split; [eauto |]. by intros (q & [= <-] & Hq).
  - rewrite Qle_bool_iff. split; [eauto |]. by intros (q' & [= <-] & Hq).
Qed.

Lemma validated_cases_scored (db_cases validated : list row) :
  validated_cases db_cases = Ok validated ->
  validated `sublist_of` db_cases /\ Forall scored_at_least_8 validated.
Proof.
  revert validated. induction db_cases as [|c rest IH]; simpl; intros validated Hv.
  - injection Hv as <-. split; [done | constructor].
  - apply bind_Ok_inv in Hv as (keep & Hkeep & Hv).
    apply bind_Ok_inv in Hv as (rest' & Hrest & [= <-]).
    destruct (IH _ Hrest) as (Hsub & Hall).
    apply validated_cases_test in Hkeep. destruct keep.
    + split; [by apply sublist_skip |]. constructor; [by apply Hkeep | done].
    + split; [by apply sublist_cons | done].
Qed.

(** X7: the validated rows are rows of the store, in the same order: those
    whose score is a number that is at least 8.  Every such row is kept,
    and selecting again among the validated rows keeps them all. *)
Theorem validated_cases_filter (db_cases validated : list row) :
  validated_cases db_cases = Ok validated ->
  validated `sublist_of` db_cases
  /\ Forall scored_at_least_8 validated
  /\ (forall r, r ∈ db_cases -> scored_at_least_8 r -> r ∈ validated)
  /\ validated_cases validated = Ok validated.
Proof.
  revert validated. induction db_cases as [|c rest IH]; simpl; intros validated Hv.
  - injection Hv as <-. split; [done |]. split; [constructor |]. split; [| done].
    intros r Hr. by apply elem_of_nil in Hr.
  - apply bind_Ok_inv in Hv as (keep & Hkeep & Hv).
    apply bind_Ok_inv in Hv as (rest' & Hrest & [= <-]).
    destruct (IH _ Hrest) as (Hsub & Hall & Hin & Hidem).
    pose proof (validated_cases_test c keep Hkeep) as Hc.
    destruct keep.
    + assert (scored_at_least_8 c) as Hc8 by by apply Hc.
      split; [by apply sublist_skip |]. split; [by constructor |]. split.
      * intros r [-> | Hr]%elem_of_cons Hr8; [left | right; auto].
      * simpl. rewrite Hidem. simpl.
        assert (match col_finalScore c with PNone => Ok false | s => ge_num s 8 end
                = Ok true) as -> by exact Hkeep. done.
    + split; [by apply sublist_cons |]. split; [done |]. split; [| done].
      intros r [-> | Hr]%elem_of_cons Hr8; [| auto].
      apply Hc in Hr8. discriminate.
Qed.

(** ** generate_report_stats.py: the counters as counts of cases *)

Lemma case_effect_keys (py_repr : pyval -> string) (c : case) (e : effect) :
  case_effect py_repr c = Ok e ->
  (forall lvl, e_level e = lvl <-> eq_str (case_pearl c) lvl = true)
  /\ e_diff e = diff_normalized (case_difficulty c)
  /\ hash_key (case_label c) = Ok (e_label e)
  /\ (forall p, e_trap e = Some p
                <-> truthy (case_trap c) = true
                    /\ trap_prefix_of py_repr (case_trap c) = Ok p)
  /\ (forall r, e_range e = Some r
                <-> is_None (case_score c) = false /\ score_range (case_score c) = Ok r).
Proof.
  unfold case_effect, case_trap, case_score, case_pearl, case_difficulty, case_label.
  intros He.
  apply bind_Ok_inv in He as ([[[[pearl diff] lbl] trap] score] & -> & He).
  apply bind_Ok_inv in He as (kp & Hkp & He).
  apply bind_Ok_inv in He as (lvl & Hlvl & He).
  apply bind_Ok_inv in He as (kl & Hkl & He).
  apply bind_Ok_inv in He as (tp & Htp & He).
  apply bind_Ok_inv in He as (rg & Hrg & He).
  injection He as <-. cbn [e_level e_diff e_label e_trap e_range].
  apply level_key_Ok in Hlvl as [-> _]. apply hash_key_KStr in Hkp as ->.
  split; [| split; [done | split; [done | split]]].
  - intros lvl'. simpl. by rewrite String.eqb_eq.
  - intros p. destruct (truthy trap).
    + apply bind_Ok_inv in Htp as (p' & -> & [= <-]). split.
      * by intros [= ->].
      * by intros [_ [= ->]].
    + injection Htp as <-. split; [done | by intros [? _]].
  - intros r. destruct score; simpl;
      try (apply bind_Ok_inv in Hrg as (r' & Hr' & [= <-]); rewrite Hr'; split;
           [by intros [= ->] | by intros [_ [= ->]]]).
    injection Hrg as <-. split; [done | by intros [? _]].
Qed.

(** A counter that every case updates under the key [g] of its effect
    counts, under [k], the cases whose key is [k]. *)
Lemma counter_counts_cases {K : Type} `{Countable K}
    (py_repr : pyval -> string) (field : stats -> gmap K nat) (g : effect -> option K)
    (P : case -> Prop) `{!forall c, Decision (P c)} (k : K)
    (cases : list case) (source_name : string) (st : stats) :
  (forall st e, field (apply_effect st e) = incr_if (g e) (field st)) ->
  field (empty_stats (length cases)) = ∅ ->
  (forall c e, case_effect py_repr c = Ok e -> (g e = Some k <-> P c)) ->
  calculate_stats py_repr cases source_name = Ok st ->
  count_at k (field st) = length (filter P cases).
Proof.
  intros Hstep Hempty Hkey Hrun.
  apply (calculate_stats_effects py_repr) in Hrun as (es & Hes & ->).
  apply map_result_Forall2 in Hes.
  rewrite (foldl_apply_effect_field field g Hstep), count_at_foldl_incr_if, Hempty.
  unfold count_at at 1. rewrite lookup_empty. cbn [default]. rewrite Nat.add_0_l.
  symmetry.
  apply (length_filter_Forall2 (fun c e => case_effect py_repr c = Ok e) _ _ _ _ Hes).
  intros c e He. symmetry. by apply Hkey.
Qed.

Section counts_of_cases.
Variable py_repr : pyval -> string.
Variables (cases : list case) (source_name : string) (st : stats).
Hypothesis Hrun : calculate_stats py_repr cases source_name = Ok st.

Lemma pearl_level_count (lvl : string) :
  count_at (KStr lvl) (pearl_level st)
  = length (filter (fun c => eq_str (case_pearl c) lvl = true) cases).
Proof.
  apply (counter_counts_cases py_repr pearl_level (fun e => Some (KStr (e_level e))) _ _
           cases source_name); [done | done | | done].
  intros c e (Hl & _)%case_effect_keys. rewrite <- Hl. split; congruence.
Qed.

Lemma difficulty_count (d : string) :
  count_at d (difficulty st)
  = length (filter (fun c => diff_normalized (case_difficulty c) = d) cases).
Proof.
  apply (counter_counts_cases py_repr difficulty (fun e => Some (e_diff e)) _ _
           cases source_name); [done | done | | done].
  intros c e (_ & Hd & _)%case_effect_keys. rewrite Hd. split; congruence.
Qed.

Lemma score_range_count (r : string) :
  count_at r (score_ranges st)
  = length (filter (fun c => is_None (case_score c) = false
                             /\ score_range (case_score c) = Ok r) cases).
Proof.
  apply (counter_counts_cases py_repr score_ranges e_range _ _ cases source_name);
    [done | done | | done].
  intros c e (_ & _ & _ & _ & Hr)%case_effect_keys. apply Hr.
Qed.

End counts_of_cases.

(** X8: each counter of [calculate_stats] is a count of cases: the count of
    a pearl level, of a normalised difficulty, of a label, of a trap prefix
    or of a score range is the number of cases that have it. *)
Theorem counters_are_case_counts
    (py_repr : pyval -> string) (cases : list case) (source_name : string) (st : stats) :
  calculate_stats py_repr cases source_name = Ok st ->
  (forall lvl, count_at (KStr lvl) (pearl_level st)
               = length (filter (fun c => eq_str (case_pearl c) lvl = true) cases))
  /\ (forall d, count_at d (difficulty st)
                = length (filter (fun c => diff_normalized (case_difficulty c) = d) cases))
  /\ (forall k, count_at k (label st)
                = length (filter (fun c => hash_key (case_label c) = Ok k) cases))
  /\ (forall p, count_at p (trap_prefix st)
                = length (filter (fun c => truthy (case_trap c) = true
                                           /\ trap_prefix_of py_repr (case_trap c) = Ok p)
                            cases))
  /\ (forall r, count_at r (score_ranges st)
                = length (filter (fun c => is_None (case_score c) = false
                                           /\ score_range (case_score c) = Ok r) cases)).
Proof.
  intros Hrun.
  split; [intros lvl; by eapply pearl_level_count |].
  split; [intros d; by eapply difficulty_count |].
  split; [| split; [| intros r; by eapply score_range_count]].
  - intros k.
    apply (counter_counts_cases py_repr label (fun e => Some (e_label e)) _ _
             cases source_name); [done | done | | done].
    intros c e (_ & _ & Hk & _)%case_effect_keys. rewrite Hk. split; congruence.
  - intros p.
    apply (counter_counts_cases py_repr trap_prefix e_trap _ _ cases source_name);
      [done | done | | done].
    intros c e (_ & _ & _ & Ht & _)%case_effect_keys. apply Ht.
Qed.

(** ** generate_report_stats.py: printing *)

Section touch_facts.
Context {K : Type} `{Countable K}.

Lemma count_at_touch_all (ks : list K) (k : K) (m : gmap K nat) :
  count_at k (touch_all ks m) = count_at k m.
Proof. induction ks as [|k' ks IH]; simpl; [done |]. by rewrite count_at_touch. Qed.

Lemma touch_non_empty (k : K) (m : gmap K nat) : m <> ∅ -> touch k m <> ∅.
Proof.
  unfold touch. destruct (m !! k); [done |]. intros _. apply insert_non_empty.
Qed.

Lemma touch_all_non_empty (ks : list K) (m : gmap K nat) : m <> ∅ -> touch_all ks m <> ∅.
Proof. induction ks as [|k ks IH]; simpl; [done |]. intros Hm. by apply touch_non_empty, IH. Qed.

Lemma touch_idem (k : K) (m : gmap K nat) : touch k (touch k m) = touch k m.
Proof.
  unfold touch. destruct (m !! k) eqn:Hk; [by rewrite Hk |].
  by rewrite lookup_insert_eq.
Qed.

End touch_facts.

(** X10: printing a stage a second time prints the same lines: the reads of
    [print_stats] store missing keys with count 0, but change neither the
    total nor any count. *)
Theorem print_stats_repeatable (st : stats) (name name' : string) :
  let st' := snd (print_stats st name) in
  fst (print_stats st' name') = fst (print_stats st name')
  /\ total st' = total st
  /\ (forall k, count_at k (pearl_level st') = count_at k (pearl_level st))
  /\ (forall d, count_at d (difficulty st') = count_at d (difficulty st))
  /\ (forall r, count_at r (score_ranges st') = count_at r (score_ranges st)).
Proof.
  unfold print_stats. cbn [fst snd]. split; [| split; [done | split; [| split]]].
  - unfold print_stats_lines, print_stats_reads.
    cbn [total pearl_level difficulty label trap_prefix l1_labels l2_labels l3_labels
         score_ranges difficulty_by_level level_L1 level_L2 level_L3].
    unfold levels, difficulties, range_names, level_counts.
    cbn [map concat String.eqb Ascii.eqb Bool.eqb level_L1 level_L2 level_L3].
    rewrite !count_at_touch_all.
    destruct (decide (score_ranges st = ∅)) as [He|Hne].
    + by rewrite decide_True.
    + rewrite decide_False by by apply touch_all_non_empty.
      by rewrite !count_at_touch_all.
  - intros k. apply count_at_touch_all.
  - intros d. apply count_at_touch_all.
  - intros r. unfold print_stats_reads. cbn [score_ranges].
    case_decide; [done |]. apply count_at_touch_all.
Qed.

Lemma py_or_None_default (v : pyval) : truthy_or_None v -> py_or v PNone = v.
Proof. unfold py_or. intros [-> | ->]; done. Qed.

(** ** generate_report_stats.py: rows and dicts, cases that raise *)

Lemma count_case_fields (py_repr : pyval -> string) (st : stats) (c c' : case) :
  case_fields c = case_fields c' -> count_case py_repr st c = count_case py_repr st c'.
Proof. unfold count_case. by intros ->. Qed.

Lemma for_each_count_case_fields {A : Type} (py_repr : pyval -> string)
    (f g : A -> case) (l : list A) (st : stats) :
  Forall (fun x => case_fields (f x) = case_fields (g x)) l ->
  for_each (count_case py_repr) (map f l) st = for_each (count_case py_repr) (map g l) st.
Proof.
  intros Hl. revert st. induction Hl as [|x l Hx _ IH]; intros st; simpl; [done |].
  rewrite (count_case_fields py_repr st _ _ Hx).
  destruct (count_case py_repr st (g x)) as [st1|err]; simpl; [apply IH | done].
Qed.

(** X11: rows turned into dicts under their column names are counted like
    the rows themselves, provided the pearl level, the ground truth and the
    score of each row are [None] or truthy: the two shapes give the same
    statistics, or raise the same exception. *)
Theorem dict_of_row_counted_like_row
    (py_repr : pyval -> string) (rows : list row) (source_name : string) :
  Forall (fun r => truthy_or_None (col_pearlLevel r)
                   /\ truthy_or_None (col_groundTruth r)
                   /\ truthy_or_None (col_finalScore r)) rows ->
  calculate_stats py_repr (map (fun r => JsonCase (row_as_dict r)) rows) source_name
  = calculate_stats py_repr (map RowCase rows) source_name.
Proof.
  intros Hrows. unfold calculate_stats. rewrite !length_map.
  apply for_each_count_case_fields.
  eapply Forall_impl; [exact Hrows |]. intros r (Hp & Hg & Hs).
  unfold row_as_dict, case_fields. cbn [dict_get String.eqb Ascii.eqb Bool.eqb].
  by rewrite !py_or_None_default.
Qed.

Lemma map_result_Ok_Forall {A B : Type} (body : A -> result B) (l : list A) :
  (exists ys, map_result body l = Ok ys) <-> Forall (fun x => exists y, body x = Ok y) l.
Proof.
  induction l as [|x l IH]; simpl.
  - split; [constructor | eauto].
  - split.
    + intros (ys & Hys). apply bind_Ok_inv in Hys as (y & Hy & Hys).
      apply bind_Ok_inv in Hys as (ys' & Hys' & _).
      constructor; [eauto | apply IH; eauto].
    + intros Hall. apply Forall_cons in Hall as [(y & ->) (ys & ->)%IH]. simpl. eauto.
Qed.

Lemma calculate_stats_single (py_repr : pyval -> string) (c : case) (source_name : string) :
  (exists st, calculate_stats py_repr [c] source_name = Ok st)
  <-> exists e, case_effect py_repr c = Ok e.
Proof.
  split.
  - intros (st & (es & Hes & _)%calculate_stats_effects).
    simpl in Hes. apply bind_Ok_inv in Hes as (e & He & _). eauto.
  - intros (e & He). eexists. apply calculate_stats_effects.
    exists [e]. simpl. by rewrite He.
Qed.

Lemma calculate_stats_returns_iff
    (py_repr : pyval -> string) (cases : list case) (source_name : string) :
  (exists st, calculate_stats py_repr cases source_name = Ok st)
  <-> Forall (fun c => exists e, case_effect py_repr c = Ok e) cases.
Proof.
  rewrite <- map_result_Ok_Forall. split.
  - intros (st & (es & Hes & _)%calculate_stats_effects). eauto.
  - intros (es & Hes). eexists. apply calculate_stats_effects. eauto.
Qed.

(** X12: [calculate_stats] returns on a list of cases exactly when it
    returns on each of them alone: a single case that raises makes the
    whole stage raise, and nothing else does. *)
Theorem calculate_stats_all_or_nothing
    (py_repr : pyval -> string) (cases : list case) (source_name : string) :
  (exists st, calculate_stats py_repr cases source_name = Ok st)
  <-> Forall (fun c => exists st, calculate_stats py_repr [c] source_name = Ok st) cases.
Proof.
  rewrite calculate_stats_returns_iff.
  apply Forall_iff. intros c. symmetry. apply calculate_stats_single.
Qed.

Lemma bind_Raise_inv {A B : Type} (m : result A) (k : A -> result B) (e : pyerr) :
  (x ← m; k x) = Raise e -> m = Raise e \/ exists x, m = Ok x /\ k x = Raise e.
Proof. destruct m as [x|e']; simpl; [eauto | intros [= ->]; by left]. Qed.

Lemma map_result_Raise {A B : Type} (body : A -> result B) (l : list A) (e : pyerr) :
  map_result body l = Raise e -> exists x, x ∈ l /\ body x = Raise e.
Proof.
  induction l as [|x l IH]; simpl; [done |].
  intros [Hx | (y & Hy & Hrest)]%bind_Raise_inv.
  - exists x. split; [left | done].
  - apply bind_Raise_inv in Hrest as [Hl | (ys & _ & [=])].
    destruct (IH Hl) as (x' & Hin & Hx'). exists x'. split; [by right | done].
Qed.

Lemma case_effect_exceptions (py_repr : pyval -> string) (c : case) (e : pyerr) :
  case_effect py_repr c = Raise e -> e ∈ [TypeError; KeyError; AttributeError].
Proof.
  unfold case_effect. rewrite !elem_of_cons.
  intros [Hf | ([[[[pearl diff] lbl] trap] score] & _ & He)]%bind_Raise_inv.
  { destruct c as [[]|]; simpl in Hf; try discriminate; injection Hf as <-; auto. }
  apply bind_Raise_inv in He as [Hk | (kp & _ & He)].
  { destruct pearl; simpl in Hk; try discriminate; injection Hk as <-; auto. }
  apply bind_Raise_inv in He as [Hl | (lvl & _ & He)].
  { unfold level_key in Hl. destruct kp; try (injection Hl as <-; auto).
    destruct (bool_decide _); [discriminate | injection Hl as <-; auto]. }
  apply bind_Raise_inv in He as [Hk | (kl & _ & He)].
  { destruct lbl; simpl in Hk; try discriminate; injection Hk as <-; auto. }
  apply bind_Raise_inv in He as [Ht | (tp & _ & He)].
  { destruct (truthy trap); [| discriminate].
    apply bind_Raise_inv in Ht as [Ht | (p & _ & [=])].
    unfold trap_prefix_of in Ht. destruct (contains _ _); [| discriminate].
    destruct trap; try discriminate; injection Ht as <-; auto. }
  apply bind_Raise_inv in He as [Hr | (rg & _ & [=])].
  destruct score as [|b|q|s|l|d]; [discriminate | | | | |];
    apply bind_Raise_inv in Hr as [Hr | (r & _ & [=])].
  - destruct (score_range_returns (PBool b) _ eq_refl) as (r & Hr'). congruence.
  - destruct (score_range_returns (PNum q) _ eq_refl) as (r & Hr'). congruence.
  - injection Hr as <-. auto.
  - injection Hr as <-. auto.
  - injection Hr as <-. auto.
Qed.

(** X27: when [calculate_stats] raises, the exception is a [TypeError], a
    [KeyError] or an [AttributeError], and it is the exception that one of
    the cases raises when it is counted alone. *)
Theorem calculate_stats_exceptions
    (py_repr : pyval -> string) (cases : list case) (source_name : string) (e : pyerr) :
  calculate_stats py_repr cases source_name = Raise e ->
  e ∈ [TypeError; KeyError; AttributeError]
  /\ exists c, c ∈ cases /\ calculate_stats py_repr [c] source_name = Raise e.
Proof.
  unfold calculate_stats. rewrite for_each_count_case_effects.
  intros [Hes | (es & _ & [=])]%bind_Raise_inv.
  apply map_result_Raise in Hes as (c & Hc & He). split.
  - by eapply case_effect_exceptions.
  - exists c. split; [done |]. rewrite for_each_count_case_effects. simpl. by rewrite He.
Qed.

(** ** generate_report_stats.py: the validated stage *)

Lemma length_filter_sublist {A : Type} (P : A -> Prop) `{!forall x, Decision (P x)}
    (l1 l2 : list A) :
  l1 `sublist_of` l2 -> length (filter P l1) <= length (filter P l2).
Proof.
  induction 1 as [|x l1 l2 _ IH|x l1 l2 _ IH]; [done | |];
    rewrite ?filter_cons; destruct (decide (P x)); simpl; lia.
Qed.

Lemma score_range_at_least_8 (score : pyval) (q : Q) :
  as_number score = Some q -> (8 <= q)%Q ->
  exists r, score_range score = Ok r /\ r ∈ ["10.0"; "9.0-9.9"; "8.0-8.9"].
Proof.
  intros Hq H8. unfold score_range, eq_num, ge_num. rewrite Hq. simpl.
  destruct (Qeq_bool q 10); [eexists; split; [done | rewrite !elem_of_cons; auto] |].
  destruct (Qle_bool 9 q); [eexists; split; [done | rewrite !elem_of_cons; auto] |].
  apply Qle_bool_iff in H8. rewrite H8.
  eexists; split; [done | rewrite !elem_of_cons; auto].
Qed.

(** X13: when the statistics of the store are computed, those of its
    validated rows are computed too and never exceed them: the total and
    every pearl-level, difficulty and score-range count is at most that of
    the store.  Every validated row is in the score distribution, and none
    of them below 8. *)
Theorem validated_stage_bounded
    (py_repr : pyval -> string) (db_cases validated : list row)
    (name name' : string) (u : stats) :
  calculate_stats py_repr (map RowCase db_cases) name = Ok u ->
  validated_cases db_cases = Ok validated ->
  exists v,
    calculate_stats py_repr (map RowCase validated) name' = Ok v
    /\ total v <= total u
    /\ (forall lvl, count_at (KStr lvl) (pearl_level v) <= count_at (KStr lvl) (pearl_level u))
    /\ (forall d, count_at d (difficulty v) <= count_at d (difficulty u))
    /\ (forall r, count_at r (score_ranges v) <= count_at r (score_ranges u))
    /\ sum_values (score_ranges v) = total v
    /\ count_at "6.0-7.9" (score_ranges v) = 0
    /\ count_at "<6.0" (score_ranges v) = 0.
Proof.
  intros Hu Hv.
  destruct (validated_cases_scored _ _ Hv) as (Hsub & H8).
  assert (map RowCase validated `sublist_of` map RowCase db_cases) as Hsub'
    by by apply fmap_sublist.
  assert (exists v, calculate_stats py_repr (map RowCase validated) name' = Ok v) as (v & Hrun).
  { apply calculate_stats_returns_iff.
    assert (exists st, calculate_stats py_repr (map RowCase db_cases) name' = Ok st) as Hall
      by (exists u; exact Hu).
    apply calculate_stats_returns_iff in Hall.
    rewrite list.Forall_forall in Hall |- *. intros c Hc. apply Hall.
    by eapply elem_of_sublist. }
  exists v. split; [done |].
  pose proof (pearl_level_count _ _ _ _ Hu) as Hpu.
  pose proof (difficulty_count _ _ _ _ Hu) as Hdu.
  pose proof (score_range_count _ _ _ _ Hu) as Hru.
  pose proof (pearl_level_count _ _ _ _ Hrun) as Hpv.
  pose proof (difficulty_count _ _ _ _ Hrun) as Hdv.
  pose proof (score_range_count _ _ _ _ Hrun) as Hrv.
  pose proof (calculate_stats_sums _ _ _ _ Hu) as (Htu & _ & _).
  pose proof (calculate_stats_sums _ _ _ _ Hrun) as (Htv & _ & _).
  assert (Forall (fun c => exists q, as_number (case_score c) = Some q /\ (8 <= q)%Q)
                 (map RowCase validated)) as Hscored.
  { apply Forall_fmap. eapply Forall_impl; [exact H8 |]. by intros r Hr. }
  split; [| split; [| split; [| split; [| split; [| split]]]]].
  - rewrite Htu, Htv, !length_map. by apply sublist_length.
  - intros lvl. rewrite Hpu, Hpv. by apply length_filter_sublist.
  - intros d. rewrite Hdu, Hdv. by apply length_filter_sublist.
  - intros r. rewrite Hru, Hrv. by apply length_filter_sublist.
  - rewrite (score_ranges_sum _ _ _ _ Hrun), Htv.
    f_equal. clear -Hscored. induction Hscored as [|c l (q & Hq & _) _ IH]; [done |].
    rewrite filter_cons, decide_True; [by f_equal |]. by destruct (case_score c).
  - rewrite Hrv. clear -Hscored. induction Hscored as [|c l (q & Hq & H8) _ IH]; [done |].
    rewrite filter_cons, decide_False; [done |]. intros [_ Hr].
    destruct (score_range_at_least_8 _ _ Hq H8) as (r & Hr' & Hin).
    rewrite Hr in Hr'. injection Hr' as <-. revert Hin. rewrite !elem_of_cons, elem_of_nil.
    intros [? | [? | [? | []]]]; discriminate.
  - rewrite Hrv. clear -Hscored. induction Hscored as [|c l (q & Hq & H8) _ IH]; [done |].
    rewrite filter_cons, decide_False; [done |]. intros [_ Hr].
    destruct (score_range_at_least_8 _ _ Hq H8) as (r & Hr' & Hin).
    rewrite Hr in Hr'. injection Hr' as <-. revert Hin. rewrite !elem_of_cons, elem_of_nil.
    intros [? | [? | [? | []]]]; discriminate.
Qed.

(** ** dataset_analysis.py: paths, white space and words *)

Lemma dict_get_default (d : list (string * pyval)) (k : string) (default default' : pyval) :
  dict_has d k = true -> dict_get d k default = dict_get d k default'.
Proof.
  induction d as [|[k' v] d IH]; simpl; [done |].
  destruct (String.eqb k' k); [done | apply IH].
Qed.

Lemma dict_get_missing (d : list (string * pyval)) (k : string) (default : pyval) :
  dict_has d k = false -> dict_get d k default = default.
Proof.
  induction d as [|[k' v] d IH]; simpl; [done |].
  destruct (String.eqb k' k); [done | apply IH].
Qed.

Lemma _get_paths (q : pyval) (path : list string) (default : pyval) :
  (has_path q path = false -> _get q path default = default)
  /\ (has_path q path = true ->
      forall default', _get q path default' = _get q path default)
  /\ (forall d key, q = PDict d -> path = [key] ->
      _get q path default = dict_get d key default).
Proof.
  split; [| split].
  - revert q. induction path as [|key path IH]; intros q; simpl; [done |].
    destruct q as [| | | | |d]; try done.
    destruct (dict_has d key); simpl; [apply IH | done].
  - revert q. induction path as [|key path IH]; intros q; simpl; [done |].
    destruct q as [| | | | |d]; try done.
    destruct (dict_has d key); simpl; [apply IH | done].
  - intros d key -> ->. simpl. destruct (dict_has d key) eqn:Hk.
    + by apply dict_get_default.
    + by rewrite dict_get_missing.
Qed.

Lemma _get_app (q : pyval) (p1 p2 : list string) (default : pyval) :
  has_path q p1 = true ->
  _get q (p1 ++ p2) default = _get (_get q p1 default) p2 default.
Proof.
  revert q. induction p1 as [|key p1 IH]; intros q; simpl; [done |].
  destruct q as [| | | | |d]; try done.
  destruct (dict_has d key); simpl; [apply IH | done].
Qed.

(** X14: [_get] uses the default only when the path is missing: it returns
    the default when a key of the path is not found, and otherwise a value
    that does not depend on the default (a stored [None] is returned as
    [None]).  On a single key it agrees with [dict.get], and a path that is
    found can be followed in two steps. *)
Theorem _get_default_only_when_missing (q : pyval) (path : list string) (default : pyval) :
  (has_path q path = false -> _get q path default = default)
  /\ (has_path q path = true ->
      forall default', _get q path default' = _get q path default)
  /\ (forall d key, q = PDict d -> path = [key] ->
      _get q path default = dict_get d key default)
  /\ (has_path q path = true ->
      forall path', _get q (path ++ path') default
                    = _get (_get q path default) path' default).
Proof.
  destruct (_get_paths q path default) as (Hmiss & Hfound & Hone).
  split; [done |]. split; [done |]. split; [done |].
  intros Hp path'. by apply _get_app.
Qed.

Lemma lstrip_blank_app (ws s : string) : blank ws = true -> lstrip (ws ++ s) = lstrip s.
Proof.
  induction ws as [|c ws IH]; simpl; [done |].
  intros [-> Hws]%andb_true_iff. by apply IH.
Qed.

Lemma rstrip_blank (ws : string) : blank ws = true -> rstrip ws = "".
Proof.
  induction ws as [|c ws IH]; simpl; [done |].
  intros [Hc Hws]%andb_true_iff. by rewrite IH, Hc.
Qed.

Lemma rstrip_app_blank (s ws : string) : blank ws = true -> rstrip (s ++ ws) = rstrip s.
Proof.
  intros Hws. induction s as [|c s IH]; simpl; [by apply rstrip_blank |].
  by rewrite IH.
Qed.

Lemma lstrip_blank (ws : string) : blank ws = true -> lstrip ws = "".
Proof.
  induction ws as [|c ws IH]; simpl; [done |].
  intros [-> Hws]%andb_true_iff. by apply IH.
Qed.

Lemma strip_app_blank (s ws : string) : blank ws = true -> strip (s ++ ws) = strip s.
Proof.
  intros Hws. unfold strip. induction s as [|c s IH].
  - simpl. by rewrite lstrip_blank.
  - change (String c s +:+ ws) with (String c (s +:+ ws)). cbn [lstrip].
    destruct (is_space c); [done |].
    change (String c (s +:+ ws)) with (String c s +:+ ws). by apply rstrip_app_blank.
Qed.

(** Surrounding white space does not matter to [strip]. *)
Lemma strip_surrounded (ws s ws' : string) :
  blank ws = true -> blank ws' = true -> strip (ws ++ s ++ ws') = strip s.
Proof.
  intros Hws Hws'. unfold strip. rewrite lstrip_blank_app by done.
  by apply strip_app_blank.
Qed.

Lemma rstrip_head (c : ascii) (s : string) :
  is_space c = false -> exists r, rstrip (String c s) = String c r.
Proof. intros Hc. simpl. rewrite Hc. destruct (rstrip s); eauto. Qed.

Lemma rstrip_idem (s : string) : rstrip (rstrip s) = rstrip s.
Proof.
  induction s as [|c s IH]; simpl; [done |].
  destruct (rstrip s) as [|d r] eqn:Hr.
  - destruct (is_space c) eqn:Hc; simpl; [done | by rewrite Hc].
  - change (rstrip (String c (String d r))) with
      (match rstrip (String d r) with
       | "" => if is_space c then "" else String c ""
       | r' => String c r'
       end).
    by rewrite IH.
Qed.

Lemma lstrip_head (s : string) :
  lstrip s = "" \/ exists c r, lstrip s = String c r /\ is_space c = false.
Proof.
  induction s as [|c s IH]; simpl; [by left |].
  destruct (is_space c) eqn:Hc; [done | right; eauto].
Qed.

Lemma strip_idem (s : string) : strip (strip s) = strip s.
Proof.
  unfold strip. destruct (lstrip_head s) as [-> | (c & r & -> & Hc)]; [done |].
  destruct (rstrip_head c r Hc) as (r' & Hr'). rewrite Hr'.
  cbn [lstrip]. rewrite Hc, <- Hr'. apply rstrip_idem.
Qed.

Section norm_facts.
Variable py_repr : pyval -> string.

(** X15: white space around a text does not matter to the normalisations
    of dataset_analysis: [_norm_str] and [_norm_difficulty] give the same
    result with and without it, and [_norm_str] is idempotent on strings. *)
Theorem normalisation_ignores_surrounding_space (ws s ws' : string) :
  blank ws = true -> blank ws' = true ->
  _norm_str py_repr (PStr (ws ++ s ++ ws')) = _norm_str py_repr (PStr s)
  /\ _norm_str py_repr (PStr (_norm_str py_repr (PStr s))) = _norm_str py_repr (PStr s)
  /\ _norm_difficulty py_repr (PStr (ws ++ s ++ ws')) = _norm_difficulty py_repr (PStr s).
Proof.
  intros Hws Hws'. unfold _norm_difficulty, _norm_str.
  rewrite strip_idem, strip_surrounded by done. done.
Qed.

End norm_facts.

Lemma split_from_blank (word ws : string) :
  blank ws = true -> split_from word ws = match word with "" => [] | _ => [word] end.
Proof.
  revert word. induction ws as [|c ws IH]; intros word; simpl; [done |].
  intros [-> Hws]%andb_true_iff. destruct word; by rewrite IH.
Qed.

Lemma split_from_app_space (a word : string) (c : ascii) (b : string) :
  is_space c = true ->
  split_from word (a +:+ String c b) = split_from word a ++ split_from "" b.
Proof.
  intros Hc. revert word. induction a as [|d a IH]; intros word.
  - simpl. rewrite Hc. by destruct word.
  - change (String d a +:+ String c b) with (String d (a +:+ String c b)).
    cbn [split_from]. destruct (is_space d).
    + destruct word; by rewrite IH.
    + apply IH.
Qed.

Lemma split_from_blank_app (ws b : string) :
  blank ws = true -> split_from "" (ws +:+ b) = split_from "" b.
Proof.
  induction ws as [|c ws IH]; simpl; [done |].
  intros [-> Hws]%andb_true_iff. by apply IH.
Qed.

Lemma split_from_app_blank (a ws word : string) :
  blank ws = true -> split_from word (a +:+ ws) = split_from word a.
Proof.
  intros Hws. revert word. induction a as [|d a IH]; intros word.
  - simpl. by apply split_from_blank.
  - change (String d a +:+ ws) with (String d (a +:+ ws)).
    cbn [split_from]. destruct (is_space d).
    + destruct word; by rewrite IH.
    + apply IH.
Qed.

Lemma split_sep (a sep b : string) :
  blank sep = true -> sep <> "" -> split (a +:+ sep +:+ b) = split a ++ split b.
Proof.
  unfold split. destruct sep as [|c sep]; [done |]. simpl.
  intros [Hc Hsep]%andb_true_iff _.
  change (String c sep +:+ b) with (String c (sep +:+ b)).
  by rewrite split_from_app_space, split_from_blank_app.
Qed.

Lemma append_String (c : ascii) (s t : string) : String c s +:+ t = String c (s +:+ t).
Proof. reflexivity. Qed.

Lemma lstrip_decompose (s : string) : exists ws, blank ws = true /\ s = ws +:+ lstrip s.
Proof.
  induction s as [|c s (ws & Hws & IH)]; simpl; [exists EmptyString; split; reflexivity |].
  destruct (is_space c) eqn:Hc.
  - exists (String c ws). simpl. rewrite Hc, Hws, append_String. split; [done | by f_equal].
  - exists EmptyString; split; reflexivity.
Qed.

Lemma rstrip_decompose (s : string) : exists ws, blank ws = true /\ s = rstrip s +:+ ws.
Proof.
  induction s as [|c s (ws & Hws & IH)]; simpl; [exists EmptyString; split; reflexivity |].
  destruct (rstrip s) as [|d r] eqn:Hr.
  - destruct (is_space c) eqn:Hc.
    + exists (String c ws). simpl. rewrite Hc, Hws. split; [done |].
      change ("" +:+ String c ws) with (String c ("" +:+ ws)). by f_equal.
    + exists ws. split; [done |]. rewrite append_String. by f_equal.
  - exists ws. split; [done |]. rewrite append_String. by f_equal.
Qed.

Lemma split_strip (s : string) : split (strip s) = split s.
Proof.
  unfold split, strip.
  destruct (lstrip_decompose s) as (ws & Hws & Hs).
  destruct (rstrip_decompose (lstrip s)) as (ws' & Hws' & Hl).
  rewrite Hs at 2. rewrite split_from_blank_app by done.
  rewrite Hl at 2. by rewrite split_from_app_blank.
Qed.

Lemma split_from_nil (word s : string) :
  split_from word s = [] <-> word = "" /\ blank s = true.
Proof.
  revert word. induction s as [|c s IH]; intros word; simpl.
  - destruct word; split; try done. by intros [? _].
  - destruct (is_space c); simpl.
    + destruct word.
      * rewrite IH. tauto.
      * split; [done | by intros [? _]].
    + rewrite IH. split; [| by intros [_ ?]].
      intros [Hw _]. by destruct word.
Qed.

Lemma _word_count_str (s : string) : _word_count (PStr s) = Ok (length (split s)).
Proof.
  unfold _word_count, py_or. simpl. destruct (String.eqb_spec s "") as [->|]; done.
Qed.

(** X16: the word count is additive: the count of two texts joined by white
    space is the sum of their counts, and stripping a text does not change
    its count. *)
Theorem _word_count_additive (a sep b : string) :
  blank sep = true -> sep <> "" ->
  exists n m,
    _word_count (PStr a) = Ok n /\ _word_count (PStr b) = Ok m
    /\ _word_count (PStr (a ++ sep ++ b)) = Ok (n + m)
    /\ _word_count (PStr (strip a)) = Ok n.
Proof.
  intros Hsep Hne. exists (length (split a)), (length (split b)).
  rewrite !_word_count_str, split_sep, split_strip, length_app by done. done.
Qed.

(** X17: [_word_count] returns 0 exactly on a falsy value or on a string of
    white space, and it raises exactly on a truthy value that is not a
    string, always an [AttributeError]. *)
Theorem _word_count_zero_iff (text : pyval) :
  (_word_count text = Ok 0
   <-> truthy text = false \/ exists s, text = PStr s /\ blank s = true)
  /\ ((exists e, _word_count text = Raise e)
      <-> truthy text = true /\ forall s, text <> PStr s)
  /\ (forall e, _word_count text = Raise e -> e = AttributeError).
Proof.
  destruct text as [|b|q|s|l|d].
  - split; [| split]; [split; [by left | done] | split | done].
    + by intros [e ?].
    + by intros [? _].
  - unfold _word_count, py_or. destruct b; simpl; (split; [| split]).
    + split; [done |]. by intros [? | (s & ? & _)].
    + split; [done | eauto].
    + by intros e [= <-].
    + split; [by left | done].
    + split; [by intros [e ?] | by intros [? _]].
    + done.
  - unfold _word_count, py_or. simpl. destruct (Qeq_bool q 0); simpl; (split; [| split]).
    + split; [by left | done].
    + split; [by intros [e ?] | by intros [? _]].
    + done.
    + split; [done |]. by intros [? | (s & ? & _)].
    + split; [done | eauto].
    + by intros e [= <-].
  - rewrite _word_count_str. split; [| split].
    + split.
      * intros [= Hlen]. right. exists s. split; [done |].
        apply length_zero_iff_nil in Hlen. by apply split_from_nil in Hlen as [_ ?].
      * intros [Hs | (s' & [= <-] & Hb)].
        -- simpl in Hs. apply negb_false_iff, String.eqb_eq in Hs as ->. done.
        -- f_equal. apply length_zero_iff_nil. by apply split_from_nil.
    + split; [by intros [e ?] |]. intros [_ Hs]. by destruct (Hs s).
    + done.
  - unfold _word_count, py_or. destruct l as [|x l]; simpl; (split; [| split]).
    + split; [by left | done].
    + split; [by intros [e ?] | by intros [? _]].
    + done.
    + split; [done |]. by intros [? | (s & ? & _)].
    + split; [done | eauto].
    + by intros e [= <-].
  - unfold _word_count, py_or. destruct d as [|x d]; simpl; (split; [| split]).
    + split; [by left | done].
    + split; [by intros [e ?] | by intros [? _]].
    + done.
    + split; [done |]. by intros [? | (s & ? & _)].
    + split; [done | eauto].
    + by intros e [= <-].
Qed.

(** ** dataset_analysis.py: the files and the buckets of the loader *)

Lemma glob_combined_read (data_dir : list file) :
  glob_combined (filter (fun f => read_by_loader f = true) data_dir) = glob_combined data_dir.
Proof.
  unfold glob_combined. rewrite list_filter_filter. apply list_filter_iff.
  intros f. unfold read_by_loader.
  destruct (ends_with ".json" (name f)), (String.prefix "combined" (name f)),
    (is_combined f); simpl; intuition congruence.
Qed.

Lemma per_author_read (data_dir : list file) :
  per_author_files (glob_json (filter (fun f => read_by_loader f = true) data_dir))
  = per_author_files (glob_json data_dir).
Proof.
  unfold per_author_files, glob_json. rewrite !list_filter_filter. apply list_filter_iff.
  intros f. unfold read_by_loader.
  destruct (ends_with ".json" (name f)), (String.prefix "combined" (name f)),
    (is_combined f); simpl; intuition congruence.
Qed.

Lemma primary_pass_sorted_per_author (data_dir : list file) st :
  for_each load_file (sorted (glob_json data_dir)) st
  = for_each load_file (sorted (per_author_files (glob_json data_dir))) st.
Proof.
  rewrite (primary_pass_skips_combined (sorted (glob_json data_dir))).
  unfold per_author_files. by rewrite filter_sorted.
Qed.

Lemma filter_none {A : Type} (f : A -> bool) (l : list A) :
  Forall (fun x => f x = false) l -> filter (fun x => f x = true) l = [].
Proof.
  induction 1 as [|x l Hx _ IH]; [done |].
  rewrite filter_cons. rewrite decide_False; [done | by rewrite Hx].
Qed.

(** X18: the result of the loader depends only on the [*.json] entries that
    one of its passes can open: the files whose name does not contain
    [combined] in any case, and the files named [combined*.json].  Without
    such an entry the loader returns no record, whatever else the directory
    holds (a file named [Combined.json], say, is never read). *)
Theorem _load_questions_reads_only (data_dir : list file) :
  _load_questions data_dir
  = _load_questions (filter (fun f => read_by_loader f = true) data_dir)
  /\ (Forall (fun f => read_by_loader f = false) data_dir ->
      _load_questions data_dir = Ok ([], ∅)).
Proof.
  assert (_load_questions data_dir
          = _load_questions (filter (fun f => read_by_loader f = true) data_dir)) as Heq.
  { unfold _load_questions.
    rewrite (primary_pass_sorted_per_author data_dir),
      (primary_pass_sorted_per_author (filter _ data_dir)), per_author_read.
    destruct (for_each load_file _ _) as [[all0 by0]|err]; simpl; [| done].
    by rewrite glob_combined_read. }
  split; [done |]. intros Hnone. rewrite Heq.
  by rewrite (filter_none read_by_loader data_dir Hnone).
Qed.

(** X28: when the per-author files hold a record, loading a directory with
    its combined files yields the very records and author buckets of its
    per-author files alone: every file whose lower-cased name contains
    "combined" is passed over by the primary pass, and no record is counted
    twice.  The same holds when the per-author files hold no record and
    there is no [combined*.json] file, or the first one is an object
    without records. *)
Theorem combined_file_not_double_counted
    (data_dir : list file) (all_questions : list pyval)
    (by_author : gmap pkey (list pyval)) :
  _load_questions (per_author_files data_dir) = Ok (all_questions, by_author) ->
  (all_questions = [] ->
   glob_combined data_dir = []
   \/ (exists f rest, glob_combined data_dir = f :: rest /\ object_records f [])) ->
  _load_questions data_dir = Ok (all_questions, by_author)
  /\ forall f st, contains "combined" (lower (name f)) = true -> load_file st f = Ok st.
Proof.
  intros Hrun Hempty. split.
  - destruct all_questions as [|q all_questions].
    + by apply combined_file_without_records; [| apply Hempty].
    + revert Hrun. unfold _load_questions. intros Hrun.
      apply bind_Ok_inv in Hrun as ([all0 by0] & Hprimary & Hfallback).
      rewrite primary_pass_per_author in Hprimary. rewrite Hprimary. simpl.
      unfold load_combined in Hfallback.
      rewrite glob_combined_per_author in Hfallback.
      destruct all0 as [|q0 all0]; [discriminate |]. by injection Hfallback as <- <- <-.
  - intros f st Hf. by apply load_file_combined.
Qed.

Lemma combined_file_not_double_counted_witness :
  _load_questions dir_both = _load_questions (per_author_files dir_both).
Proof.
  assert (_load_questions (per_author_files dir_both) = Ok loaded_primary) as Hrun
    by (reflexivity).
  rewrite Hrun.
  refine (proj1 (combined_file_not_double_counted dir_both (fst loaded_primary)
                   (snd loaded_primary) Hrun _)).
  discriminate.
Defined.

Lemma string_leb_antisym (s t : string) :
  String.leb s t = true -> String.leb t s = true -> s = t.
Proof.
  rewrite !string_leb_iff. intros [Hst | ->] [Hts | Heq]; try done.
  pose proof (string_compare_Lt_trans _ _ _ Hst Hts) as Hss.
  by rewrite string_compare_refl in Hss.
Qed.

Lemma insert_sorted_Permutation (f : file) (l : list file) : insert_sorted f l ≡ₚ f :: l.
Proof.
  induction l as [|g l IH]; simpl; [done |].
  destruct (String.leb (name f) (name g)); [done |].
  rewrite IH. apply perm_swap.
Qed.

Lemma sorted_Permutation (l : list file) : sorted l ≡ₚ l.
Proof.
  induction l as [|f l IH]; simpl; [done |].
  by rewrite insert_sorted_Permutation, IH.
Qed.

Lemma sorted_unique (l l' : list file) :
  StronglySorted name_le l -> StronglySorted name_le l' ->
  l ≡ₚ l' -> NoDup (map name l) -> l = l'.
Proof.
  intros Hl. revert l'. induction Hl as [|x l Hl IH Hx]; intros l' Hl' Hperm Hnd.
  - by apply Permutation_nil_l in Hperm.
  - destruct Hl' as [|y l' Hl' Hy].
    { by apply Permutation_nil_r in Hperm. }
    assert (x = y) as <-.
    { assert (y ∈ x :: l) as Hyin by (rewrite Hperm; left).
      assert (x ∈ y :: l') as Hxin by (rewrite <- Hperm; left).
      apply elem_of_cons in Hyin as [-> | Hyin]; [done |].
      apply elem_of_cons in Hxin as [-> | Hxin]; [done |].
      rewrite Forall_forall in Hx, Hy.
      pose proof (string_leb_antisym _ _ (Hx y Hyin) (Hy x Hxin)) as Hname.
      simpl in Hnd. apply NoDup_cons in Hnd as [Hnotin _].
      exfalso. apply Hnotin. rewrite Hname. by apply list_elem_of_fmap_2. }
    f_equal. apply IH; [done | by apply Permutation_cons_inv in Hperm |].
    simpl in Hnd. by apply NoDup_cons in Hnd as [_ ?].
Qed.

Lemma NoDup_names_filter (P : file -> Prop) `{!forall f, Decision (P f)} (l : list file) :
  NoDup (map name l) -> NoDup (map name (filter P l)).
Proof.
  induction l as [|f l IH]; simpl; [done |].
  intros [Hf Hl]%NoDup_cons. rewrite filter_cons. destruct (decide (P f)); [| auto].
  simpl. apply NoDup_cons. split; [| auto].
  intros (g & Hg & [_ Hin]%list_elem_of_filter)%list_elem_of_fmap.
  apply Hf. rewrite Hg. by apply list_elem_of_fmap_2.
Qed.

(** X19: the result of the loader does not depend on the order in which
    the directory lists its entries, when their names are distinct and at
    most one of them is named [combined*.json]. *)
Theorem _load_questions_listing_order (data_dir data_dir' : list file) :
  data_dir ≡ₚ data_dir' ->
  NoDup (map name data_dir) ->
  length (glob_combined data_dir) <= 1 ->
  _load_questions data_dir = _load_questions data_dir'.
Proof.
  intros Hperm Hnd Hone. unfold _load_questions.
  assert (sorted (glob_json data_dir) = sorted (glob_json data_dir')) as ->.
  { apply sorted_unique; try apply sorted_StronglySorted.
    - rewrite !sorted_Permutation. unfold glob_json. by rewrite Hperm.
    - rewrite sorted_Permutation. unfold glob_json. by apply NoDup_names_filter. }
  assert (glob_combined data_dir = glob_combined data_dir') as Hg.
  { assert (glob_combined data_dir ≡ₚ glob_combined data_dir') as Hp
      by (unfold glob_combined; by rewrite Hperm).
    destruct (glob_combined data_dir) as [|f [|g l]]; simpl in Hone.
    - by apply Permutation_nil_l in Hp.
    - by apply Permutation_singleton_l in Hp.
    - lia. }
  destruct (for_each load_file _ _) as [[all0 by0]|err]; simpl; [| done].
  by rewrite Hg.
Qed.

Lemma extend_all_lookup (kvs : list (pkey * list pyval)) (m : gmap pkey (list pyval))
    (k : pkey) :
  default [] (extend_all kvs m !! k)
  = default [] (m !! k) ++ concat (map snd (filter (fun kv => fst kv = k) kvs))
  /\ (is_Some (extend_all kvs m !! k)
      <-> is_Some (m !! k) \/ exists kv, kv ∈ kvs /\ fst kv = k).
Proof.
  unfold extend_all. revert m. induction kvs as [|[k' qs] kvs IH]; intros m; simpl.
  - rewrite app_nil_r. split; [done |]. split; [by left |].
    intros [? | (kv & Hkv & _)]; [done | by apply elem_of_nil in Hkv].
  - destruct (IH (extend_at k' qs m)) as [Hd Hs]. rewrite Hd, Hs. clear IH Hd Hs.
    rewrite filter_cons. unfold extend_at. simpl.
    destruct (decide (k' = k)) as [->|Hne].
    + rewrite lookup_insert_eq. simpl. rewrite <- app_assoc. split; [done |].
      split; [| eauto]. intros _. right. exists (k, qs). split; [left | done].
    + rewrite lookup_insert_ne by done. split; [done |]. split.
      * intros [? | (kv & Hkv & Hk)]; [by left |]. right. exists kv. split; [by right | done].
      * intros [? | (kv & [-> | Hkv]%elem_of_cons & Hk)]; [by left | done |]. right. eauto.
Qed.

Lemma filter_map_key {A : Type} (key : A -> pkey) (val : A -> list pyval) (k : pkey)
    (l : list A) :
  concat (map snd (filter (fun kv => fst kv = k) (map (fun x => (key x, val x)) l)))
  = concat (map val (filter (fun x => key x = k) l)).
Proof.
  induction l as [|x l IH]; simpl; [done |].
  rewrite !filter_cons. simpl. destruct (decide (key x = k)); simpl; by rewrite IH.
Qed.

Lemma file_records_of (f : file) (records : list pyval) :
  file_records f records -> records_of f = records.
Proof.
  unfold file_records, records_of. intros [-> | (d & -> & ->)]; done.
Qed.

Lemma primary_pass_closed (files : list file) (st : list pyval * gmap pkey (list pyval)) :
  Forall (fun f => is_combined f = false) files ->
  Forall (fun f => file_records f (records_of f)) files ->
  for_each load_file files st
  = Ok (fst st ++ concat (map records_of files),
        extend_all (map (fun f => (KStr (author_key f), records_of f)) files) (snd st)).
Proof.
  intros Hc Hr. revert st. induction Hc as [|f files Hf _ IH]; intros st.
  - simpl. rewrite app_nil_r. by destruct st.
  - apply Forall_cons in Hr as [Hfr Hr]. cbn [for_each].
    rewrite (load_file_both_shapes f st _ Hf Hfr). simpl.
    rewrite (IH Hr). simpl. by rewrite <- app_assoc.
Qed.

(** X20: with per-author files in one of the two shapes (and a record in
    one of them, or no [combined*.json] file), the loader returns their
    records in the order of the file names, and the bucket of an author
    holds the records of the files of that author, in that order; there is
    a bucket for each per-author file and no other. *)
Theorem per_author_buckets_closed_form (data_dir : list file) :
  let files := sorted (per_author_files (glob_json data_dir)) in
  Forall (fun f => file_records f (records_of f)) files ->
  concat (map records_of files) <> [] \/ glob_combined data_dir = [] ->
  exists by_author,
    _load_questions data_dir = Ok (concat (map records_of files), by_author)
    /\ forall k,
         default [] (by_author !! k)
         = concat (map records_of (filter (fun f => KStr (author_key f) = k) files))
         /\ (is_Some (by_author !! k) <-> exists f, f ∈ files /\ KStr (author_key f) = k).
Proof.
  intros files Hshape Hfallback.
  exists (extend_all (map (fun f => (KStr (author_key f), records_of f)) files) ∅). split.
  - unfold _load_questions. rewrite primary_pass_sorted_per_author. fold files.
    rewrite primary_pass_closed; [| | done].
    + simpl. destruct (concat (map records_of files)) as [|q qs] eqn:Hqs; [| done].
      destruct Hfallback as [? | ->]; done.
    + apply sorted_Forall. unfold per_author_files.
      apply list.Forall_forall. by intros f [? _]%list_elem_of_filter.
  - intros k.
    destruct (extend_all_lookup (map (fun f => (KStr (author_key f), records_of f)) files)
                ∅ k) as [Hd Hs].
    rewrite Hd, Hs, lookup_empty, filter_map_key. simpl. split; [done |]. split.
    + intros [[? ?] | ((k' & qs) & Hkv & Hk)]; [done |].
      apply list_elem_of_fmap in Hkv as (f & [= -> ->] & Hf). eauto.
    + intros (f & Hf & Hk). right. exists (KStr (author_key f), records_of f).
      split; [| done]. by apply (list_elem_of_fmap_2 (fun f => (KStr (author_key f), records_of f))).
Qed.

Lemma group_by_author_author_name (by_author : gmap pkey (list pyval)) (q : pyval) :
  group_by_author by_author q = (k ← author_name q; Ok (extend_at k [q] by_author)).
Proof.
  destruct q as [| | | | |d]; try done. simpl.
  destruct (hash_key (dict_get d "author" (PStr "Unknown"))); done.
Qed.

Lemma fallback_closed (records : list pyval) (by_author : gmap pkey (list pyval)) :
  Forall usual_record records ->
  exists keys,
    map_result author_name records = Ok keys
    /\ for_each group_by_author records by_author
       = Ok (extend_all (zip keys (map (fun q => [q]) records)) by_author).
Proof.
  intros Hr. revert by_author. induction Hr as [|q records Hq _ IH]; intros by_author.
  - exists []. done.
  - assert (exists k, author_name q = Ok k) as (k & Hk).
    { destruct Hq as (d & k & -> & Hk). simpl. rewrite Hk. simpl. eauto. }
    destruct (IH (extend_at k [q] by_author)) as (keys & Hkeys & Hrun).
    exists (k :: keys). cbn [map_result for_each].
    rewrite group_by_author_author_name, Hk, Hkeys. simpl. by rewrite Hrun.
Qed.

Lemma filter_zip_keys (records : list pyval) (keys : list pkey) (k : pkey) :
  map_result author_name records = Ok keys ->
  concat (map snd (filter (fun kv => fst kv = k) (zip keys (map (fun q => [q]) records))))
  = filter (fun q => author_name q = Ok k) records
  /\ ((exists kv, kv ∈ zip keys (map (fun q => [q]) records) /\ fst kv = k)
      <-> exists q, q ∈ records /\ author_name q = Ok k).
Proof.
  revert keys. induction records as [|q records IH]; intros keys; simpl.
  - intros [= <-]. split; [done |].
    split; intros (? & Hin & _); by apply elem_of_nil in Hin.
  - intros (k' & Hk' & Hrest)%bind_Ok_inv.
    apply bind_Ok_inv in Hrest as (keys' & Hkeys' & [= <-]).
    destruct (IH _ Hkeys') as [IHf IHe]. simpl. rewrite !filter_cons, Hk'. simpl. split.
    + destruct (decide (k' = k)) as [->|Hne].
      * rewrite decide_True by done. simpl. by rewrite IHf.
      * rewrite decide_False by congruence. done.
    + split.
      * intros (kv & [-> | Hin]%elem_of_cons & Hk).
        -- exists q. split; [left | by simpl in Hk; subst].
        -- destruct (proj1 IHe) as (q' & Hq' & Ha); [eauto |].
           exists q'. split; [by right | done].
      * intros (q' & [-> | Hin]%elem_of_cons & Ha).
        -- exists (k', [q]). split; [left | simpl; congruence].
        -- destruct (proj2 IHe) as (kv & Hkv & Hk); [eauto |].
           exists kv. split; [by right | done].
Qed.

(** X21: without a per-author file, the loader returns the records of the
    first combined file (an object with usual records), and each bucket
    holds the records whose author resolves to its key, in the order of the
    file; the buckets are those of the authors that occur. *)
Theorem combined_buckets_closed_form
    (data_dir : list file) (f : file) (rest : list file) (records : list pyval) :
  per_author_files (glob_json data_dir) = [] ->
  glob_combined data_dir = f :: rest ->
  object_records f records ->
  Forall usual_record records ->
  exists by_author,
    _load_questions data_dir = Ok (records, by_author)
    /\ forall k,
         default [] (by_author !! k) = filter (fun q => author_name q = Ok k) records
         /\ (is_Some (by_author !! k) <-> exists q, q ∈ records /\ author_name q = Ok k).
Proof.
  intros Hnone Hg (d & Hc & Hq) Hrecords.
  destruct (fallback_closed records ∅ Hrecords) as (keys & Hkeys & Hrun).
  exists (extend_all (zip keys (map (fun q => [q]) records)) ∅). split.
  - unfold _load_questions. rewrite primary_pass_sorted_per_author, Hnone. simpl.
    unfold json_load. rewrite Hg, Hc. simpl. rewrite Hq. simpl. by rewrite Hrun.
  - intros k. destruct (extend_all_lookup (zip keys (map (fun q => [q]) records)) ∅ k)
      as [Hd Hs].
    destruct (filter_zip_keys records keys k Hkeys) as [Hf He].
    rewrite Hd, Hs, lookup_empty, Hf. simpl. split; [done |].
    rewrite <- He. split; [| by right]. intros [[? ?] | ?]; done.
Qed.

(** ** dataset_analysis.py: subdomains *)

Lemma is_cased_lower_ascii (c : ascii) : is_cased (lower_ascii c) = is_cased c.
Proof. by destruct c as [[] [] [] [] [] [] [] []]. Qed.

Lemma lower_ascii_idem (c : ascii) : lower_ascii (lower_ascii c) = lower_ascii c.
Proof. by destruct c as [[] [] [] [] [] [] [] []]. Qed.

Lemma upper_lower_ascii (c : ascii) : upper_ascii (lower_ascii c) = upper_ascii c.
Proof. by destruct c as [[] [] [] [] [] [] [] []]. Qed.

Lemma title_from_lower (b : bool) (s : string) : title_from b (lower s) = title_from b s.
Proof.
  revert b. induction s as [|c s IH]; intros b; simpl; [done |].
  rewrite is_cased_lower_ascii, IH, lower_ascii_idem, upper_lower_ascii. done.
Qed.

Lemma lower_append (s t : string) : lower (s +:+ t) = lower s +:+ lower t.
Proof. induction s as [|c s IH]; [done |]. rewrite !append_String. simpl. by rewrite IH, append_String. Qed.

Lemma lower_join (sep : string) (words : list string) :
  lower (join sep words) = join (lower sep) (map lower words).
Proof.
  unfold join. induction words as [|w words IH]; [done |].
  destruct words as [|w' words]; [done |].
  change (String.concat sep (w :: w' :: words))
    with (w +:+ sep +:+ String.concat sep (w' :: words)).
  change (String.concat (lower sep) (map lower (w :: w' :: words)))
    with (lower w +:+ lower sep +:+ String.concat (lower sep) (map lower (w' :: words))).
  by rewrite !lower_append, IH.
Qed.

Lemma strip_empty_iff (s : string) : strip s = "" <-> split s = [].
Proof.
  rewrite <- (split_strip s). split; [by intros -> |].
  unfold split. intros [_ Hb]%split_from_nil. unfold strip in *.
  destruct (lstrip_head s) as [Hl | (c & r & Hl & Hc)]; rewrite Hl in *; [done |].
  destruct (rstrip_head c r Hc) as (r' & Hr'). rewrite Hr' in Hb. simpl in Hb.
  by rewrite Hc in Hb.
Qed.

Section norm_subdomain_facts.
Variable py_repr : pyval -> string.

Lemma _norm_subdomain_str (s : string) :
  _norm_subdomain py_repr (PStr s)
  = match split s with [] => "UNKNOWN" | ws => title (join " " (map lower ws)) end.
Proof.
  unfold _norm_subdomain, _norm_str. rewrite split_strip.
  destruct (String.eqb_spec (strip s) "") as [He|Hne].
  - apply strip_empty_iff in He. by rewrite He.
  - destruct (split s) as [|w ws] eqn:Hs.
    + by apply strip_empty_iff in Hs.
    + unfold title. by rewrite <- (title_from_lower false (join " " (w :: ws))), lower_join.
Qed.

(** X22: [_norm_subdomain] depends only on the words of a text, and not on
    their letter case: two strings with the same words up to case get the
    same subdomain, whatever the white space around and between them. *)
Theorem _norm_subdomain_same_words (s t : string) :
  map lower (split s) = map lower (split t) ->
  _norm_subdomain py_repr (PStr s) = _norm_subdomain py_repr (PStr t).
Proof.
  intros Hw. rewrite !_norm_subdomain_str.
  destruct (split s) as [|w ws], (split t) as [|w' ws']; try done.
  by rewrite Hw.
Qed.

End norm_subdomain_facts.

Lemma no_space_app (s t : string) : no_space (s +:+ t) = no_space s && no_space t.
Proof.
  induction s as [|c s IH]; [done |]. rewrite append_String. simpl.
  by rewrite IH, andb_assoc.
Qed.

Lemma append_empty_r (s : string) : s +:+ "" = s.
Proof. induction s as [|c s IH]; [done |]. by rewrite append_String, IH. Qed.

Lemma append_assoc (s t u : string) : (s +:+ t) +:+ u = s +:+ t +:+ u.
Proof. induction s as [|c s IH]; [done |]. by rewrite !append_String, IH. Qed.

Lemma split_from_words (acc s : string) :
  no_space acc = true -> Forall word (split_from acc s).
Proof.
  revert acc. induction s as [|c s IH]; intros acc Hacc; simpl.
  - destruct acc; [constructor |]. by repeat constructor.
  - destruct (is_space c) eqn:Hc.
    + destruct acc; [by apply IH |]. constructor; [done | by apply IH].
    + apply IH. rewrite no_space_app, Hacc. simpl. by rewrite Hc.
Qed.

Lemma split_words (s : string) : Forall word (split s).
Proof. by apply split_from_words. Qed.

Lemma split_from_no_space (acc w t : string) :
  no_space w = true -> split_from acc (w +:+ t) = split_from (acc +:+ w) t.
Proof.
  revert acc. induction w as [|c w IH]; intros acc.
  - by rewrite append_empty_r.
  - cbn [no_space]. intros [Hc Hw]%andb_true_iff. apply negb_true_iff in Hc.
    rewrite append_String. cbn [split_from]. rewrite Hc, IH by done.
    by rewrite append_assoc.
Qed.

Lemma split_from_single (w : string) :
  w <> "" -> no_space w = true -> split_from "" w = [w].
Proof.
  intros Hne Hw. rewrite <- (append_empty_r w) at 1.
  rewrite split_from_no_space by done. destruct w; [done | reflexivity].
Qed.

Lemma split_join_words (ws : list string) : Forall word ws -> split (join " " ws) = ws.
Proof.
  unfold split, join. induction 1 as [|w ws [Hne Hw] Hws IH]; [done |].
  destruct ws as [|w' ws].
  - cbn [String.concat]. rewrite (split_from_single w) by done. done.
  - change (String.concat " " (w :: w' :: ws))
      with (w +:+ String " " (String.concat " " (w' :: ws))).
    rewrite split_from_app_space by done. rewrite IH.
    rewrite (split_from_single w) by done. done.
Qed.

Lemma is_space_upper_ascii (c : ascii) : is_space (upper_ascii c) = is_space c.
Proof. by destruct c as [[] [] [] [] [] [] [] []]. Qed.

Lemma is_cased_upper_ascii (c : ascii) : is_cased (upper_ascii c) = is_cased c.
Proof. by destruct c as [[] [] [] [] [] [] [] []]. Qed.

Lemma upper_ascii_idem (c : ascii) : upper_ascii (upper_ascii c) = upper_ascii c.
Proof. by destruct c as [[] [] [] [] [] [] [] []]. Qed.

Lemma title_from_app_space (b : bool) (w rest : string) :
  title_from b (w +:+ String " " rest)
  = title_from b w +:+ String " " (title_from false rest).
Proof.
  revert b. induction w as [|c w IH]; intros b.
  - simpl. by destruct b.
  - rewrite append_String. simpl. by rewrite IH, append_String.
Qed.

Lemma title_join (ws : list string) : title (join " " ws) = join " " (map title ws).
Proof.
  unfold title, join. induction ws as [|w ws IH]; [done |].
  destruct ws as [|w' ws]; [done |].
  change (String.concat " " (w :: w' :: ws))
    with (w +:+ String " " (String.concat " " (w' :: ws))).
  rewrite title_from_app_space, IH. done.
Qed.

Lemma title_from_idem (b : bool) (s : string) :
  title_from b (title_from b s) = title_from b s.
Proof.
  revert b. induction s as [|c s IH]; intros b; simpl; [done |].
  destruct b; rewrite ?is_cased_lower_ascii, ?is_cased_upper_ascii, IH,
    ?lower_ascii_idem, ?upper_ascii_idem; done.
Qed.

Lemma title_from_word (b : bool) (w : string) : word w -> word (title_from b w).
Proof.
  intros [Hne Hw]. split; [by destruct w |].
  clear Hne. revert b Hw. induction w as [|c w IH]; intros b; simpl; [done |].
  intros [Hc Hw]%andb_true_iff. rewrite IH by done.
  destruct b; by rewrite ?is_space_lower_ascii, ?is_space_upper_ascii, Hc.
Qed.

Lemma is_upper_upper_ascii (c : ascii) : is_upper (upper_ascii c) = true -> is_cased c = true.
Proof. by destruct c as [[] [] [] [] [] [] [] []]. Qed.

Lemma is_upper_lower_ascii (c : ascii) : is_upper (lower_ascii c) = false.
Proof. by destruct c as [[] [] [] [] [] [] [] []]. Qed.

(** A title never starts with two capital letters. *)
Lemma title_two_capitals (s : string) (c1 c2 : ascii) (r : string) :
  title s = String c1 (String c2 r) -> is_upper c1 = true -> is_upper c2 = false.
Proof.
  unfold title. destruct s as [|x [|y s]]; simpl; try done.
  intros [= <- <- _] Hx. apply is_upper_upper_ascii in Hx. rewrite Hx.
  apply is_upper_lower_ascii.
Qed.

Section norm_subdomain_more.
Variable py_repr : pyval -> string.

Lemma _norm_subdomain_words (s : string) :
  _norm_subdomain py_repr (PStr s)
  = match split s with [] => "UNKNOWN" | ws => join " " (map title ws) end.
Proof.
  unfold _norm_subdomain, _norm_str. rewrite split_strip.
  destruct (String.eqb_spec (strip s) "") as [He|Hne].
  - apply strip_empty_iff in He. by rewrite He.
  - destruct (split s) as [|w ws] eqn:Hs.
    + by apply strip_empty_iff in Hs.
    + apply title_join.
Qed.

Lemma _norm_subdomain_not_OTHER (x : pyval) : _norm_subdomain py_repr x <> "OTHER".
Proof.
  unfold _norm_subdomain.
  destruct (String.eqb (_norm_str py_repr x) ""); [done |].
  intros Ht. by apply title_two_capitals in Ht.
Qed.

(** X23: [_norm_subdomain] returns [UNKNOWN] exactly when the stripped text
    is empty, and it never returns [OTHER]: a named subdomain is confused
    neither with a missing one nor with the column of the others. *)
Theorem _norm_subdomain_unknown_iff (x : pyval) :
  (_norm_subdomain py_repr x = "UNKNOWN" <-> _norm_str py_repr x = "")
  /\ _norm_subdomain py_repr x <> "OTHER".
Proof.
  split; [| apply _norm_subdomain_not_OTHER].
  unfold _norm_subdomain.
  destruct (String.eqb_spec (_norm_str py_repr x) "") as [He|Hne]; [done |].
  split; [| done]. intros Ht. by apply title_two_capitals in Ht.
Qed.

(** X24: on a string that is not blank, [_norm_subdomain] returns the words
    of the string in title case, joined by single spaces, and normalising
    the result again does not change it. *)
Theorem _norm_subdomain_idempotent (s : string) :
  blank s = false ->
  _norm_subdomain py_repr (PStr (_norm_subdomain py_repr (PStr s)))
  = _norm_subdomain py_repr (PStr s)
  /\ _norm_subdomain py_repr (PStr s) = join " " (map title (split s)).
Proof.
  intros Hb. rewrite !_norm_subdomain_words.
  destruct (split s) as [|w ws] eqn:Hs.
  { apply split_from_nil in Hs as [_ Hs]. congruence. }
  split; [| done].
  assert (Forall word (map title (w :: ws))) as Hwords.
  { apply Forall_fmap. eapply Forall_impl; [rewrite <- Hs; apply split_words |].
    intros w' Hw'. by apply title_from_word. }
  assert (map title (map title (w :: ws)) = map title (w :: ws)) as Hidem.
  { rewrite map_map. apply map_ext. intros w'. apply title_from_idem. }
  rewrite split_join_words by done.
  cbn [map] in Hidem |- *. by rewrite Hidem.
Qed.

End norm_subdomain_more.

(** ** dataset_analysis.py: ground truth by subdomain *)

Lemma count_item_keys (v : string) (items : list (string * nat)) :
  map fst (count_item v items)
  = if bool_decide (v ∈ map fst items) then map fst items else map fst items ++ [v].
Proof.
  induction items as [|[k n] items IH]; simpl; [done |].
  destruct (String.eqb_spec k v) as [->|Hne]; simpl.
  - rewrite bool_decide_eq_true_2; [done | left].
  - rewrite IH. destruct (bool_decide (v ∈ map fst items)) eqn:Hin.
    + apply bool_decide_eq_true in Hin. rewrite bool_decide_eq_true_2; [done | by right].
    + apply bool_decide_eq_false in Hin. rewrite bool_decide_eq_false_2; [done |].
      rewrite elem_of_cons. intros [-> | ?]; done.
Qed.

Lemma count_item_NoDup (v : string) (items : list (string * nat)) :
  NoDup (map fst items) -> NoDup (map fst (count_item v items)).
Proof.
  intros Hnd. rewrite count_item_keys. case_bool_decide as Hin; [done |].
  apply NoDup_app. split; [done |]. split; [| apply NoDup_singleton].
  intros x Hx [->|[]%elem_of_nil]%elem_of_cons. done.
Qed.

Lemma count_item_elem (v x : string) (items : list (string * nat)) :
  x ∈ map fst (count_item v items) <-> x = v \/ x ∈ map fst items.
Proof.
  rewrite count_item_keys. case_bool_decide as Hin.
  - split; [by right | by intros [-> | ?]].
  - rewrite elem_of_app, elem_of_cons, elem_of_nil. tauto.
Qed.

Lemma Counter_items_keys (values : list string) :
  NoDup (map fst (Counter_items values))
  /\ forall x, x ∈ map fst (Counter_items values) <-> x ∈ values.
Proof.
  unfold Counter_items.
  assert (forall items,
            NoDup (map fst items) ->
            NoDup (map fst (foldl (fun items v => count_item v items) items values))
            /\ forall x, x ∈ map fst (foldl (fun items v => count_item v items) items values)
                         <-> x ∈ map fst items \/ x ∈ values) as Hgen.
  { induction values as [|v values IH]; intros items Hnd; simpl.
    - split; [done |]. intros x. rewrite elem_of_nil. tauto.
    - destruct (IH (count_item v items) (count_item_NoDup v items Hnd)) as [Hn He].
      split; [done |]. intros x. rewrite He, count_item_elem, elem_of_cons. tauto. }
  destruct (Hgen [] (NoDup_nil_2)) as [Hn He]. split; [done |].
  intros x. rewrite He. simpl. rewrite elem_of_nil. tauto.
Qed.

Lemma insert_by_count_Permutation (x : string * nat) (l : list (string * nat)) :
  insert_by_count x l ≡ₚ x :: l.
Proof.
  induction l as [|y l IH]; simpl; [done |].
  destruct (snd x <? snd y)%nat; [| done]. rewrite IH. apply perm_swap.
Qed.

Lemma sort_by_count_Permutation (items : list (string * nat)) :
  foldr insert_by_count [] items ≡ₚ items.
Proof.
  induction items as [|x items IH]; simpl; [done |].
  by rewrite insert_by_count_Permutation, IH.
Qed.

Lemma most_common_keys (n : nat) (items : list (string * nat)) :
  NoDup (map fst items) ->
  NoDup (map fst (most_common n items))
  /\ (forall x, x ∈ map fst (most_common n items) -> x ∈ map fst items)
  /\ length (most_common n items) <= n.
Proof.
  intros Hnd. unfold most_common.
  assert (map fst (foldr insert_by_count [] items) ≡ₚ map fst items) as Hp
    by by rewrite sort_by_count_Permutation.
  rewrite <- Hp in Hnd. split; [| split].
  - rewrite <- (take_drop n (foldr insert_by_count [] items)) in Hnd.
    change (map fst ?l) with (fst <$> l) in Hnd.
    rewrite fmap_app in Hnd. by apply NoDup_app in Hnd as [? _].
  - intros x Hx. rewrite <- Hp.
    change (map fst ?l) with (fst <$> l) in *.
    apply list_elem_of_fmap in Hx as (y & -> & Hy).
    apply list_elem_of_fmap_2. revert Hy. apply subseteq_take.
  - rewrite length_take. lia.
Qed.

Lemma sub_display_in_order (subs : list string) (x : string) :
  x ∈ sub_display subs -> x ∈ subs_order subs.
Proof.
  intros Hx. unfold subs_order. apply elem_of_app.
  pose proof Hx as Hx'. unfold sub_display in Hx'.
  change (map ?f ?l) with (f <$> l) in Hx'.
  apply list_elem_of_fmap in Hx' as (s & -> & Hs).
  case_bool_decide as Htop; [by left |]. right.
  assert (existsb (fun s => String.eqb s "OTHER") (sub_display subs) = true) as ->.
  { apply existsb_exists. exists "OTHER". split; [| done].
    by apply list_elem_of_In. }
  left.
Qed.

Lemma top_subs_keys (subs : list string) :
  NoDup (top_subs subs) /\ (forall x, x ∈ top_subs subs -> x ∈ subs)
  /\ length (top_subs subs) <= 10.
Proof.
  destruct (Counter_items_keys subs) as [Hnd Hin].
  destruct (most_common_keys 10 _ Hnd) as (Hnd' & Hin' & Hlen).
  unfold top_subs. split; [done |]. split.
  - intros x Hx. by apply Hin, Hin'.
  - by rewrite length_map.
Qed.

Lemma subs_order_NoDup (subs : list string) :
  "OTHER" ∉ subs -> NoDup (subs_order subs).
Proof.
  intros Hother. destruct (top_subs_keys subs) as (Hnd & Hin & _).
  unfold subs_order. apply NoDup_app. split; [done |]. split.
  - intros x Hx. destruct (existsb _ _); [| apply not_elem_of_nil].
    intros [-> | []%elem_of_nil]%elem_of_cons. auto.
  - destruct (existsb _ _); [apply NoDup_singleton | constructor].
Qed.

Section cross_table.
Variable order : list string.
Hypothesis order_NoDup : NoDup order.

Implicit Types (counts : gmap string (gmap pkey nat)) (c : gmap pkey nat) (k : pkey)
  (s : string).

Lemma column_sum_insert_fresh (l : list string) counts s c k :
  s ∉ l ->
  sum_list (map (fun s' => count_at k (default ∅ (<[s := c]> counts !! s'))) l)
  = sum_list (map (fun s' => count_at k (default ∅ (counts !! s'))) l).
Proof.
  induction l as [|x l IH]; simpl; [done |].
  rewrite not_elem_of_cons. intros [Hx Hl]. rewrite lookup_insert_ne by done.
  by rewrite IH.
Qed.

Lemma column_sum_incr (l : list string) counts s c k (k' : pkey) :
  NoDup l -> s ∈ l -> counts !! s = Some c ->
  sum_list (map (fun s' => count_at k' (default ∅ (<[s := incr k c]> counts !! s'))) l)
  = sum_list (map (fun s' => count_at k' (default ∅ (counts !! s'))) l)
    + (if decide (k = k') then 1 else 0).
Proof.
  intros Hnd Hs Hc. induction Hnd as [|x l Hx Hnd IH]; [by apply elem_of_nil in Hs |].
  simpl. destruct (decide (x = s)) as [->|Hne].
  - rewrite lookup_insert_eq, Hc, column_sum_insert_fresh by done. simpl.
    rewrite count_at_incr. destruct (decide (k = k')); lia.
  - apply elem_of_cons in Hs as [-> | Hs]; [done |].
    rewrite lookup_insert_ne by done. rewrite IH by done. lia.
Qed.

Lemma count_cell_column_sum counts s gt k :
  s ∈ order -> (forall s', s' ∈ order -> is_Some (counts !! s')) ->
  hash_key gt = Ok k ->
  exists counts',
    count_cell counts (s, gt) = Ok counts'
    /\ (forall s', s' ∈ order -> is_Some (counts' !! s'))
    /\ forall k', column_sum order counts' k'
                  = column_sum order counts k' + (if decide (k = k') then 1 else 0).
Proof.
  intros Hs Hdom Hk. destruct (Hdom s Hs) as [c Hc].
  exists (<[s := incr k c]> counts). unfold count_cell. simpl. rewrite Hc, Hk. simpl.
  split; [done |]. split.
  - intros s' Hs'. destruct (decide (s = s')) as [->|Hne].
    + rewrite lookup_insert_eq. eauto.
    + rewrite lookup_insert_ne by done. auto.
  - intros k'. by apply column_sum_incr.
Qed.

Lemma for_each_count_cell (cells : list (string * pyval)) counts :
  Forall (fun cell => fst cell ∈ order /\ exists k, hash_key (snd cell) = Ok k) cells ->
  (forall s', s' ∈ order -> is_Some (counts !! s')) ->
  exists counts',
    for_each count_cell cells counts = Ok counts'
    /\ forall k, column_sum order counts' k
                 = column_sum order counts k
                   + length (filter (fun cell => hash_key (snd cell) = Ok k) cells).
Proof.
  intros Hcells. revert counts.
  induction Hcells as [|[s gt] cells [Hs [k Hk]] _ IH]; intros counts Hdom.
  - exists counts. split; [done |]. intros k. simpl. lia.
  - simpl in Hs, Hk.
    destruct (count_cell_column_sum counts s gt k Hs Hdom Hk) as (c1 & Hc1 & Hdom1 & Hsum1).
    destruct (IH c1 Hdom1) as (c2 & Hc2 & Hsum2).
    exists c2. cbn [for_each]. rewrite Hc1. simpl. split; [done |].
    intros k'. rewrite Hsum2, Hsum1, filter_cons. simpl. rewrite Hk.
    destruct (decide (k = k')) as [->|Hne].
    + rewrite decide_True by done. simpl. lia.
    + rewrite decide_False by congruence. lia.
Qed.

Lemma column_sum_init k :
  column_sum order (list_to_map (map (fun s => (s, ∅)) order)) k = 0
  /\ forall s', s' ∈ order ->
       is_Some ((list_to_map (map (fun s => (s, ∅)) order) : gmap string (gmap pkey nat))
                !! s').
Proof.
  unfold column_sum. clear order_NoDup. split.
  - assert (forall l : list string,
              sum_list (map (fun s => count_at k
                 (default ∅ ((list_to_map (map (fun s => (s, ∅)) order)
                              : gmap string (gmap pkey nat)) !! s))) l) = 0) as Hl.
    { induction l as [|s l IH]; simpl; [done |]. rewrite IH.
      destruct (_ !! s) as [c|] eqn:Hc; simpl; [| done].
      apply elem_of_list_to_map_2 in Hc.
      change (map ?f ?l) with (f <$> l) in Hc.
      by apply list_elem_of_fmap in Hc as (? & [= _ ->] & _). }
    apply Hl.
  - intros s' Hs'. apply elem_of_dom. rewrite dom_list_to_map_L.
    apply elem_of_list_to_set. change (map ?f ?l) with (f <$> l).
    rewrite <- list_fmap_compose. simpl.
    by rewrite list_fmap_id.
Qed.

End cross_table.

Lemma length_filter_zip_snd {A B : Type} (P : B -> Prop) `{!forall y, Decision (P y)}
    `{!forall cell : A * B, Decision (P (snd cell))} (l1 : list A) (l2 : list B) :
  length l1 = length l2 ->
  length (filter (fun cell => P (snd cell)) (zip l1 l2)) = length (filter P l2).
Proof.
  revert l2. induction l1 as [|x l1 IH]; intros [|y l2]; simpl; try done.
  intros [= Hlen]. rewrite !filter_cons.
  do 2 destruct (decide _); simpl in *; try done; by rewrite IH.
Qed.

Lemma Forall_zip_both {A B : Type} (P : A -> Prop) (Q : B -> Prop) (l1 : list A) (l2 : list B) :
  Forall P l1 -> Forall Q l2 -> Forall (fun cell => P (fst cell) /\ Q (snd cell)) (zip l1 l2).
Proof.
  intros H1. revert l2. induction H1 as [|x l1 Hx _ IH]; intros l2 H2; simpl; [constructor |].
  destruct H2 as [|y l2 Hy H2]; constructor; [done | by apply IH].
Qed.

Lemma gts_length (all_questions gt_list : list pyval) :
  gts all_questions = Ok gt_list -> length gt_list = length all_questions.
Proof.
  revert gt_list. induction all_questions as [|q qs IH]; simpl; intros gt_list Hg.
  - by injection Hg as <-.
  - apply bind_Ok_inv in Hg as (gt & _ & Hg).
    apply bind_Ok_inv in Hg as (rest & Hrest & [= <-]).
    simpl. by rewrite (IH rest).
Qed.

(** X25: the table of ground truth by subdomain shows every record once:
    when every ground truth is hashable it is built without exception, its
    rows (at most eleven) are distinct, and for every ground truth the bars
    over the rows add up to the number of records with that ground
    truth. *)
Theorem subdomain_counts_add_up
    (py_repr : pyval -> string) (all_questions gt_list : list pyval) :
  gts all_questions = Ok gt_list ->
  Forall (fun gt => exists k, hash_key gt = Ok k) gt_list ->
  let subs := subdomains py_repr all_questions in
  exists counts,
    subdomain_counts subs gt_list = Ok counts
    /\ NoDup (subs_order subs)
    /\ length (subs_order subs) <= 11
    /\ forall k, sum_list (vals subs counts k)
                 = length (filter (fun gt => hash_key gt = Ok k) gt_list).
Proof.
  intros Hgts Hhash subs.
  assert ("OTHER" ∉ subs) as Hother.
  { unfold subs, subdomains. change (map ?f ?l) with (f <$> l).
    intros (q & Hq & _)%list_elem_of_fmap. symmetry in Hq.
    by apply _norm_subdomain_not_OTHER in Hq. }
  pose proof (subs_order_NoDup subs Hother) as Hnd.
  assert (length subs = length gt_list) as Hlen.
  { unfold subs, subdomains. rewrite length_map. symmetry.
    by apply gts_length. }
  destruct (column_sum_init (subs_order subs) (KStr "")) as [_ Hdom].
  destruct (for_each_count_cell (subs_order subs) Hnd
              (zip (sub_display subs) gt_list)
              (list_to_map (map (fun s => (s, ∅)) (subs_order subs))))
    as (counts & Hrun & Hsum); [| done |].
  { apply (Forall_zip_both (fun s => s ∈ subs_order subs)
                              (fun gt => exists k, hash_key gt = Ok k)); [| done].
    apply list.Forall_forall. apply sub_display_in_order. }
  exists counts. split; [done |]. split; [done |]. split.
  - unfold subs_order. rewrite length_app.
    destruct (top_subs_keys subs) as (_ & _ & Htop).
    destruct (existsb _ _); simpl; lia.
  - intros k. change (sum_list (vals subs counts k))
      with (column_sum (subs_order subs) counts k).
    rewrite Hsum. destruct (column_sum_init (subs_order subs) k) as [-> _].
    rewrite Nat.add_0_l.
    apply (length_filter_zip_snd (fun gt => hash_key gt = Ok k)).
    unfold sub_display. by rewrite length_map.
Qed.

(** ** dataset_analysis.py: trap types by annotator *)

Lemma eq_key_true (v : pyval) (k : pkey) : eq_key v k = true <-> hash_key v = Ok k.
Proof. unfold eq_key. apply bool_decide_eq_true. Qed.

Lemma in_keys_true (v : pyval) (keys : list pkey) :
  in_keys v keys = true <-> exists k, k ∈ keys /\ hash_key v = Ok k.
Proof.
  unfold in_keys. rewrite existsb_exists. split.
  - intros (k & Hk%list_elem_of_In & He%eq_key_true). eauto.
  - intros (k & Hk%list_elem_of_In & He%eq_key_true). eauto.
Qed.

Lemma length_filter_disjoint {A : Type} (P Q R : A -> Prop)
    `{!forall x, Decision (P x)} `{!forall x, Decision (Q x)} `{!forall x, Decision (R x)}
    (l : list A) :
  (forall x, (R x <-> P x \/ Q x) /\ ~ (P x /\ Q x)) ->
  length (filter P l) + length (filter Q l) = length (filter R l).
Proof.
  intros Hx. induction l as [|x l IH]; [done |]. rewrite !filter_cons.
  destruct (Hx x) as [HR HPQ].
  destruct (decide (P x)), (decide (Q x)), (decide (R x)); simpl; try lia; tauto.
Qed.

(** Over keys without repetition, the bars of the keys count the records
    whose value is one of the keys. *)
Lemma sum_eq_key_bars (value : pyval -> pyval) (keys : list pkey) (qs : list pyval) :
  NoDup keys ->
  sum_list (map (fun k => length (filter (fun q => eq_key (value q) k = true) qs)) keys)
  = length (filter (fun q => in_keys (value q) keys = true) qs).
Proof.
  intros Hnd. induction Hnd as [|k keys Hk Hnd IH].
  - simpl. induction qs as [|q qs IHq]; [done |].
    rewrite filter_cons. rewrite decide_False; [done | by unfold in_keys].
  - cbn [map sum_list]. rewrite IH. apply length_filter_disjoint.
    intros q. rewrite !in_keys_true, eq_key_true. split.
    + split.
      * intros (k' & [-> | Hk']%elem_of_cons & He); [by left | right; eauto].
      * intros [He | (k' & Hk' & He)]; [exists k; split; [left | done] |].
        exists k'. split; [by right | done].
    + intros [He (k' & Hk' & He')]. congruence.
Qed.

Lemma length_filter_bool_split {A : Type} (f : A -> bool) (l : list A) :
  length (filter (fun x => f x = true) l) + length (filter (fun x => f x = false) l)
  = length l.
Proof.
  induction l as [|x l IH]; [done |]. rewrite !filter_cons.
  destruct (f x); simpl; lia.
Qed.

Lemma sum_list_app (l1 l2 : list nat) : sum_list (l1 ++ l2) = sum_list l1 + sum_list l2.
Proof. induction l1 as [|x l1 IH]; simpl; [done |]. rewrite IH. lia. Qed.

Lemma _get_present (q : pyval) (path : list string) (default default' : pyval) :
  has_path q path = true -> _get q path default = _get q path default'.
Proof. intros Hp. by apply _get_paths. Qed.

(** X26: for an annotator whose [NO] records all have a trap type, the bars
    of the top trap types and of [OTHER] add up to the number of these
    records, provided the top trap types are distinct and none of them is
    [OTHER]. *)
Theorem trap_type_bars_cover
    (top_trap_types : list pkey) (bucket qs : list pyval) :
  no_cases bucket = Ok qs ->
  NoDup top_trap_types ->
  KStr "OTHER" ∉ top_trap_types ->
  Forall (fun q => has_path q ["annotations"; "trapType"] = true) qs ->
  exists vals,
    trap_type_vals top_trap_types bucket = Ok vals
    /\ length vals = S (length top_trap_types)
    /\ sum_list vals = length qs.
Proof.
  intros Hqs Hnd Hother Hpath. unfold trap_type_vals. rewrite Hqs. simpl.
  eexists. split; [done |]. split.
  - rewrite length_map, length_app. simpl. lia.
  - change (map ?f ?l) with (f <$> l). rewrite fmap_app, sum_list_app.
    assert (trap_type_val top_trap_types qs <$> top_trap_types
            = (fun k => length (filter (fun q =>
                 eq_key (_get q ["annotations"; "trapType"] PNone) k = true) qs))
              <$> top_trap_types) as ->.
    { apply list_fmap_ext. intros i k Hk. unfold trap_type_val.
      destruct (eq_key (PStr "OTHER") k) eqn:He; [| done].
      apply eq_key_true in He. simpl in He. injection He as <-.
      apply list_elem_of_lookup_2 in Hk. done. }
    change (?f <$> ?l) with (map f l) at 1.
    rewrite (sum_eq_key_bars (fun q => _get q ["annotations"; "trapType"] PNone)) by done.
    cbn [fmap list_fmap sum_list]. unfold trap_type_val.
    assert (eq_key (PStr "OTHER") (KStr "OTHER") = true) as -> by by apply eq_key_true.
    rewrite Nat.add_0_r.
    rewrite <- (length_filter_bool_split
                  (fun q => in_keys (_get q ["annotations"; "trapType"] PNone)
                                    top_trap_types) qs).
    f_equal. clear -Hpath. induction Hpath as [|q qs Hq _ IH]; [done |].
    rewrite !filter_cons.
    rewrite (_get_present q _ (PStr "UNKNOWN") PNone Hq).
    destruct (in_keys _ _); simpl; [done | by f_equal].
Qed.

(** ** The further properties on the example inputs *)

Lemma pearl_levels_exhaust_cases_witness :
  count_at (KStr "L1") (pearl_level example_unval_stats)
  + count_at (KStr "L2") (pearl_level example_unval_stats)
  + count_at (KStr "L3") (pearl_level example_unval_stats) = 2.
Proof.
  assert (calculate_stats repr_unused (map RowCase example_db) "Unvalidated"
          = Ok example_unval_stats) as Hrun by reflexivity.
  exact (proj1 (pearl_levels_exhaust_cases repr_unused (map RowCase example_db)
                  "Unvalidated" example_unval_stats Hrun)).
Defined.

Lemma labels_by_level_consistent_witness :
  sum_values (label example_unval_stats) = 2.
Proof.
  assert (calculate_stats repr_unused (map RowCase example_db) "Unvalidated"
          = Ok example_unval_stats) as Hrun by reflexivity.
  exact (proj1 (labels_by_level_consistent repr_unused (map RowCase example_db)
                  "Unvalidated" example_unval_stats Hrun)).
Defined.

Lemma difficulty_by_level_consistent_witness :
  sum_values (level_L1 (difficulty_by_level example_unval_stats))
  = count_at (KStr "L1") (pearl_level example_unval_stats).
Proof.
  assert (calculate_stats repr_unused (map RowCase example_db) "Unvalidated"
          = Ok example_unval_stats) as Hrun by reflexivity.
  exact (proj1 (difficulty_by_level_consistent repr_unused (map RowCase example_db)
                  "Unvalidated" example_unval_stats Hrun)).
Defined.

Lemma score_ranges_count_scored_cases_witness :
  sum_values (score_ranges example_unval_stats) = 2.
Proof.
  assert (calculate_stats repr_unused (map RowCase example_db) "Unvalidated"
          = Ok example_unval_stats) as Hrun by reflexivity.
  exact (proj1 (score_ranges_count_scored_cases repr_unused (map RowCase example_db)
                  "Unvalidated" example_unval_stats Hrun)).
Defined.

Lemma trap_prefix_counts_trapped_cases_witness :
  sum_values (trap_prefix example_unval_stats) = 2.
Proof.
  assert (calculate_stats repr_unused (map RowCase example_db) "Unvalidated"
          = Ok example_unval_stats) as Hrun by reflexivity.
  exact (trap_prefix_counts_trapped_cases repr_unused (map RowCase example_db)
           "Unvalidated" example_unval_stats Hrun).
Defined.

Lemma calculate_stats_order_independent_witness :
  calculate_stats repr_unused [RowCase row_yes; RowCase row_no] "Unvalidated"
  = Ok example_unval_stats.
Proof.
  assert (calculate_stats repr_unused (map RowCase example_db) "Unvalidated"
          = Ok example_unval_stats) as Hrun by reflexivity.
  refine (calculate_stats_order_independent repr_unused (map RowCase example_db)
            [RowCase row_yes; RowCase row_no] "Unvalidated" example_unval_stats
            _ Hrun).
  apply perm_swap.
Defined.

Lemma validated_cases_filter_witness :
  [row_no] `sublist_of` example_db /\ validated_cases [row_no] = Ok [row_no].
Proof.
  assert (validated_cases example_db = Ok [row_no]) as Hv by reflexivity.
  pose proof (validated_cases_filter example_db [row_no] Hv) as (Hsub & _ & _ & Hidem).
  exact (conj Hsub Hidem).
Defined.

Lemma counters_are_case_counts_witness :
  count_at (KStr "L1") (pearl_level example_unval_stats) = 1
  /\ count_at "Hard" (difficulty example_unval_stats) = 1.
Proof.
  assert (calculate_stats repr_unused (map RowCase example_db) "Unvalidated"
          = Ok example_unval_stats) as Hrun by reflexivity.
  pose proof (counters_are_case_counts repr_unused (map RowCase example_db)
                "Unvalidated" example_unval_stats Hrun)
    as (Hp & Hd & _).
  exact (conj (Hp "L1") (Hd "Hard")).
Defined.

Lemma dict_of_row_counted_like_row_witness :
  calculate_stats repr_unused (map (fun r => JsonCase (row_as_dict r)) example_db)
                  "Unvalidated"
  = calculate_stats repr_unused (map RowCase example_db) "Unvalidated".
Proof.
  apply (dict_of_row_counted_like_row repr_unused example_db "Unvalidated").
  repeat constructor.
Defined.

Lemma validated_stage_bounded_witness :
  exists v, calculate_stats repr_unused (map RowCase [row_no]) "Validated (score >= 8)" = Ok v
            /\ total v <= total example_unval_stats.
Proof.
  assert (calculate_stats repr_unused (map RowCase example_db) "Unvalidated"
          = Ok example_unval_stats) as Hrun by reflexivity.
  assert (validated_cases example_db = Ok [row_no]) as Hv by reflexivity.
  destruct (validated_stage_bounded repr_unused example_db [row_no] "Unvalidated"
              "Validated (score >= 8)" example_unval_stats Hrun Hv)
    as (v & Hval & Htotal & _).
  exists v. exact (conj Hval Htotal).
Defined.

Lemma normalisation_ignores_surrounding_space_witness :
  _norm_difficulty repr_unused (PStr "  Medium ") = _norm_difficulty repr_unused (PStr "Medium").
Proof.
  refine (proj2 (proj2 (normalisation_ignores_surrounding_space repr_unused "  " "Medium" " "
                          _ _))); reflexivity.
Defined.

Lemma _word_count_additive_witness :
  exists n m,
    _word_count (PStr "rates rose") = Ok n /\ _word_count (PStr "stocks fell") = Ok m
    /\ _word_count (PStr "rates rose  stocks fell") = Ok (n + m).
Proof.
  destruct (_word_count_additive "rates rose" "  " "stocks fell") as (n & m & Ha & Hb & Hab & _);
    [reflexivity | discriminate |].
  exists n, m. exact (conj Ha (conj Hb Hab)).
Defined.

Lemma _load_questions_listing_order_witness :
  _load_questions dir_both = _load_questions dir_permuted.
Proof.
  apply _load_questions_listing_order.
  - unfold dir_both, dir_permuted.
    transitivity [file_combined_object; file_tony; file_other]; [apply perm_swap |].
    transitivity [file_combined_object; file_other; file_tony];
      [apply perm_skip, perm_swap | apply perm_swap].
  - repeat (apply NoDup_cons_2; [rewrite ?elem_of_cons, elem_of_nil; intuition discriminate |]).
    apply NoDup_nil_2.
  - apply le_n.
Defined.

Lemma per_author_buckets_closed_form_witness :
  exists by_author,
    _load_questions dir_both = Ok ([question_yes; question_no], by_author)
    /\ default [] (by_author !! KStr "Tony") = [question_no].
Proof.
  assert (sorted (per_author_files (glob_json dir_both)) = [file_other; file_tony])
    as Hfiles by reflexivity.
  pose proof (per_author_buckets_closed_form dir_both) as Hclosed.
  cbv zeta in Hclosed. rewrite Hfiles in Hclosed.
  destruct Hclosed as (by_author & Hrun & Hbuckets).
  - apply Forall_cons. split; [right; eexists; split; reflexivity |].
    apply Forall_cons. split; [left; reflexivity | apply Forall_nil_2].
  - left. discriminate.
  - exists by_author. split; [exact Hrun |]. exact (proj1 (Hbuckets (KStr "Tony"))).
Defined.

Lemma combined_buckets_closed_form_witness :
  exists by_author,
    _load_questions dir_only_combined = Ok ([question_no; question_yes], by_author)
    /\ default [] (by_author !! KStr "Tony") = [question_no].
Proof.
  destruct (combined_buckets_closed_form dir_only_combined file_combined_object []
              [question_no; question_yes]) as (by_author & Hrun & Hbuckets).
  - reflexivity.
  - reflexivity.
  - eexists. split; reflexivity.
  - repeat constructor; eexists; eexists; split; reflexivity.
  - exists by_author. split; [exact Hrun |]. exact (proj1 (Hbuckets (KStr "Tony"))).
Defined.

Lemma _norm_subdomain_same_words_witness :
  _norm_subdomain repr_unused (PStr "equity  markets")
  = _norm_subdomain repr_unused (PStr " Equity Markets").
Proof. apply _norm_subdomain_same_words. reflexivity. Defined.

Lemma _norm_subdomain_idempotent_witness :
  _norm_subdomain repr_unused (PStr "equity  markets") = "Equity Markets".
Proof.
  refine (proj2 (_norm_subdomain_idempotent repr_unused "equity  markets" _)). reflexivity.
Defined.

Lemma subdomain_counts_add_up_witness :
  exists counts,
    subdomain_counts (subdomains repr_unused example_questions) [PStr "NO"; PStr "YES"]
    = Ok counts
    /\ sum_list (vals (subdomains repr_unused example_questions) counts (KStr "NO")) = 1.
Proof.
  destruct (subdomain_counts_add_up repr_unused example_questions [PStr "NO"; PStr "YES"])
    as (counts & Hrun & _ & _ & Hsum).
  - reflexivity.
  - repeat constructor; eexists; reflexivity.
  - exists counts. split; [exact Hrun |]. exact (Hsum (KStr "NO")).
Defined.

Lemma trap_type_bars_cover_witness :
  exists vals,
    trap_type_vals [KStr "COLLIDER"] [question_no; question_yes] = Ok vals
    /\ sum_list vals = 1.
Proof.
  destruct (trap_type_bars_cover [KStr "COLLIDER"] [question_no; question_yes] [question_no])
    as (vals & Hrun & _ & Hsum).
  - reflexivity.
  - apply NoDup_singleton.
  - rewrite elem_of_cons, elem_of_nil. intuition discriminate.
  - repeat constructor.
  - exists vals. exact (conj Hrun Hsum).
Defined.

Lemma calculate_stats_exceptions_witness :
  exists c, c ∈ [RowCase row_no; RowCase row_null_pearl]
            /\ calculate_stats repr_unused [c] "Unvalidated" = Raise KeyError.
Proof.
  refine (proj2 (calculate_stats_exceptions repr_unused
                   [RowCase row_no; RowCase row_null_pearl] "Unvalidated" KeyError _)).
  reflexivity.
Defined.
